(** * GeoVision: the browser model viewer of [src/basic/main.js]

    A shallow embedding of the two classes of the viewer, [BasemapManager]
    and [SimpleModelViewer], and of the event handlers they install, with
    the properties of camera fitting, grounding, basemap loading, lighting
    presets and click picking stated over it.

    Conventions of the embedding.
    - A JavaScript number is a real number: rounding of IEEE doubles is not
      modelled. The infinities are modelled where the program meets them,
      in the corners of an empty bounding box and in the height the
      grounding step gives to a model without geometry.
    - three.js objects that the code shares by reference (scene nodes and
      their materials) live in two stores keyed by identifiers; what the
      viewer alone owns (camera, lights, controls) is held by value.
    - A method is a computation in the monad [JS]: it threads the viewer
      state and may complete abruptly with an exception, in which case the
      writes made so far stay, as in the source language.
    - Asynchronous work is a pair of events: the handler that issues a
      fetch, and the later callback of the loader.

    What the viewer calls but does not define is three.js and the
    browser. Their part is kept to what the viewer reads from them: the
    fields of the objects it builds, under the names three.js gives them;
    the box of a node as the bounds of its geometry lifted to its height,
    empty when it has no geometry; the reports of the texture and glTF
    loaders and the array of intersections of a click, which arrive as
    the payload of events; and [controls.update()], which may rewrite the
    controller and the camera: the viewer is verified for every such
    function, and where a property depends on what the function does, for
    [OrbitControls.threejs], the one three.js ships. *)

From Stdlib Require Import Reals Lra ZArith Sorted.
From stdpp Require Import base option list gmap strings.

Local Open Scope Z_scope.

(** ** Numbers, colours, vectors *)

(** A colour is the integer of its hexadecimal triplet, as in
    [new THREE.Color(0x87CEEB)]. *)
Abbreviation Color := Z (only parsing).

Record Vector2 : Type := Vec2 { v2x : R; v2y : R }.

Record Vector3 : Type := Vec3 { vx : R; vy : R; vz : R }.

(** A number that may be one of the infinities: the corners of an empty
    box are [+Infinity] and [-Infinity]. *)
Inductive Number : Type :=
| Finite (x : R)
| PosInfinity
| NegInfinity.

(** Unary minus. *)
Definition negate (n : Number) : Number :=
  match n with
  | Finite x => Finite (- x)
  | PosInfinity => NegInfinity
  | NegInfinity => PosInfinity
  end.

(** Comparisons of numbers, as the conditions of the library read them. *)
#[export] Instance Rlt_decision (x y : R) : Decision (x < y)%R := Rlt_dec x y.
#[export] Instance R_eq_decision : EqDecision R := Req_dec_T.

(** [MathUtils.clamp(value, min, max)] *)
Definition clamp (value min max : R) : R := Rmax min (Rmin max value).

(** [a.distanceTo(b)], the Euclidean distance. *)
Definition distanceTo (a b : Vector3) : R :=
  sqrt (Rsqr (vx a - vx b) + Rsqr (vy a - vy b) + Rsqr (vz a - vz b))%R.

(** Nodes and materials are named by numbers. *)
Abbreviation ObjId := nat (only parsing).
Abbreviation MatId := nat (only parsing).

(** ** three.js data *)

Inductive Wrapping : Type := ClampToEdgeWrapping | RepeatWrapping.

Inductive Side : Type := FrontSide | DoubleSide.

Inductive Geometry : Type :=
| BufferGeometry
| PlaneGeometry (width height : R).

Module Texture.
(** What [TextureLoader.load] hands to its [onLoad] callback: a texture of
    the image found at [source], with three.js's default wrapping. *)
Record t : Type := mk {
  source : string;
  wrapS : Wrapping;
  wrapT : Wrapping;
  repeat : R * R
}.

Definition loaded (url : string) : t :=
  {| source := url; wrapS := ClampToEdgeWrapping;
     wrapT := ClampToEdgeWrapping; repeat := (1%R, 1%R) |}.
End Texture.

Module Material.
(** [emissive] is [None] for a material without that property
    (a [MeshBasicMaterial], an array of materials). *)
Record t : Type := mk {
  emissive : option Color;
  map : option Texture.t;
  side : Side;
  needsUpdate : bool
}.

Definition set_emissive (c : Color) (m : t) : t :=
  {| emissive := Some c; map := map m; side := side m;
     needsUpdate := needsUpdate m |}.

Definition set_map (tex : Texture.t) (m : t) : t :=
  {| emissive := emissive m; map := Some tex; side := side m;
     needsUpdate := needsUpdate m |}.

Definition set_needsUpdate (b : bool) (m : t) : t :=
  {| emissive := emissive m; map := map m; side := side m;
     needsUpdate := b |}.
End Material.

Module Object3D.
(** A node of the scene graph. [material] is [None] for a node without
    one (a group, a light helper). *)
Record t : Type := mk {
  name : string;
  userData : list (string * string);
  geometry : Geometry;
  material : option MatId;
  isMesh : bool;
  visible : bool;
  castShadow : bool;
  receiveShadow : bool;
  rotation_x : R;
  position_y : R
}.

Definition set_visible (b : bool) (o : t) : t :=
  {| name := name o; userData := userData o; geometry := geometry o;
     material := material o; isMesh := isMesh o; visible := b;
     castShadow := castShadow o; receiveShadow := receiveShadow o;
     rotation_x := rotation_x o; position_y := position_y o |}.

Definition set_shadows (b : bool) (o : t) : t :=
  {| name := name o; userData := userData o; geometry := geometry o;
     material := material o; isMesh := isMesh o; visible := visible o;
     castShadow := b; receiveShadow := b;
     rotation_x := rotation_x o; position_y := position_y o |}.

Definition set_rotation_x (a : R) (o : t) : t :=
  {| name := name o; userData := userData o; geometry := geometry o;
     material := material o; isMesh := isMesh o; visible := visible o;
     castShadow := castShadow o; receiveShadow := receiveShadow o;
     rotation_x := a; position_y := position_y o |}.

Definition set_position_y (y : R) (o : t) : t :=
  {| name := name o; userData := userData o; geometry := geometry o;
     material := material o; isMesh := isMesh o; visible := visible o;
     castShadow := castShadow o; receiveShadow := receiveShadow o;
     rotation_x := rotation_x o; position_y := y |}.

(** [new THREE.Mesh(geometry, material)] *)
Definition Mesh (g : Geometry) (m : MatId) : t :=
  {| name := ""; userData := []; geometry := g; material := Some m;
     isMesh := true; visible := true; castShadow := false;
     receiveShadow := false; rotation_x := 0%R; position_y := 0%R |}.
End Object3D.

Module Box3.
(** A [Box3]. [empty] is the box nothing has been put into, as
    [makeEmpty()] leaves it and as [setFromObject] returns it for an
    object without geometry: its [min] is [+Infinity] and its [max] is
    [-Infinity] on every axis. Every other box the program meets has
    finite corners. *)
Inductive t : Type :=
| empty
| box (min max : Vector3).

Section Box3.
Local Open Scope R_scope.

(** [b.isEmpty()]: some coordinate of [max] lies below that of [min]. *)
Definition isEmpty (b : t) : bool :=
  match b with
  | empty => true
  | box min max =>
      bool_decide (vx max < vx min) || bool_decide (vy max < vy min)
      || bool_decide (vz max < vz min)
  end.

(** [b.min.y] *)
Definition min_y (b : t) : Number :=
  match b with
  | empty => PosInfinity
  | box min _ => Finite (vy min)
  end.

(** [b.getCenter(target)]: the origin for an empty box. *)
Definition getCenter (b : t) : Vector3 :=
  match b with
  | box min max =>
      if isEmpty b then Vec3 0 0 0
      else Vec3 ((vx min + vx max) * 0.5) ((vy min + vy max) * 0.5)
                ((vz min + vz max) * 0.5)
  | empty => Vec3 0 0 0
  end.

(** [b.getSize(target)]: zero for an empty box. *)
Definition getSize (b : t) : Vector3 :=
  match b with
  | box min max =>
      if isEmpty b then Vec3 0 0 0
      else Vec3 (vx max - vx min) (vy max - vy min) (vz max - vz min)
  | empty => Vec3 0 0 0
  end.
End Box3.
End Box3.

Module Model.
(** The root node of the loaded asset ([gltf.scene]) as the viewer uses
    it. The loader builds it as a group at the origin, directly under the
    scene, which carries no transform; its height [y] is the one
    coordinate the program writes, and [parts] are the identifiers of its
    descendants in traversal order.
    - [Solid]: some descendant has geometry, and [min] and [max] bound
      all of it relative to the node. Its height is a finite number: the
      program only ever assigns it the negated minimum of the node's own
      box, whose corners are finite.
    - [Hollow]: no descendant has geometry. The box of the node is empty
      wherever it stands, and the height the program assigns it is
      [-Infinity]. *)
Inductive t : Type :=
| Solid (y : R) (min max : Vector3) (parts : list ObjId)
| Hollow (y : Number) (parts : list ObjId).

Definition parts (m : t) : list ObjId :=
  match m with
  | Solid _ _ _ parts => parts
  | Hollow _ parts => parts
  end.

(** [model.position.y] *)
Definition position_y (m : t) : Number :=
  match m with
  | Solid y _ _ _ => Finite y
  | Hollow y _ => y
  end.

(** [new THREE.Box3().setFromObject(model)]: the world-space box of the
    node, the bounds of its geometry lifted to where the node stands, or
    the empty box. *)
Definition setFromObject (m : t) : Box3.t :=
  match m with
  | Solid y min max _ =>
      Box3.box (Vec3 (vx min) (y + vy min) (vz min))
               (Vec3 (vx max) (y + vy max) (vz max))
  | Hollow _ _ => Box3.empty
  end.
End Model.

(** ** Lights *)

Module AmbientLight.
Record t : Type := mk { color : Color; intensity : R }.

Definition set_intensity (i : R) (l : t) : t :=
  {| color := color l; intensity := i |}.
End AmbientLight.

Module DirectionalLight.
Record t : Type := mk {
  color : Color;
  intensity : R;
  position : Vector3;
  castShadow : bool
}.

Definition set_intensity (i : R) (l : t) : t :=
  {| color := color l; intensity := i; position := position l;
     castShadow := castShadow l |}.

Definition set_position (p : Vector3) (l : t) : t :=
  {| color := color l; intensity := intensity l; position := p;
     castShadow := castShadow l |}.

Definition set_color (c : Color) (l : t) : t :=
  {| color := c; intensity := intensity l; position := position l;
     castShadow := castShadow l |}.

Definition set_castShadow (b : bool) (l : t) : t :=
  {| color := color l; intensity := intensity l; position := position l;
     castShadow := b |}.
End DirectionalLight.

Module HemisphereLight.
(** three.js's [HemisphereLight(skyColor, groundColor, intensity)] keeps
    its first argument in the property [color] it inherits from [Light],
    and its second in [groundColor]; these two are its only colour-valued
    properties. *)
Record t : Type := mk { color : Color; groundColor : Color; intensity : R }.

(** Reading a colour-valued property by its name; [None] is JavaScript's
    [undefined], what reading a property the object lacks yields. *)
Definition colorProperty (p : string) (l : t) : option Color :=
  if decide (p = "color") then Some (color l)
  else if decide (p = "groundColor") then Some (groundColor l)
  else None.

(** [l.p.set(c)] for a property [p] that [colorProperty] finds. *)
Definition setColorProperty (p : string) (c : Color) (l : t) : t :=
  if decide (p = "color") then
    {| color := c; groundColor := groundColor l; intensity := intensity l |}
  else if decide (p = "groundColor") then
    {| color := color l; groundColor := c; intensity := intensity l |}
  else l.

Definition set_intensity (i : R) (l : t) : t :=
  {| color := color l; groundColor := groundColor l; intensity := i |}.
End HemisphereLight.

(** ** Camera, controls, renderer *)

Module Camera.
(** A [PerspectiveCamera]; [fov] is in degrees. [lookAt] is the point the
    camera was last turned to, [None] for the orientation it is built
    with. *)
Record t : Type := mk {
  fov : R;
  aspect : R;
  near : R;
  far : R;
  position : Vector3;
  lookAt : option Vector3
}.

Definition set_position (p : Vector3) (c : t) : t :=
  {| fov := fov c; aspect := aspect c; near := near c; far := far c;
     position := p; lookAt := lookAt c |}.

Definition set_lookAt (p : Vector3) (c : t) : t :=
  {| fov := fov c; aspect := aspect c; near := near c; far := far c;
     position := position c; lookAt := Some p |}.

Definition set_aspect (a : R) (c : t) : t :=
  {| fov := fov c; aspect := a; near := near c; far := far c;
     position := position c; lookAt := lookAt c |}.
End Camera.

Module Spherical.
(** The spherical coordinates of three.js: [phi] is the polar angle from
    the y axis, [theta] the angle around it from the z axis. *)
Record t : Type := mk { radius : R; phi : R; theta : R }.

Section Spherical.
Local Open Scope R_scope.

(** [Math.atan2(y, x)] *)
Definition atan2 (y x : R) : R :=
  if decide (0 < x) then atan (y / x)
  else if decide (x < 0) then
    if decide (y < 0) then atan (y / x) - PI else atan (y / x) + PI
  else if decide (0 < y) then PI / 2
  else if decide (y < 0) then - PI / 2
  else 0.

(** [spherical.setFromVector3(v)] *)
Definition setFromVector3 (v : Vector3) : t :=
  let radius := sqrt (vx v * vx v + vy v * vy v + vz v * vz v) in
  if decide (radius = 0) then {| radius := radius; phi := 0; theta := 0 |}
  else {| radius := radius;
          phi := acos (clamp (vy v / radius) (-1) 1);
          theta := atan2 (vx v) (vz v) |}.

(** [spherical.makeSafe()]: [phi] is kept off the poles. *)
Definition makeSafe (s : t) : t :=
  {| radius := radius s;
     phi := Rmax 0.000001 (Rmin (PI - 0.000001) (phi s));
     theta := theta s |}.

(** [vector.setFromSpherical(s)] *)
Definition toVector3 (s : t) : Vector3 :=
  let sinPhiRadius := sin (phi s) * radius s in
  Vec3 (sinPhiRadius * sin (theta s)) (cos (phi s) * radius s)
       (sinPhiRadius * cos (theta s)).
End Spherical.
End Spherical.

Module OrbitControls.
(** The settings the viewer writes, and below them the motion that the
    controller's own listeners (pointer, wheel, keys) have asked for and
    [update()] has yet to apply: the rotation [sphericalDelta] as
    [(theta, phi)], the pan [panOffset] and the zoom factor [scale]. *)
Record t : Type := mk {
  target : Vector3;
  enableDamping : bool;
  dampingFactor : R;
  maxPolarAngle : R;
  minDistance : R;
  maxDistance : R;
  sphericalDelta : R * R;
  panOffset : Vector3;
  scale : R
}.

Definition set_target (p : Vector3) (c : t) : t :=
  {| target := p; enableDamping := enableDamping c;
     dampingFactor := dampingFactor c; maxPolarAngle := maxPolarAngle c;
     minDistance := minDistance c; maxDistance := maxDistance c;
     sphericalDelta := sphericalDelta c; panOffset := panOffset c;
     scale := scale c |}.

(** [controls.update()] belongs to the library: it rewrites the
    controller and the camera it steers. Where nothing depends on how,
    the viewer is verified for every such function. *)
Class Update : Type := update : t -> Camera.t -> t * Camera.t.

Section OrbitControls.
Local Open Scope R_scope.

(** [update()] as three.js r158, the release [main.js] imports, has it in
    [examples/jsm/controls/OrbitControls.js], for a controller as the
    viewer builds it: a perspective camera whose up is the y axis, no
    auto-rotation, no limits on the azimuth, [minPolarAngle] 0, no zoom
    to the cursor, and no limit on how far the target may be panned. The
    camera is moved on the sphere around the target by the rotation
    asked for, kept within the polar limits, to the distance asked for
    clamped between [minDistance] and [maxDistance], and turned to the
    target; with damping, a share [dampingFactor] of the rotation and
    the pan is applied and the rest kept for the frames to come. *)
Definition threejs : Update := λ c camera,
  let position := Camera.position camera in
  let offset :=
    Vec3 (vx position - vx (target c)) (vy position - vy (target c))
         (vz position - vz (target c)) in
  let spherical := Spherical.setFromVector3 offset in
  let share := if enableDamping c then dampingFactor c else 1 in
  let theta := Spherical.theta spherical + (sphericalDelta c).1 * share in
  let phi := Spherical.phi spherical + (sphericalDelta c).2 * share in
  let phi := Rmax 0 (Rmin (maxPolarAngle c) phi) in
  let spherical :=
    Spherical.makeSafe
      {| Spherical.radius := Spherical.radius spherical;
         Spherical.phi := phi; Spherical.theta := theta |} in
  let target' :=
    Vec3 (vx (target c) + vx (panOffset c) * share)
         (vy (target c) + vy (panOffset c) * share)
         (vz (target c) + vz (panOffset c) * share) in
  let radius :=
    clamp (Spherical.radius spherical * scale c)
      (minDistance c) (maxDistance c) in
  let offset' :=
    Spherical.toVector3
      {| Spherical.radius := radius; Spherical.phi := Spherical.phi spherical;
         Spherical.theta := Spherical.theta spherical |} in
  let position' :=
    Vec3 (vx target' + vx offset') (vy target' + vy offset')
         (vz target' + vz offset') in
  let rest := if enableDamping c then 1 - dampingFactor c else 0 in
  ({| target := target'; enableDamping := enableDamping c;
      dampingFactor := dampingFactor c; maxPolarAngle := maxPolarAngle c;
      minDistance := minDistance c; maxDistance := maxDistance c;
      sphericalDelta :=
        ((sphericalDelta c).1 * rest, (sphericalDelta c).2 * rest);
      panOffset :=
        Vec3 (vx (panOffset c) * rest) (vy (panOffset c) * rest)
             (vz (panOffset c) * rest);
      scale := 1 |},
   Camera.set_lookAt target' (Camera.set_position position' camera)).
End OrbitControls.
End OrbitControls.

Module Raycaster.
(** The ray last set by [setFromCamera]: from [origin], through the point
    [coords] of normalised device coordinates. *)
Record t : Type := mk { origin : Vector3; coords : Vector2 }.

Definition setFromCamera (coords : Vector2) (camera : Camera.t) : t :=
  {| origin := Camera.position camera; coords := coords |}.

(** An entry of the array [intersectObjects] returns. *)
Record Intersection : Type := hit { distance : R; object : ObjId }.
End Raycaster.

(** ** The page *)

Module Page.
(** The content of the loading overlay. *)
Inductive Overlay : Type :=
| LoadingIndicator                 (* the markup the page ships with *)
| ErrorBlock (message : string).   (* the block [showError] writes *)

(** The elements of the page the viewer writes to: the loading overlay
    (its [hidden] class and its content), the three elements of the info
    panel, and the console. The page that declares them is not part of
    the sources; they are taken to exist. *)
Record t : Type := mk {
  overlayHidden : bool;
  overlayHTML : Overlay;
  panelDisplay : string;
  objectName : string;
  objectDetails : string;
  console : list string
}.

Definition hideOverlay (p : t) : t :=
  {| overlayHidden := true; overlayHTML := overlayHTML p;
     panelDisplay := panelDisplay p; objectName := objectName p;
     objectDetails := objectDetails p; console := console p |}.

Definition set_overlayHTML (h : Overlay) (p : t) : t :=
  {| overlayHidden := overlayHidden p; overlayHTML := h;
     panelDisplay := panelDisplay p; objectName := objectName p;
     objectDetails := objectDetails p; console := console p |}.

Definition showPanel (nm details : string) (p : t) : t :=
  {| overlayHidden := overlayHidden p; overlayHTML := overlayHTML p;
     panelDisplay := "block"; objectName := nm;
     objectDetails := details; console := console p |}.

Definition log (line : string) (p : t) : t :=
  {| overlayHidden := overlayHidden p; overlayHTML := overlayHTML p;
     panelDisplay := panelDisplay p; objectName := objectName p;
     objectDetails := objectDetails p; console := console p ++ [line] |}.
End Page.

(** ** The scene *)

(** What [scene.children] refers to: the lights and the model are the
    objects the viewer's fields of the same name hold; any other child is
    an object of the store. *)
Inductive SceneChild : Type :=
| ChildAmbientLight
| ChildDirectionalLight
| ChildHemisphereLight
| ChildModel
| ChildObject (id : ObjId).

Module Scene.
(** The scene, with the store of the nodes and materials reachable from
    it. An identifier outside a store denotes no object. *)
Record t : Type := mk {
  children : list SceneChild;
  background : option Color;
  objs : gmap ObjId Object3D.t;
  mats : gmap MatId Material.t
}.

(** [scene.add(c)], for a [c] that is not yet a child: it comes last. *)
Definition add (c : SceneChild) (s : t) : t :=
  {| children := children s ++ [c]; background := background s;
     objs := objs s; mats := mats s |}.

Definition set_background (c : Color) (s : t) : t :=
  {| children := children s; background := Some c;
     objs := objs s; mats := mats s |}.

Definition set_objs (o : gmap ObjId Object3D.t) (s : t) : t :=
  {| children := children s; background := background s;
     objs := o; mats := mats s |}.

Definition set_mats (m : gmap MatId Material.t) (s : t) : t :=
  {| children := children s; background := background s;
     objs := objs s; mats := m |}.

(** [o.material], and [o.material.emissive], read through the store. *)
Definition material (s : t) (o : ObjId) : option MatId :=
  objs s !! o ≫= Object3D.material.

Definition emissive (s : t) (o : ObjId) : option Color :=
  material s o ≫= λ m, mats s !! m ≫= Material.emissive.
End Scene.

(** ** Pending asynchronous work *)

(** What the handler that awaits [loadBasemap] does once the promise is
    fulfilled. *)
Inductive Continuation : Type :=
| ThenSetVisible   (* the basemap checkbox: [setVisible(true)] *)
| ThenNothing.     (* the basemap selector *)

Module Pending.
Record Fetch : Type := fetch { type : string; andThen : Continuation }.

(** The texture fetches in flight, by request number, and whether the
    model is still loading. *)
Record t : Type := mk {
  textures : gmap nat Fetch;
  modelLoading : bool
}.

Definition issue (f : Fetch) (p : t) : t :=
  {| textures := <[fresh (dom (textures p)) := f]> (textures p);
     modelLoading := modelLoading p |}.

Definition settle (i : nat) (p : t) : t :=
  {| textures := delete i (textures p); modelLoading := modelLoading p |}.

Definition set_modelLoading (b : bool) (p : t) : t :=
  {| textures := textures p; modelLoading := b |}.
End Pending.

(** What a loader reports when a fetch settles. *)
Inductive FetchResult (A : Type) : Type :=
| Loaded (a : A)
| Failed (error : string).
Arguments Loaded {A} a.
Arguments Failed {A} error.

Module Gltf.
(** The result of [GLTFLoader.loadAsync]: the nodes and materials the
    file declares, the identifiers [parts] of the nodes below the root in
    traversal order, and the corners [bounds] of the box around all their
    geometry, [None] when none of them has geometry. *)
Record t : Type := mk {
  bounds : option (Vector3 * Vector3);
  parts : list ObjId;
  nodes : gmap ObjId Object3D.t;
  materials : gmap MatId Material.t
}.

(** [gltf.scene]: the root node, a group the loader builds at the
    origin. *)
Definition scene (g : t) : Model.t :=
  match bounds g with
  | Some (min, max) => Model.Solid 0 min max (parts g)
  | None => Model.Hollow (Finite 0) (parts g)
  end.
End Gltf.

(** ** The viewer state *)

Module BasemapManager.
(** The manager's own fields; its [scene] is the viewer's scene, and its
    texture loader keeps no state. *)
Record t : Type := mk {
  mapMesh : option ObjId;
  currentType : option string
}.

Definition set_mapMesh (id : ObjId) (b : t) : t :=
  {| mapMesh := Some id; currentType := currentType b |}.
End BasemapManager.

(** The fields of [SimpleModelViewer], then the page it writes to and the
    asynchronous work it has started. *)
Record Viewer : Type := mkViewer {
  isNight : bool;
  showOSM : bool;
  basemapType : string;
  model : option Model.t;
  initialized : bool;
  scene : Scene.t;
  basemapManager : BasemapManager.t;
  camera : Camera.t;
  rendererSize : R * R;
  controls : OrbitControls.t;
  ambientLight : AmbientLight.t;
  directionalLight : DirectionalLight.t;
  hemisphereLight : HemisphereLight.t;
  raycaster : Raycaster.t;
  mouse : Vector2;
  selectedObject : option ObjId;
  page : Page.t;
  pending : Pending.t
}.

Definition set_isNight (b : bool) (s : Viewer) : Viewer :=
  mkViewer b (showOSM s) (basemapType s) (model s) (initialized s) (scene s)
    (basemapManager s) (camera s) (rendererSize s) (controls s)
    (ambientLight s) (directionalLight s) (hemisphereLight s) (raycaster s)
    (mouse s) (selectedObject s) (page s) (pending s).

Definition set_showOSM (b : bool) (s : Viewer) : Viewer :=
  mkViewer (isNight s) b (basemapType s) (model s) (initialized s) (scene s)
    (basemapManager s) (camera s) (rendererSize s) (controls s)
    (ambientLight s) (directionalLight s) (hemisphereLight s) (raycaster s)
    (mouse s) (selectedObject s) (page s) (pending s).

Definition set_basemapType (t : string) (s : Viewer) : Viewer :=
  mkViewer (isNight s) (showOSM s) t (model s) (initialized s) (scene s)
    (basemapManager s) (camera s) (rendererSize s) (controls s)
    (ambientLight s) (directionalLight s) (hemisphereLight s) (raycaster s)
    (mouse s) (selectedObject s) (page s) (pending s).

Definition set_model (m : Model.t) (s : Viewer) : Viewer :=
  mkViewer (isNight s) (showOSM s) (basemapType s) (Some m) (initialized s)
    (scene s) (basemapManager s) (camera s) (rendererSize s) (controls s)
    (ambientLight s) (directionalLight s) (hemisphereLight s) (raycaster s)
    (mouse s) (selectedObject s) (page s) (pending s).

Definition set_initialized (b : bool) (s : Viewer) : Viewer :=
  mkViewer (isNight s) (showOSM s) (basemapType s) (model s) b (scene s)
    (basemapManager s) (camera s) (rendererSize s) (controls s)
    (ambientLight s) (directionalLight s) (hemisphereLight s) (raycaster s)
    (mouse s) (selectedObject s) (page s) (pending s).

Definition set_scene (sc : Scene.t) (s : Viewer) : Viewer :=
  mkViewer (isNight s) (showOSM s) (basemapType s) (model s) (initialized s)
    sc (basemapManager s) (camera s) (rendererSize s) (controls s)
    (ambientLight s) (directionalLight s) (hemisphereLight s) (raycaster s)
    (mouse s) (selectedObject s) (page s) (pending s).

Definition set_basemapManager (b : BasemapManager.t) (s : Viewer) : Viewer :=
  mkViewer (isNight s) (showOSM s) (basemapType s) (model s) (initialized s)
    (scene s) b (camera s) (rendererSize s) (controls s)
    (ambientLight s) (directionalLight s) (hemisphereLight s) (raycaster s)
    (mouse s) (selectedObject s) (page s) (pending s).

Definition set_camera (c : Camera.t) (s : Viewer) : Viewer :=
  mkViewer (isNight s) (showOSM s) (basemapType s) (model s) (initialized s)
    (scene s) (basemapManager s) c (rendererSize s) (controls s)
    (ambientLight s) (directionalLight s) (hemisphereLight s) (raycaster s)
    (mouse s) (selectedObject s) (page s) (pending s).

Definition set_rendererSize (sz : R * R) (s : Viewer) : Viewer :=
  mkViewer (isNight s) (showOSM s) (basemapType s) (model s) (initialized s)
    (scene s) (basemapManager s) (camera s) sz (controls s)
    (ambientLight s) (directionalLight s) (hemisphereLight s) (raycaster s)
    (mouse s) (selectedObject s) (page s) (pending s).

Definition set_controls (c : OrbitControls.t) (s : Viewer) : Viewer :=
  mkViewer (isNight s) (showOSM s) (basemapType s) (model s) (initialized s)
    (scene s) (basemapManager s) (camera s) (rendererSize s) c
    (ambientLight s) (directionalLight s) (hemisphereLight s) (raycaster s)
    (mouse s) (selectedObject s) (page s) (pending s).

Definition set_ambientLight (l : AmbientLight.t) (s : Viewer) : Viewer :=
  mkViewer (isNight s) (showOSM s) (basemapType s) (model s) (initialized s)
    (scene s) (basemapManager s) (camera s) (rendererSize s) (controls s)
    l (directionalLight s) (hemisphereLight s) (raycaster s)
    (mouse s) (selectedObject s) (page s) (pending s).

Definition set_directionalLight (l : DirectionalLight.t) (s : Viewer)
  : Viewer :=
  mkViewer (isNight s) (showOSM s) (basemapType s) (model s) (initialized s)
    (scene s) (basemapManager s) (camera s) (rendererSize s) (controls s)
    (ambientLight s) l (hemisphereLight s) (raycaster s)
    (mouse s) (selectedObject s) (page s) (pending s).

Definition set_hemisphereLight (l : HemisphereLight.t) (s : Viewer)
  : Viewer :=
  mkViewer (isNight s) (showOSM s) (basemapType s) (model s) (initialized s)
    (scene s) (basemapManager s) (camera s) (rendererSize s) (controls s)
    (ambientLight s) (directionalLight s) l (raycaster s)
    (mouse s) (selectedObject s) (page s) (pending s).

Definition set_raycaster (r : Raycaster.t) (s : Viewer) : Viewer :=
  mkViewer (isNight s) (showOSM s) (basemapType s) (model s) (initialized s)
    (scene s) (basemapManager s) (camera s) (rendererSize s) (controls s)
    (ambientLight s) (directionalLight s) (hemisphereLight s) r
    (mouse s) (selectedObject s) (page s) (pending s).

Definition set_mouse (m : Vector2) (s : Viewer) : Viewer :=
  mkViewer (isNight s) (showOSM s) (basemapType s) (model s) (initialized s)
    (scene s) (basemapManager s) (camera s) (rendererSize s) (controls s)
    (ambientLight s) (directionalLight s) (hemisphereLight s) (raycaster s)
    m (selectedObject s) (page s) (pending s).

Definition set_selectedObject (o : ObjId) (s : Viewer) : Viewer :=
  mkViewer (isNight s) (showOSM s) (basemapType s) (model s) (initialized s)
    (scene s) (basemapManager s) (camera s) (rendererSize s) (controls s)
    (ambientLight s) (directionalLight s) (hemisphereLight s) (raycaster s)
    (mouse s) (Some o) (page s) (pending s).

Definition set_page (p : Page.t) (s : Viewer) : Viewer :=
  mkViewer (isNight s) (showOSM s) (basemapType s) (model s) (initialized s)
    (scene s) (basemapManager s) (camera s) (rendererSize s) (controls s)
    (ambientLight s) (directionalLight s) (hemisphereLight s) (raycaster s)
    (mouse s) (selectedObject s) p (pending s).

Definition set_pending (p : Pending.t) (s : Viewer) : Viewer :=
  mkViewer (isNight s) (showOSM s) (basemapType s) (model s) (initialized s)
    (scene s) (basemapManager s) (camera s) (rendererSize s) (controls s)
    (ambientLight s) (directionalLight s) (hemisphereLight s) (raycaster s)
    (mouse s) (selectedObject s) (page s) p.

(** ** The monad of methods *)

Inductive Exception : Type :=
| TypeError                     (* a property read or a call on [undefined] *)
| LoadError (reason : string).  (* what a loader rejects with *)

(** How a statement completes: normally with a value, or abruptly. *)
Inductive Completion (A : Type) : Type :=
| Normal (a : A)
| Throw (e : Exception).
Arguments Normal {A} a.
Arguments Throw {A} e.

Definition JS (A : Type) : Type := Viewer -> Viewer * Completion A.

#[export] Instance JS_ret : MRet JS := λ A a s, (s, Normal a).

#[export] Instance JS_bind : MBind JS := λ A B f m s,
  match m s with
  | (s', Normal a) => f a s'
  | (s', Throw e) => (s', Throw e)
  end.

Definition gets {A : Type} (f : Viewer -> A) : JS A := λ s, (s, Normal (f s)).

Definition modify (f : Viewer -> Viewer) : JS unit := λ s, (f s, Normal tt).

Definition throw {A : Type} (e : Exception) : JS A := λ s, (s, Throw e).

(** [try { body } catch (error) { handler }] *)
Definition try_catch (body : JS unit) (handler : Exception -> JS unit)
  : JS unit := λ s,
  match body s with
  | (s', Normal a) => (s', Normal a)
  | (s', Throw e) => handler e s'
  end.

(** The state a method leaves, however it completes. *)
Definition exec {A : Type} (m : JS A) (s : Viewer) : Viewer := fst (m s).

Definition skip : JS unit := mret tt.

(** ** Reads and writes through the stores *)

Definition newMaterial (m : Material.t) : JS MatId := λ s,
  let id := fresh (dom (Scene.mats (scene s))) in
  (set_scene (Scene.set_mats (<[id := m]> (Scene.mats (scene s))) (scene s)) s,
   Normal id).

Definition newObject (o : Object3D.t) : JS ObjId := λ s,
  let id := fresh (dom (Scene.objs (scene s))) in
  (set_scene (Scene.set_objs (<[id := o]> (Scene.objs (scene s))) (scene s)) s,
   Normal id).

(** [o.p = v], for a property [p] of the node itself. *)
Definition writeObject (o : ObjId) (f : Object3D.t -> Object3D.t) : JS unit :=
  modify (λ s,
    set_scene (Scene.set_objs (alter f o (Scene.objs (scene s))) (scene s)) s).

(** [o.material.p = v]: fails when [o.material] is [undefined]. *)
Definition writeMaterial (o : ObjId) (f : Material.t -> Material.t)
  : JS unit := λ s,
  match Scene.material (scene s) o with
  | None => (s, Throw TypeError)
  | Some m =>
      (set_scene (Scene.set_mats (alter f m (Scene.mats (scene s))) (scene s)) s,
       Normal tt)
  end.

(** [o.material.emissive.set(c)]: fails when [o.material] or its
    [emissive] is [undefined]. *)
Definition setEmissive (o : ObjId) (c : Color) : JS unit := λ s,
  match Scene.emissive (scene s) o with
  | None => (s, Throw TypeError)
  | Some _ => writeMaterial o (Material.set_emissive c) s
  end.

(** [this.hemisphereLight.p.set(c)]: fails when the light has no
    property [p]. *)
Definition setHemisphereColor (p : string) (c : Color) : JS unit := λ s,
  match HemisphereLight.colorProperty p (hemisphereLight s) with
  | None => (s, Throw TypeError)
  | Some _ =>
      (set_hemisphereLight
         (HemisphereLight.setColorProperty p c (hemisphereLight s)) s,
       Normal tt)
  end.

Definition sceneAdd (c : SceneChild) : JS unit :=
  modify (λ s, set_scene (Scene.add c (scene s)) s).

(** ** class BasemapManager *)

Section BasemapManager.
Local Open Scope R_scope.

(** The [switch] of [loadBasemap]. *)
Definition basemapUrl (type : string) : string :=
  if decide (type = "satellite") then
    "https://server.arcgisonline.com/ArcGIS/rest/services/World_Imagery/MapServer/tile/0/0/0"
  else if decide (type = "dark") then
    "https://a.basemaps.cartocdn.com/dark_all/0/0/0.png"
  else "https://a.tile.openstreetmap.org/0/0/0.png".

Definition createOrUpdateMap (texture : Texture.t) : JS unit :=
  let size := 10000 in
  mapMesh ← gets (λ s, BasemapManager.mapMesh (basemapManager s));
  match mapMesh with
  | Some mesh =>
      writeMaterial mesh (Material.set_map texture);;
      writeMaterial mesh (Material.set_needsUpdate true)
  | None =>
      let geometry := PlaneGeometry size size in
      material ← newMaterial
        {| Material.emissive := None; Material.map := Some texture;
           Material.side := DoubleSide; Material.needsUpdate := false |};
      mesh ← newObject (Object3D.Mesh geometry material);
      modify (λ s,
        set_basemapManager (BasemapManager.set_mapMesh mesh (basemapManager s)) s);;
      writeObject mesh (Object3D.set_rotation_x (- PI / 2));;
      writeObject mesh (Object3D.set_position_y (- 0.01));;
      sceneAdd (ChildObject mesh)
  end.

(** The promise [loadBasemap(type)] returns, as a function of what the
    texture loader reports for the fetch the call starts: a normal
    completion is the promise fulfilled, an abrupt one the promise
    rejected. Between the call and the report the method touches
    nothing. *)
Definition loadBasemap (type : string) (report : FetchResult unit)
  : JS unit :=
  let url := basemapUrl type in
  match report with
  | Loaded _ =>
      let texture := Texture.loaded url in
      let texture :=
        {| Texture.source := Texture.source texture;
           Texture.wrapS := RepeatWrapping; Texture.wrapT := RepeatWrapping;
           Texture.repeat := (20, 20) |} in
      createOrUpdateMap texture
  | Failed error => throw (LoadError error)
  end.

Definition setVisible (visible : bool) : JS unit :=
  mapMesh ← gets (λ s, BasemapManager.mapMesh (basemapManager s));
  match mapMesh with
  | Some mesh => writeObject mesh (Object3D.set_visible visible)
  | None => skip
  end.

End BasemapManager.

(** ** class SimpleModelViewer *)

Module MouseEvent.
Record t : Type := mk { clientX : R; clientY : R }.
End MouseEvent.

Module DOMRect.
Record t : Type := mk { left : R; top : R; width : R; height : R }.
End DOMRect.

Definition dayColor : Color := 0x87CEEB.
Definition nightColor : Color := 0x0a1929.

Section SimpleModelViewer.
Local Open Scope R_scope.
Context {orbit : OrbitControls.Update}.

(** [this.controls.update()] *)
Definition controlsUpdate : JS unit :=
  modify (λ s,
    let updated := OrbitControls.update (controls s) (camera s) in
    set_camera updated.2 (set_controls updated.1 s)).

Definition setupLighting : JS unit :=
  modify (set_ambientLight
    {| AmbientLight.color := 0xffffff; AmbientLight.intensity := 0.3 |});;
  sceneAdd ChildAmbientLight;;
  modify (set_directionalLight
    {| DirectionalLight.color := 0xffffff;
       DirectionalLight.intensity := 1.5;
       DirectionalLight.position := Vec3 0 1 0;
       DirectionalLight.castShadow := false |});;
  modify (λ s, set_directionalLight
    (DirectionalLight.set_position (Vec3 100 150 50) (directionalLight s)) s);;
  modify (λ s, set_directionalLight
    (DirectionalLight.set_castShadow true (directionalLight s)) s);;
  sceneAdd ChildDirectionalLight;;
  modify (set_hemisphereLight
    {| HemisphereLight.color := 0x87CEEB;
       HemisphereLight.groundColor := 0x6b5d47;
       HemisphereLight.intensity := 0.5 |});;
  sceneAdd ChildHemisphereLight.

Definition updateLighting : JS unit :=
  night ← gets isNight;
  if night : bool then
    modify (λ s, set_ambientLight
      (AmbientLight.set_intensity 0.1 (ambientLight s)) s);;
    modify (λ s, set_directionalLight
      (DirectionalLight.set_intensity 0.3 (directionalLight s)) s);;
    modify (λ s, set_directionalLight
      (DirectionalLight.set_position (Vec3 (-100) 80 (-50))
         (directionalLight s)) s);;
    modify (λ s, set_directionalLight
      (DirectionalLight.set_color 0x6495ED (directionalLight s)) s);;
    setHemisphereColor "skyColor" 0x0a1929;;
    setHemisphereColor "groundColor" 0x1a1a2e;;
    modify (λ s, set_hemisphereLight
      (HemisphereLight.set_intensity 0.2 (hemisphereLight s)) s)
  else
    modify (λ s, set_ambientLight
      (AmbientLight.set_intensity 0.3 (ambientLight s)) s);;
    modify (λ s, set_directionalLight
      (DirectionalLight.set_intensity 1.5 (directionalLight s)) s);;
    modify (λ s, set_directionalLight
      (DirectionalLight.set_position (Vec3 100 150 50)
         (directionalLight s)) s);;
    modify (λ s, set_directionalLight
      (DirectionalLight.set_color 0xffffff (directionalLight s)) s);;
    setHemisphereColor "skyColor" 0x87CEEB;;
    setHemisphereColor "groundColor" 0x6b5d47;;
    modify (λ s, set_hemisphereLight
      (HemisphereLight.set_intensity 0.5 (hemisphereLight s)) s).

Definition updateBackground : JS unit :=
  modify (λ s,
    set_scene
      (Scene.set_background (if isNight s then nightColor else dayColor)
         (scene s)) s).

(** Lines 163 to 166 of [initializeModel]: the box of the model, and the
    assignment of its negated minimum height to [model.position.y]. *)
Definition groundModel (m : Model.t) : Model.t :=
  match m with
  | Model.Solid y min max parts =>
      (* [box.min.y] is the finite [y + vy min] *)
      let yOffset := - (y + vy min) in
      Model.Solid yOffset min max parts
  | Model.Hollow _ parts =>
      (* the box is empty: [box.min.y] is [+Infinity] *)
      let yOffset := NegInfinity in
      Model.Hollow yOffset parts
  end.

(** Lines 172 to 174: the distance computed from the size of the box and
    the camera's field of view in degrees. *)
Definition fitDistance (cameraFov : R) (size : Vector3) : R :=
  let maxDim := Rmax (Rmax (vx size) (vy size)) (vz size) in
  let fov := cameraFov * (PI / 180) in
  Rabs (maxDim / sin (fov / 2)) * 1.2.

(** Line 176: the position given to the camera. *)
Definition fitPosition (center : Vector3) (distance : R) : Vector3 :=
  Vec3 (vx center + distance * 0.5)
       (vy center + distance * 0.8)
       (vz center + distance * 0.5).

Definition enableShadows (child : Object3D.t) : Object3D.t :=
  if Object3D.isMesh child then Object3D.set_shadows true child else child.

(** [this.model.traverse(callback)], over the descendants of the root. *)
Definition traverse (callback : Object3D.t -> Object3D.t) (m : Model.t)
  : JS unit :=
  modify (λ s,
    set_scene
      (Scene.set_objs
         (foldr (alter callback) (Scene.objs (scene s)) (Model.parts m))
         (scene s)) s).

Definition initializeModel : JS unit :=
  loaded ← gets model;
  done ← gets initialized;
  match loaded with
  | None => skip
  | Some m =>
    if done : bool then skip
    else
      let grounded := groundModel m in
      modify (set_model grounded);;
      let newBox := Model.setFromObject grounded in
      let center := Box3.getCenter newBox in
      let size := Box3.getSize newBox in
      fov ← gets (λ s, Camera.fov (camera s));
      let distance := fitDistance fov size in
      modify (λ s, set_camera
        (Camera.set_position (fitPosition center distance) (camera s)) s);;
      modify (λ s, set_camera (Camera.set_lookAt center (camera s)) s);;
      modify (λ s, set_controls
        (OrbitControls.set_target center (controls s)) s);;
      controlsUpdate;;
      traverse enableShadows grounded;;
      modify (set_initialized true)
  end.

Definition hideLoadingScreen : JS unit :=
  modify (λ s, set_page (Page.hideOverlay (page s)) s).

Definition showError (message : string) : JS unit :=
  modify (λ s,
    set_page (Page.set_overlayHTML (Page.ErrorBlock message) (page s)) s).

(** [await] of a loader's promise. *)
Definition await {A : Type} (report : FetchResult A) : JS A :=
  match report with
  | Loaded a => mret a
  | Failed error => throw (LoadError error)
  end.

(** Lines 150 and 151: [this.model = gltf.scene] and its addition to the
    scene. The nodes and materials of the file come to exist with it; an
    identifier already in use keeps the object it names. *)
Definition receive (gltf : Gltf.t) : JS unit :=
  modify (λ s, set_scene
    (Scene.set_objs (Scene.objs (scene s) ∪ Gltf.nodes gltf)
       (Scene.set_mats (Scene.mats (scene s) ∪ Gltf.materials gltf)
          (scene s))) s);;
  modify (set_model (Gltf.scene gltf));;
  sceneAdd ChildModel.

(** [loadModel], as a function of what the glTF loader reports. *)
Definition loadModel (report : FetchResult Gltf.t) : JS unit :=
  try_catch
    (gltf ← await report;
     receive gltf;;
     initializeModel;;
     hideLoadingScreen)
    (λ error,
     modify (λ s, set_page (Page.log "Error loading model:" (page s)) s);;
     showError "Failed to load 3D model").

Definition detailsLine (entry : string * string) : string :=
  "<div><b>" +:+ entry.1 +:+ "</b>: " +:+ entry.2 +:+ "</div>".

Definition showObjectInfo (object : ObjId) : JS unit :=
  node ← gets (λ s, Scene.objs (scene s) !! object);
  let name := from_option Object3D.name "" node in
  let data := from_option Object3D.userData [] node in
  modify (λ s, set_page
    (Page.showPanel
       (if decide (name = "") then "Unnamed Object" else name)
       (if decide (length data = 0%nat) then "<i>No attributes</i>"
        else String.concat "" (detailsLine <$> data))
       (page s)) s).

(** The condition [o && o.material && o.material.emissive]. *)
Definition hasEmissive (s : Viewer) (o : option ObjId) : bool :=
  bool_decide (is_Some (o ≫= Scene.emissive (scene s))).

Definition highlightObject (object : ObjId) : JS unit :=
  previous ← gets selectedObject;
  guard1 ← gets (λ s, hasEmissive s previous);
  match previous with
  | Some selected =>
      if guard1 : bool then setEmissive selected 0x000000 else skip
  | None => skip
  end;;
  guard2 ← gets (λ s, hasEmissive s (Some object));
  (if guard2 : bool then setEmissive object 0xffd700 else skip);;
  modify (set_selectedObject object).

(** [onClick], with the array that [intersectObjects] returns for the
    ray of this click. *)
Definition onClick (event : MouseEvent.t) (rect : DOMRect.t)
    (intersects : list Raycaster.Intersection) : JS unit :=
  modify (λ s, set_mouse
    (Vec2 (((MouseEvent.clientX event - DOMRect.left rect)
              / DOMRect.width rect) * 2 - 1)
          (v2y (mouse s))) s);;
  modify (λ s, set_mouse
    (Vec2 (v2x (mouse s))
          ((- ((MouseEvent.clientY event - DOMRect.top rect)
                 / DOMRect.height rect)) * 2 + 1)) s);;
  modify (λ s, set_raycaster
    (Raycaster.setFromCamera (mouse s) (camera s)) s);;
  match intersects with
  | first :: _ =>
      let object := Raycaster.object first in
      showObjectInfo object;;
      highlightObject object
  | [] => skip
  end.

Definition onWindowResize (innerWidth innerHeight : R) : JS unit :=
  modify (λ s, set_camera
    (Camera.set_aspect (innerWidth / innerHeight) (camera s)) s);;
  modify (set_rendererSize (innerWidth, innerHeight)).

(** A frame: the controller moves the camera, the scene is drawn. *)
Definition animate : JS unit := controlsUpdate.

Definition initInteraction : JS unit :=
  modify (set_raycaster
    {| Raycaster.origin := Vec3 0 0 0; Raycaster.coords := Vec2 0 0 |});;
  modify (set_mouse (Vec2 0 0)).

(** [init]. The controller is written with the settings of lines 92 to
    96 at once. Its constructor has by then called [update()] under the
    library's defaults, which have no damping and no limits: that call
    turns the camera to the origin and leaves it where line 81 put it,
    as the frame that ends [init] does again. *)
Definition init (innerWidth innerHeight : R) : JS unit :=
  modify (set_scene
    {| Scene.children := []; Scene.background := None;
       Scene.objs := ∅; Scene.mats := ∅ |});;
  modify (set_basemapManager
    {| BasemapManager.mapMesh := None; BasemapManager.currentType := None |});;
  modify (set_camera
    {| Camera.fov := 75; Camera.aspect := innerWidth / innerHeight;
       Camera.near := 0.1; Camera.far := 1000;
       Camera.position := Vec3 0 0 0; Camera.lookAt := None |});;
  modify (λ s, set_camera
    (Camera.set_position (Vec3 0 100 200) (camera s)) s);;
  modify (set_rendererSize (innerWidth, innerHeight));;
  modify (set_controls
    {| OrbitControls.target := Vec3 0 0 0;
       OrbitControls.enableDamping := true;
       OrbitControls.dampingFactor := 0.05;
       OrbitControls.maxPolarAngle := PI / 2;
       OrbitControls.minDistance := 50;
       OrbitControls.maxDistance := 1000;
       OrbitControls.sphericalDelta := (0, 0);
       OrbitControls.panOffset := Vec3 0 0 0;
       OrbitControls.scale := 1 |});;
  setupLighting;;
  updateBackground;;
  modify (λ s, set_pending (Pending.set_modelLoading true (pending s)) s);;
  initInteraction;;
  animate.

(** The viewer when [init] is entered: the five fields of lines 66 to 70
    as the constructor has just assigned them, the page as it was loaded,
    and every other field not yet assigned; the lights, camera and
    controls written here stand for [undefined] and are never read. *)
Definition unassigned (p : Page.t) : Viewer :=
  {| isNight := false; showOSM := false; basemapType := "osm";
     model := None; initialized := false;
     scene := {| Scene.children := []; Scene.background := None;
                 Scene.objs := ∅; Scene.mats := ∅ |};
     basemapManager :=
       {| BasemapManager.mapMesh := None;
          BasemapManager.currentType := None |};
     camera := {| Camera.fov := 0; Camera.aspect := 0; Camera.near := 0;
                  Camera.far := 0; Camera.position := Vec3 0 0 0;
                  Camera.lookAt := None |};
     rendererSize := (0, 0);
     controls := {| OrbitControls.target := Vec3 0 0 0;
                    OrbitControls.enableDamping := false;
                    OrbitControls.dampingFactor := 0;
                    OrbitControls.maxPolarAngle := 0;
                    OrbitControls.minDistance := 0;
                    OrbitControls.maxDistance := 0;
                    OrbitControls.sphericalDelta := (0, 0);
                    OrbitControls.panOffset := Vec3 0 0 0;
                    OrbitControls.scale := 0 |};
     ambientLight := {| AmbientLight.color := 0; AmbientLight.intensity := 0 |};
     directionalLight :=
       {| DirectionalLight.color := 0; DirectionalLight.intensity := 0;
          DirectionalLight.position := Vec3 0 0 0;
          DirectionalLight.castShadow := false |};
     hemisphereLight :=
       {| HemisphereLight.color := 0; HemisphereLight.groundColor := 0;
          HemisphereLight.intensity := 0 |};
     raycaster := {| Raycaster.origin := Vec3 0 0 0;
                     Raycaster.coords := Vec2 0 0 |};
     mouse := Vec2 0 0;
     selectedObject := None;
     page := p;
     pending := {| Pending.textures := ∅; Pending.modelLoading := false |} |}.

(** [new SimpleModelViewer()] in a window of the given size, on page [p].
    The listeners that [setupEventListeners] installs are the cases of
    [handle] below. *)
Definition construct (innerWidth innerHeight : R) (p : Page.t) : Viewer :=
  exec (init innerWidth innerHeight) (unassigned p).

(** ** Events *)

(** The handler of the night-mode checkbox. *)
Definition nightModeChanged (checked : bool) : JS unit :=
  modify (set_isNight checked);;
  updateBackground;;
  updateLighting.

(** The handler of the basemap checkbox, up to its [await]. *)
Definition basemapToggled (checked : bool) : JS unit :=
  modify (set_showOSM checked);;
  show ← gets showOSM;
  if show : bool then
    type ← gets basemapType;
    modify (λ s, set_pending
      (Pending.issue (Pending.fetch type ThenSetVisible) (pending s)) s)
  else setVisible false.

(** The handler of the basemap selector, up to its [await]. *)
Definition basemapTypeChanged (value : string) : JS unit :=
  modify (set_basemapType value);;
  show ← gets showOSM;
  if show : bool then
    type ← gets basemapType;
    modify (λ s, set_pending
      (Pending.issue (Pending.fetch type ThenNothing) (pending s)) s)
  else skip.

(** What follows the [await] in the handler that issued a fetch. *)
Definition resume (k : Continuation) : JS unit :=
  match k with
  | ThenSetVisible => setVisible true
  | ThenNothing => skip
  end.

(** The texture loader reports on request [i]: the awaited
    [loadBasemap] settles, and if it is fulfilled the handler goes on. *)
Definition textureSettled (i : nat) (report : FetchResult unit) : JS unit :=
  request ← gets (λ s, Pending.textures (pending s) !! i);
  match request with
  | Some f =>
      modify (λ s, set_pending (Pending.settle i (pending s)) s);;
      loadBasemap (Pending.type f) report;;
      resume (Pending.andThen f)
  | None => skip
  end.

Definition modelSettled (report : FetchResult Gltf.t) : JS unit :=
  loading ← gets (λ s, Pending.modelLoading (pending s));
  if loading : bool then
    modify (λ s, set_pending (Pending.set_modelLoading false (pending s)) s);;
    loadModel report
  else skip.

(** What the viewer's own code is called back with. The listeners that
    the controller installs on the canvas belong to the library: what
    they ask for is the pending motion held in [OrbitControls.t]. *)
Inductive Event : Type :=
| NightModeChange (checked : bool)
| BasemapToggleChange (checked : bool)
| BasemapTypeChange (value : string)
| TextureSettled (request : nat) (report : FetchResult unit)
| ModelSettled (report : FetchResult Gltf.t)
| Click (event : MouseEvent.t) (rect : DOMRect.t)
        (intersects : list Raycaster.Intersection)
| WindowResize (innerWidth innerHeight : R)
| AnimationFrame.

Definition handle (e : Event) : JS unit :=
  match e with
  | NightModeChange checked => nightModeChanged checked
  | BasemapToggleChange checked => basemapToggled checked
  | BasemapTypeChange value => basemapTypeChanged value
  | TextureSettled i report => textureSettled i report
  | ModelSettled report => modelSettled report
  | Click event rect intersects => onClick event rect intersects
  | WindowResize w h => onWindowResize w h
  | AnimationFrame => animate
  end.

(** One turn of the event loop: the handler runs to completion, and an
    exception it does not catch ends it, leaving what it wrote. *)
Definition step (s : Viewer) (e : Event) : Viewer := exec (handle e) s.

(** The state after a sequence of events, from the constructed viewer:
    the states an observer (a rendered frame, the next handler) sees. *)
Definition run (s : Viewer) (es : list Event) : Viewer := foldl step s es.

End SimpleModelViewer.

(** ** The two lighting presets *)

Module Lighting.
(** The parameters [updateLighting] writes: the intensity of the ambient
    light; the intensity, position and colour of the directional light;
    the sky colour, ground colour and intensity of the hemisphere
    light. *)
Record t : Type := mk {
  ambient : R;
  directional : R * Vector3 * Color;
  hemisphere : Color * Color * R
}.

(** The values of the night branch and of the day branch. *)
Definition preset (night : bool) : t :=
  if night then
    {| ambient := 0.1;
       directional := (0.3%R, Vec3 (-100) 80 (-50), 0x6495ED);
       hemisphere := (0x0a1929, 0x1a1a2e, 0.2%R) |}
  else
    {| ambient := 0.3;
       directional := (1.5%R, Vec3 100 150 50, 0xffffff);
       hemisphere := (0x87CEEB, 0x6b5d47, 0.5%R) |}.

(** The values the three lights of a viewer carry. *)
Definition current (s : Viewer) : t :=
  {| ambient := AmbientLight.intensity (ambientLight s);
     directional :=
       (DirectionalLight.intensity (directionalLight s),
        DirectionalLight.position (directionalLight s),
        DirectionalLight.color (directionalLight s));
     hemisphere :=
       (HemisphereLight.color (hemisphereLight s),
        HemisphereLight.groundColor (hemisphereLight s),
        HemisphereLight.intensity (hemisphereLight s)) |}.
End Lighting.

(** ** Observations on a run *)

(** The children of the scene that are objects of the store. *)
Definition sceneObjects (s : Viewer) : list ObjId :=
  omap (λ c, match c with ChildObject id => Some id | _ => None end)
       (Scene.children (scene s)).

(** [this.mapMesh.material.map], read through the store. *)
Definition basemapTexture (s : Viewer) : option Texture.t :=
  mesh ← BasemapManager.mapMesh (basemapManager s);
  mat ← Scene.material (scene s) mesh;
  m ← Scene.mats (scene s) !! mat;
  Material.map m.

(** The URL whose load event [e] resolves in state [s], or [last] when
    [e] resolves none. *)
Definition resolvedBy (s : Viewer) (e : Event) (last : option string)
  : option string :=
  match e with
  | TextureSettled i (Loaded _) =>
      match Pending.textures (pending s) !! i with
      | Some f => Some (basemapUrl (Pending.type f))
      | None => last
      end
  | _ => last
  end.

(** The URL of the basemap request that resolved last along the events
    [es] run from [s]; [last] is the one before them. *)
Fixpoint lastResolved {orbit : OrbitControls.Update}
    (s : Viewer) (es : list Event) (last : option string) : option string :=
  match es with
  | [] => last
  | e :: es' => lastResolved (step s e) es' (resolvedBy s e last)
  end.

(** A method preserves a relation between the state it starts in and the
    state it leaves, however it completes. *)
Definition preserves {A : Type} (R : relation Viewer) (m : JS A) : Prop :=
  ∀ s, R s (exec m s).

(** What every method but the texture callback leaves alone: the manager's
    fields, the store objects among the scene's children, the material
    every node refers to, and the texture every material carries. *)
Definition sameBasemap (s s' : Viewer) : Prop :=
  basemapManager s' = basemapManager s
  ∧ sceneObjects s' = sceneObjects s
  ∧ (∀ id node, Scene.objs (scene s) !! id = Some node ->
       ∃ node', Scene.objs (scene s') !! id = Some node'
         ∧ Object3D.material node' = Object3D.material node)
  ∧ (∀ mat m, Scene.mats (scene s) !! mat = Some m ->
       ∃ m', Scene.mats (scene s') !! mat = Some m'
         ∧ Material.map m' = Material.map m).

(** The state of the ground plane, given the URL [last] of the request
    that resolved last: no mesh and no resolved request, or one mesh, in
    the scene once, textured from [last]. *)
Definition groundPlane (s : Viewer) (last : option string) : Prop :=
  match BasemapManager.mapMesh (basemapManager s) with
  | None => sceneObjects s = [] ∧ last = None
  | Some mesh =>
      sceneObjects s = [mesh]
      ∧ ∃ texture, basemapTexture s = Some texture
          ∧ last = Some (Texture.source texture)
  end.

(** The hemisphere light is not written. *)
Definition sameHemisphere (s s' : Viewer) : Prop :=
  hemisphereLight s' = hemisphereLight s.

(** ** Further observations *)

(** Between two stores of materials: every material is still there, with
    the texture, side and update flag it had; one without emissive colour
    is untouched, one with an emissive colour still has one. *)
Definition emissiveOnly (mats mats' : gmap nat Material.t) : Prop :=
  ∀ mat m, mats !! mat = Some m ->
    ∃ m', mats' !! mat = Some m'
      ∧ Material.map m' = Material.map m
      ∧ Material.side m' = Material.side m
      ∧ Material.needsUpdate m' = Material.needsUpdate m
      ∧ (Material.emissive m = None -> m' = m)
      ∧ (is_Some (Material.emissive m) -> is_Some (Material.emissive m')).

(** Two states agree on an observation. *)
Definition agree {A : Type} (observe : Viewer -> A) : relation Viewer :=
  λ s s', observe s' = observe s.

(** What the handler of the night-mode checkbox writes, the hemisphere
    light apart. *)
Definition lightingState (s : Viewer)
  : bool * option Color * AmbientLight.t * DirectionalLight.t :=
  (isNight s, Scene.background (scene s), ambientLight s, directionalLight s).

(** The children of the scene that are not objects of the store: the
    lights and the model. *)
Definition isFixture (c : SceneChild) : bool :=
  match c with ChildObject _ => false | _ => true end.

Definition sceneFixtures (s : Viewer) : list SceneChild :=
  List.filter isFixture (Scene.children (scene s)).

(** What the arrival of the model writes, the camera and the stores
    apart. *)
Definition loaderState (s : Viewer)
  : list SceneChild * option Model.t * bool * bool * bool :=
  (sceneFixtures s, model s, initialized s,
   Pending.modelLoading (pending s), Page.overlayHidden (page s)).

(** The model and the scene agree: the children of the scene that are
    not store objects are the three lights in the order [setupLighting]
    adds them, followed by the model exactly when one has loaded; the
    fitting flag is set exactly when there is a model; and a model that
    has loaded is awaited no longer and has had the overlay hidden. *)
Definition modelOnce (s : Viewer) : Prop :=
  sceneFixtures s
  = [ChildAmbientLight; ChildDirectionalLight; ChildHemisphereLight]
    ++ match model s with Some _ => [ChildModel] | None => [] end
  ∧ (initialized s = true ↔ is_Some (model s))
  ∧ (is_Some (model s) ->
     Pending.modelLoading (pending s) = false
     ∧ Page.overlayHidden (page s) = true).

(** What a click that hits something writes of the selection and the
    info panel. *)
Definition selectionState (s : Viewer)
  : option ObjId * string * string * string :=
  (selectedObject s, Page.panelDisplay (page s), Page.objectName (page s),
   Page.objectDetails (page s)).

(** The texture [loadBasemap] hands to [createOrUpdateMap]: one of the
    three tiles, repeated twenty times each way. *)
Definition tiled (url : string) : Texture.t :=
  {| Texture.source := url; Texture.wrapS := RepeatWrapping;
     Texture.wrapT := RepeatWrapping; Texture.repeat := (20%R, 20%R) |}.

(** What of a node no method writes once the node is built. *)
Definition nodeShape (node : Object3D.t)
  : string * list (string * string) * Geometry * bool * R * R
    * option MatId :=
  (Object3D.name node, Object3D.userData node, Object3D.geometry node,
   Object3D.isMesh node, Object3D.rotation_x node, Object3D.position_y node,
   Object3D.material node).

(** The ground plane as [createOrUpdateMap] builds it: a mesh without
    name or attributes over a plane of 10000 by 10000, laid flat a
    hundredth below the ground, whose two-sided material has no emissive
    colour and carries a tiled texture. The field [currentType] of the
    manager is never assigned. *)
Definition planeShape (s : Viewer) : Prop :=
  BasemapManager.currentType (basemapManager s) = None
  ∧ ∀ mesh, BasemapManager.mapMesh (basemapManager s) = Some mesh ->
      ∃ node mat m type,
        Scene.objs (scene s) !! mesh = Some node
        ∧ nodeShape node
          = ("", [], PlaneGeometry 10000%R 10000%R, true, (- PI / 2)%R,
             (- 0.01)%R, Some mat)
        ∧ Scene.mats (scene s) !! mat = Some m
        ∧ Material.emissive m = None
        ∧ Material.side m = DoubleSide
        ∧ Material.map m = Some (tiled (basemapUrl type)).

(** What every handler but the texture callback keeps: the manager, the
    shape of every node, and of every material all but an emissive
    colour that it has. *)
Definition keepsShape (s s' : Viewer) : Prop :=
  basemapManager s' = basemapManager s
  ∧ (∀ id node, Scene.objs (scene s) !! id = Some node ->
       ∃ node', Scene.objs (scene s') !! id = Some node'
         ∧ nodeShape node' = nodeShape node)
  ∧ emissiveOnly (Scene.mats (scene s)) (Scene.mats (scene s')).

(** The states the viewer reaches from its construction. *)
Definition reachable {orbit : OrbitControls.Update} (s : Viewer) : Prop :=
  ∃ (w h : R) (p : Page.t) (es : list Event), s = run (construct w h p) es.

(** ** Sample inputs *)

Module Sample.
Section Sample.
Local Open Scope R_scope.

Definition page : Page.t :=
  {| Page.overlayHidden := false; Page.overlayHTML := Page.LoadingIndicator;
     Page.panelDisplay := "none"; Page.objectName := "";
     Page.objectDetails := ""; Page.console := [] |}.

(** The bounds of a unit cube that stands on the ground, of a cube of
    side 100, and of the unit cube two units up. *)
Definition cube : option (Vector3 * Vector3) :=
  Some (Vec3 0 0 0, Vec3 1 1 1).

Definition bigCube : option (Vector3 * Vector3) :=
  Some (Vec3 0 0 0, Vec3 100 100 100).

Definition raisedCube : option (Vector3 * Vector3) :=
  Some (Vec3 0 2 0, Vec3 1 3 1).

Definition node (name : string) (material : option MatId) (isMesh : bool)
  : Object3D.t :=
  {| Object3D.name := name; Object3D.userData := [("height", "12")];
     Object3D.geometry := BufferGeometry; Object3D.material := material;
     Object3D.isMesh := isMesh; Object3D.visible := true;
     Object3D.castShadow := false; Object3D.receiveShadow := false;
     Object3D.rotation_x := 0; Object3D.position_y := 0 |}.

Definition standardMaterial : Material.t :=
  {| Material.emissive := Some 0%Z; Material.map := None;
     Material.side := FrontSide; Material.needsUpdate := false |}.

Definition basicMaterial : Material.t :=
  {| Material.emissive := None; Material.map := None;
     Material.side := FrontSide; Material.needsUpdate := false |}.

(** Two meshes, one with an emissive material and one without, and a
    group that has no material. *)
Definition gltf (bounds : option (Vector3 * Vector3)) : Gltf.t :=
  {| Gltf.bounds := bounds;
     Gltf.parts := [1; 2; 3]%nat;
     Gltf.nodes :=
       {[ 1%nat := node "Tower" (Some 1%nat) true;
          2%nat := node "Sign" (Some 2%nat) true;
          3%nat := node "Group" None false ]};
     Gltf.materials :=
       {[ 1%nat := standardMaterial; 2%nat := basicMaterial ]} |}.

(** A file without geometry: a single empty group. *)
Definition hollow : Gltf.t :=
  {| Gltf.bounds := None;
     Gltf.parts := [1]%nat;
     Gltf.nodes := {[ 1%nat := node "Group" None false ]};
     Gltf.materials := ∅ |}.

Definition viewer : Viewer :=
  construct (orbit := OrbitControls.threejs) 800 600 page.

(** The viewer once the cube has loaded. *)
Definition loaded : Viewer :=
  step (orbit := OrbitControls.threejs) viewer
    (ModelSettled (Loaded (gltf cube))).

Definition click : MouseEvent.t :=
  {| MouseEvent.clientX := 800; MouseEvent.clientY := 600 |}.

Definition canvas : DOMRect.t :=
  {| DOMRect.left := 0; DOMRect.top := 0;
     DOMRect.width := 800; DOMRect.height := 600 |}.

(** Two intersections, the tower nearer than the sign. *)
Definition hits : list Raycaster.Intersection :=
  [Raycaster.hit 3 1%nat; Raycaster.hit 7 2%nat].

(** The loaded viewer after a click on the tower. *)
Definition picked : Viewer :=
  step (orbit := OrbitControls.threejs) loaded (Click click canvas hits).

End Sample.
End Sample.

(** * Properties *)

(** ** Running a method *)

Lemma bind_normal {A B : Type} (m : JS A) (f : A -> JS B) s s' a :
  m s = (s', Normal a) -> (m ≫= f) s = f a s'.
Proof. intros E. unfold mbind, JS_bind. by rewrite E. Qed.

Lemma bind_throw {A B : Type} (m : JS A) (f : A -> JS B) s s' e :
  m s = (s', Throw e) -> (m ≫= f) s = (s', Throw e).
Proof. intros E. unfold mbind, JS_bind. by rewrite E. Qed.

Lemma bind_gets {A B : Type} (g : Viewer -> A) (f : A -> JS B) s :
  (gets g ≫= f) s = f (g s) s.
Proof. reflexivity. Qed.

Lemma bind_modify {B : Type} (g : Viewer -> Viewer) (f : unit -> JS B) s :
  (modify g ≫= f) s = f tt (g s).
Proof. reflexivity. Qed.

(** ** The idempotence guard of [initializeModel] *)

Section Fitting.
Context {orbit : OrbitControls.Update}.

(** C3. Once the fitting step has run (the flag [initialized] is set), a
    further call returns at once: it completes normally and the whole
    viewer state, the camera position with it, is what it was. *)
Theorem initializeModel_again_is_noop (s : Viewer) :
  initialized s = true -> initializeModel s = (s, Normal tt).
Proof.
  intros Hdone. unfold initializeModel.
  rewrite !bind_gets, Hdone. destruct (model s); reflexivity.
Qed.

(** The first call on a loaded model sets the flag, so that every later
    call falls under the theorem above. *)
Lemma initializeModel_sets_flag (s : Viewer) (m : Model.t) :
  model s = Some m -> initialized (exec initializeModel s) = true.
Proof.
  intros Hm. unfold exec, initializeModel.
  rewrite !bind_gets, Hm.
  destruct (initialized s) eqn:Hdone; [exact Hdone | reflexivity].
Qed.

Lemma initializeModel_completes (s : Viewer) :
  snd (initializeModel s) = Normal tt.
Proof.
  unfold initializeModel. rewrite !bind_gets.
  destruct (model s); [|reflexivity]. destruct (initialized s); reflexivity.
Qed.

Lemma initializeModel_idempotent (s : Viewer) :
  exec initializeModel (exec initializeModel s) = exec initializeModel s.
Proof.
  destruct (model s) as [m|] eqn:Hm.
  - pose proof (initializeModel_sets_flag s m Hm) as Hdone.
    unfold exec at 1, initializeModel at 1.
    rewrite !bind_gets, Hdone.
    destruct (model (exec initializeModel s)); reflexivity.
  - assert (Hid : initializeModel s = (s, Normal tt)).
    { unfold initializeModel. rewrite !bind_gets, Hm. reflexivity. }
    unfold exec. rewrite Hid. simpl. rewrite Hid. reflexivity.
Qed.

(** What the first call does to a loaded model, its camera and its
    controls. *)
Lemma initializeModel_fits (s : Viewer) (m : Model.t) :
  model s = Some m -> initialized s = false ->
  let grounded := groundModel m in
  let newBox := Model.setFromObject grounded in
  let center := Box3.getCenter newBox in
  let distance := fitDistance (Camera.fov (camera s)) (Box3.getSize newBox) in
  let placed :=
    Camera.set_lookAt center
      (Camera.set_position (fitPosition center distance) (camera s)) in
  let s' := exec initializeModel s in
  model s' = Some grounded
  ∧ (controls s', camera s')
    = OrbitControls.update (OrbitControls.set_target center (controls s))
        placed.
Proof.
  intros Hm Hdone. unfold exec, initializeModel.
  rewrite !bind_gets, Hm, Hdone. simpl. split; [done|].
  by destruct (OrbitControls.update _ _).
Qed.

End Fitting.

(** ** Grounding and framing *)

Section Framing.
Local Open Scope R_scope.

(** The height the grounding step assigns is the negated minimum height
    of the model's box, whether the box is empty or not. *)
Lemma groundModel_position_y (m : Model.t) :
  Model.position_y (groundModel m)
  = negate (Box3.min_y (Model.setFromObject m)).
Proof. by destruct m. Qed.

(** The box of a model with geometry, recomputed after the assignment,
    stands at the negated height the node had before. *)
Lemma groundModel_min_y (y : R) (min max : Vector3) (parts : list ObjId) :
  Box3.min_y
    (Model.setFromObject (groundModel (Model.Solid y min max parts)))
  = Finite (- y).
Proof. simpl. f_equal. lra. Qed.

(** A model without geometry is sent to [-Infinity], and its box stays
    empty. *)
Lemma groundModel_hollow (y : Number) (parts : list ObjId) :
  groundModel (Model.Hollow y parts) = Model.Hollow NegInfinity parts
  ∧ Model.setFromObject (groundModel (Model.Hollow y parts)) = Box3.empty.
Proof. done. Qed.

Lemma fitDistance_nonneg (fov : R) (size : Vector3) :
  0 <= fitDistance fov size.
Proof.
  unfold fitDistance.
  pose proof (Rabs_pos
    (Rmax (Rmax (vx size) (vy size)) (vz size) / sin (fov * (PI / 180) / 2))).
  lra.
Qed.

(** The offset [(0.5, 0.8, 0.5) * distance] is not a unit direction: its
    length is [sqrt 1.14] times [distance]. *)
Lemma fitPosition_distanceTo (center : Vector3) (distance : R) :
  0 <= distance ->
  distanceTo (fitPosition center distance) center = sqrt 1.14 * distance.
Proof.
  intros Hd. unfold distanceTo, fitPosition. simpl.
  replace (Rsqr (vx center + distance * 0.5 - vx center)
           + Rsqr (vy center + distance * 0.8 - vy center)
           + Rsqr (vz center + distance * 0.5 - vz center))
    with (1.14 * Rsqr distance) by (unfold Rsqr; lra).
  rewrite sqrt_mult_alt by lra.
  by rewrite sqrt_Rsqr.
Qed.

Lemma sqrt_114_bounds : 1.067 < sqrt 1.14 < 1.1.
Proof.
  split.
  - rewrite <- (sqrt_Rsqr 1.067) by lra.
    apply sqrt_lt_1_alt. unfold Rsqr. lra.
  - rewrite <- (sqrt_Rsqr 1.1) by lra.
    apply sqrt_lt_1_alt. unfold Rsqr. lra.
Qed.

(** *** What [update()] of three.js does to the distance *)

(** A point given in spherical coordinates lies as far from the centre
    of the sphere as the radius says, whatever the two angles. *)
Lemma toVector3_length (sph : Spherical.t) (target : Vector3) :
  let offset := Spherical.toVector3 sph in
  distanceTo
    (Vec3 (vx target + vx offset) (vy target + vy offset)
          (vz target + vz offset)) target
  = Rabs (Spherical.radius sph).
Proof.
  destruct sph as [r phi theta]. unfold distanceTo, Spherical.toVector3.
  simpl. rewrite <- sqrt_Rsqr_abs. f_equal.
  pose proof (sin2_cos2 phi) as Hphi. pose proof (sin2_cos2 theta) as Htheta.
  unfold Rsqr in *.
  replace (vx target + sin phi * r * sin theta - vx target)
    with (sin phi * r * sin theta) by lra.
  replace (vy target + cos phi * r - vy target) with (cos phi * r) by lra.
  replace (vz target + sin phi * r * cos theta - vz target)
    with (sin phi * r * cos theta) by lra.
  transitivity
    (r * r * (sin phi * sin phi * (sin theta * sin theta + cos theta * cos theta)
              + cos phi * cos phi)); [lra|].
  rewrite Htheta. rewrite Rmult_1_r, Hphi. lra.
Qed.

Lemma setFromVector3_radius (a b : Vector3) :
  Spherical.radius
    (Spherical.setFromVector3
       (Vec3 (vx a - vx b) (vy a - vy b) (vz a - vz b)))
  = distanceTo a b.
Proof.
  unfold Spherical.setFromVector3. cbv zeta.
  destruct (decide _); reflexivity.
Qed.

Lemma clamp_nonneg (value min max : R) : 0 <= min -> 0 <= clamp value min max.
Proof. intros Hmin. unfold clamp. pose proof (Rmax_l min (Rmin max value)). lra. Qed.

(** [update()] leaves the settings alone, moves the target by the share
    of the pan that is due, and puts the camera at the distance from the
    target that it had, times the zoom asked for, clamped between
    [minDistance] and [maxDistance]. *)
Lemma threejs_reach (c : OrbitControls.t) (camera : Camera.t) :
  0 <= OrbitControls.minDistance c ->
  let updated := OrbitControls.threejs c camera in
  let share :=
    if OrbitControls.enableDamping c then OrbitControls.dampingFactor c
    else 1 in
  OrbitControls.target updated.1
  = Vec3 (vx (OrbitControls.target c) + vx (OrbitControls.panOffset c) * share)
         (vy (OrbitControls.target c) + vy (OrbitControls.panOffset c) * share)
         (vz (OrbitControls.target c) + vz (OrbitControls.panOffset c) * share)
  ∧ distanceTo (Camera.position updated.2) (OrbitControls.target updated.1)
    = clamp (distanceTo (Camera.position camera) (OrbitControls.target c)
             * OrbitControls.scale c)
        (OrbitControls.minDistance c) (OrbitControls.maxDistance c)
  ∧ Camera.lookAt updated.2 = Some (OrbitControls.target updated.1)
  ∧ Camera.fov updated.2 = Camera.fov camera
  ∧ OrbitControls.minDistance updated.1 = OrbitControls.minDistance c
  ∧ OrbitControls.maxDistance updated.1 = OrbitControls.maxDistance c
  ∧ OrbitControls.scale updated.1 = 1.
Proof.
  intros Hmin updated share. subst updated.
  unfold OrbitControls.threejs. cbv zeta.
  cbn [fst snd OrbitControls.target Camera.position Camera.set_lookAt
       Camera.set_position Camera.lookAt Camera.fov
       OrbitControls.minDistance OrbitControls.maxDistance
       OrbitControls.scale].
  split; [reflexivity|]. split; [|done].
  rewrite toVector3_length. cbn [Spherical.radius].
  rewrite Rabs_right by (apply Rle_ge, clamp_nonneg, Hmin).
  unfold Spherical.makeSafe. cbn [Spherical.radius].
  by rewrite setFromVector3_radius.
Qed.

End Framing.

(** ** The model arrives *)

Section Loading.
Context {orbit : OrbitControls.Update}.

Lemma initializeModel_run (s : Viewer) :
  initializeModel s = (exec initializeModel s, Normal tt).
Proof.
  unfold exec. pose proof (initializeModel_completes s) as H.
  destruct (initializeModel s) as [s' c]. simpl in *. by subst.
Qed.

Lemma loadModel_loaded (gltf : Gltf.t) (s : Viewer) :
  exec (loadModel (Loaded gltf)) s
  = exec hideLoadingScreen (exec initializeModel (exec (receive gltf) s)).
Proof.
  unfold exec at 1, loadModel, try_catch. simpl await.
  rewrite (bind_normal _ _ s s gltf) by reflexivity.
  rewrite (bind_normal _ _ _ (exec (receive gltf) s) tt) by reflexivity.
  rewrite (bind_normal _ _ _ _ tt (initializeModel_run _)).
  reflexivity.
Qed.

Lemma modelSettled_loaded (gltf : Gltf.t) (s : Viewer) :
  Pending.modelLoading (pending s) = true ->
  step s (ModelSettled (Loaded gltf))
  = exec hideLoadingScreen
      (exec initializeModel
         (exec (receive gltf)
            (set_pending (Pending.set_modelLoading false (pending s)) s))).
Proof.
  intros Hl. unfold step, handle, modelSettled, exec at 1.
  rewrite bind_gets, Hl, bind_modify.
  apply loadModel_loaded.
Qed.

(** What [receive] leaves alone. *)
Lemma receive_view (gltf : Gltf.t) (s : Viewer) :
  controls (exec (receive gltf) s) = controls s
  ∧ camera (exec (receive gltf) s) = camera s.
Proof. done. Qed.

(** Once the model has arrived, the fitting has run. *)
Lemma modelSettled_initialized (gltf : Gltf.t) (s : Viewer) :
  Pending.modelLoading (pending s) = true ->
  initialized (step s (ModelSettled (Loaded gltf))) = true.
Proof.
  intros Hl. rewrite modelSettled_loaded by exact Hl.
  set (s0 := exec (receive gltf) _).
  change (initialized (exec initializeModel s0) = true).
  by apply (initializeModel_sets_flag s0 (Gltf.scene gltf)).
Qed.

(** The event of the model arriving, on a viewer still waiting for it and
    not yet fitted. *)
Lemma modelSettled_fits (gltf : Gltf.t) (s : Viewer) :
  Pending.modelLoading (pending s) = true -> initialized s = false ->
  let root := Gltf.scene gltf in
  let box := Model.setFromObject (groundModel root) in
  let center := Box3.getCenter box in
  let distance := fitDistance (Camera.fov (camera s)) (Box3.getSize box) in
  let s' := step s (ModelSettled (Loaded gltf)) in
  model s' = Some (groundModel root)
  ∧ (controls s', camera s')
    = OrbitControls.update (OrbitControls.set_target center (controls s))
        (Camera.set_lookAt center
           (Camera.set_position (fitPosition center distance) (camera s))).
Proof.
  intros Hl Hdone root box center distance s'. subst s'.
  rewrite modelSettled_loaded by exact Hl.
  set (s0 := exec (receive gltf) _).
  destruct (initializeModel_fits s0 root) as (Hm & Hcam);
    [reflexivity | exact Hdone |].
  split; [exact Hm|].
  change (controls (exec hideLoadingScreen (exec initializeModel s0)))
    with (controls (exec initializeModel s0)).
  change (camera (exec hideLoadingScreen (exec initializeModel s0)))
    with (camera (exec initializeModel s0)).
  rewrite Hcam. reflexivity.
Qed.

End Loading.

(** ** The model grounded and framed *)

Section Framed.
Local Open Scope R_scope.

(** The first fitting under the controller of three.js: where the camera
    ends. *)
Lemma initializeModel_reach (s : Viewer) (m : Model.t) :
  model s = Some m -> initialized s = false ->
  0 <= OrbitControls.minDistance (controls s) ->
  let box := Model.setFromObject (groundModel m) in
  let center := Box3.getCenter box in
  let distance := fitDistance (Camera.fov (camera s)) (Box3.getSize box) in
  let share :=
    if OrbitControls.enableDamping (controls s)
    then OrbitControls.dampingFactor (controls s) else 1 in
  let s' := exec (initializeModel (orbit := OrbitControls.threejs)) s in
  OrbitControls.target (controls s')
  = Vec3 (vx center + vx (OrbitControls.panOffset (controls s)) * share)
         (vy center + vy (OrbitControls.panOffset (controls s)) * share)
         (vz center + vz (OrbitControls.panOffset (controls s)) * share)
  ∧ distanceTo (Camera.position (camera s'))
      (OrbitControls.target (controls s'))
    = clamp (sqrt 1.14 * distance * OrbitControls.scale (controls s))
        (OrbitControls.minDistance (controls s))
        (OrbitControls.maxDistance (controls s))
  ∧ Camera.lookAt (camera s') = Some (OrbitControls.target (controls s')).
Proof.
  intros Hm Hdone Hmin box center distance share s'.
  destruct (initializeModel_fits (orbit := OrbitControls.threejs) s m
              Hm Hdone) as [_ Hfit].
  fold s' box center distance in Hfit. cbv zeta in Hfit.
  set (placed := Camera.set_lookAt center _) in Hfit.
  destruct (threejs_reach (OrbitControls.set_target center (controls s))
              placed Hmin)
    as (Htarget & Hreach & Hlook & _).
  unfold OrbitControls.update in Hfit. rewrite <- Hfit in *.
  cbn [fst snd] in *.
  split; [exact Htarget|]. split; [|exact Hlook].
  rewrite Hreach. f_equal. f_equal.
  apply (fitPosition_distanceTo center distance), fitDistance_nonneg.
Qed.

(** The same for the event of the model arriving. *)
Lemma modelSettled_reach (s : Viewer) (gltf : Gltf.t) :
  Pending.modelLoading (pending s) = true -> initialized s = false ->
  0 <= OrbitControls.minDistance (controls s) ->
  let root := Gltf.scene gltf in
  let box := Model.setFromObject (groundModel root) in
  let center := Box3.getCenter box in
  let distance := fitDistance (Camera.fov (camera s)) (Box3.getSize box) in
  let share :=
    if OrbitControls.enableDamping (controls s)
    then OrbitControls.dampingFactor (controls s) else 1 in
  let s' := step (orbit := OrbitControls.threejs) s
              (ModelSettled (Loaded gltf)) in
  model s' = Some (groundModel root)
  ∧ OrbitControls.target (controls s')
    = Vec3 (vx center + vx (OrbitControls.panOffset (controls s)) * share)
           (vy center + vy (OrbitControls.panOffset (controls s)) * share)
           (vz center + vz (OrbitControls.panOffset (controls s)) * share)
  ∧ distanceTo (Camera.position (camera s'))
      (OrbitControls.target (controls s'))
    = clamp (sqrt 1.14 * distance * OrbitControls.scale (controls s))
        (OrbitControls.minDistance (controls s))
        (OrbitControls.maxDistance (controls s))
  ∧ Camera.fov (camera s') = Camera.fov (camera s).
Proof.
  intros Hl Hdone Hmin root box center distance share s'.
  destruct (modelSettled_fits (orbit := OrbitControls.threejs) gltf s
              Hl Hdone) as [Hm Hfit].
  fold root box center distance s' in Hm, Hfit. cbv zeta in Hfit.
  set (placed := Camera.set_lookAt center _) in Hfit.
  destruct (threejs_reach (OrbitControls.set_target center (controls s))
              placed Hmin)
    as (Htarget & Hreach & _ & Hfov & _).
  unfold OrbitControls.update in Hfit. rewrite <- Hfit in *.
  cbn [fst snd] in *.
  split; [exact Hm|]. split; [exact Htarget|]. split; [|exact Hfov].
  rewrite Hreach. f_equal. f_equal.
  apply (fitPosition_distanceTo center distance), fitDistance_nonneg.
Qed.

Context {orbit : OrbitControls.Update}.

(** C2, as the code has it. For every loaded model that has geometry,
    whatever the box around it, the loader delivering its root node at
    the origin: the grounding step assigns the node the negated minimum
    height of the box, and the box recomputed afterwards has minimum
    height 0. *)
Theorem grounding_from_origin (s : Viewer) (gltf : Gltf.t)
    (min max : Vector3) :
  Pending.modelLoading (pending s) = true -> initialized s = false ->
  Gltf.bounds gltf = Some (min, max) ->
  let s' := step s (ModelSettled (Loaded gltf)) in
  ∃ grounded, model s' = Some grounded
    ∧ Model.position_y grounded = Finite (- vy min)
    ∧ Box3.min_y (Model.setFromObject grounded) = Finite 0.
Proof.
  intros Hl Hdone Hbounds s'.
  destruct (modelSettled_fits gltf s Hl Hdone) as [Hm _]. fold s' in Hm.
  exists (groundModel (Gltf.scene gltf)). split; [exact Hm|].
  unfold Gltf.scene. rewrite Hbounds. simpl. split; f_equal; lra.
Qed.

End Framed.

Section FramedCamera.
Local Open Scope R_scope.
#[local] Existing Instance OrbitControls.threejs.

(** C1, as the code has it. The fitting step places the camera at
    [center + distance * (0.5, 0.8, 0.5)], where
    [distance = |d / sin (f / 2)| * 1.2] for the largest dimension [d] of
    the model's box and the field of view [f] in radians; that position
    lies at [sqrt 1.14 * distance] from the centre of the box. It then
    calls [controls.update()], which keeps the camera on the sphere
    around the controller's target but clamps its distance: the camera
    ends at [sqrt 1.14 * distance], times the zoom that is pending,
    clamped between [minDistance] and [maxDistance], from the target,
    and the target is the centre of the box when no pan is pending. *)
Theorem fitted_camera_distance (s : Viewer) (m : Model.t) :
  model s = Some m -> initialized s = false ->
  0 <= OrbitControls.minDistance (controls s) ->
  let box := Model.setFromObject (groundModel m) in
  let center := Box3.getCenter box in
  let size := Box3.getSize box in
  let d := Rmax (Rmax (vx size) (vy size)) (vz size) in
  let f := Camera.fov (camera s) * (PI / 180) in
  let distance := Rabs (d / sin (f / 2)) * 1.2 in
  let minDistance := OrbitControls.minDistance (controls s) in
  let maxDistance := OrbitControls.maxDistance (controls s) in
  let s' := exec initializeModel s in
  (∃ placed,
     (controls s', camera s')
     = OrbitControls.update (OrbitControls.set_target center (controls s))
         placed
     ∧ Camera.position placed
       = Vec3 (vx center + distance * 0.5) (vy center + distance * 0.8)
              (vz center + distance * 0.5)
     ∧ distanceTo (Camera.position placed) center = sqrt 1.14 * distance)
  ∧ distanceTo (Camera.position (camera s'))
      (OrbitControls.target (controls s'))
    = clamp (sqrt 1.14 * distance * OrbitControls.scale (controls s))
        minDistance maxDistance
  ∧ (OrbitControls.panOffset (controls s) = Vec3 0 0 0 ->
     OrbitControls.scale (controls s) = 1 ->
     OrbitControls.target (controls s') = center
     ∧ distanceTo (Camera.position (camera s')) center
       = clamp (sqrt 1.14 * distance) minDistance maxDistance).
Proof.
  intros Hm Hdone Hmin box center size d f distance minDistance maxDistance
    s'.
  destruct (initializeModel_fits s m Hm Hdone) as [_ Hfit].
  destruct (initializeModel_reach s m Hm Hdone Hmin)
    as (Htarget & Hreach & _).
  fold box center size s' in Htarget, Hreach, Hfit.
  change (fitDistance (Camera.fov (camera s)) size) with distance
    in Htarget, Hreach, Hfit.
  split; [|split].
  - eexists. split; [exact Hfit|]. split; [reflexivity|].
    apply (fitPosition_distanceTo center distance).
    apply (fitDistance_nonneg (Camera.fov (camera s)) size).
  - exact Hreach.
  - intros Hpan Hscale.
    assert (Hcenter : OrbitControls.target (controls s') = center).
    { rewrite Htarget, Hpan. destruct center. simpl. f_equal; lra. }
    split; [exact Hcenter|].
    rewrite <- Hcenter at 1. rewrite Hreach, Hscale. f_equal. lra.
Qed.

End FramedCamera.

(** ** Evidence on the sample inputs *)

Section FramingSamples.
Local Open Scope R_scope.
#[local] Existing Instance OrbitControls.threejs.

(** The controller of the constructed viewer, after the frame that
    [init] ends with: its limits are those of lines 95 and 96, and no
    pan or zoom is pending. *)
Lemma sample_controls :
  OrbitControls.minDistance (controls Sample.viewer) = 50
  ∧ OrbitControls.maxDistance (controls Sample.viewer) = 1000
  ∧ OrbitControls.scale (controls Sample.viewer) = 1
  ∧ OrbitControls.panOffset (controls Sample.viewer) = Vec3 0 0 0
  ∧ Camera.fov (camera Sample.viewer) = 75.
Proof.
  split; [reflexivity|]. split; [reflexivity|]. split; [reflexivity|].
  split; [|reflexivity].
  change (OrbitControls.panOffset (controls Sample.viewer))
    with (Vec3 (0 * (1 - 0.05)) (0 * (1 - 0.05)) (0 * (1 - 0.05))).
  f_equal; lra.
Qed.

Lemma sin_fov_75 : 1 / 2 < sin (75 * (PI / 180) / 2) <= 1.
Proof.
  pose proof PI_RGT_0 as Hpi. split.
  - rewrite <- sin_PI6. apply sin_increasing_1; lra.
  - apply SIN_bound.
Qed.

(** The boxes of the two cubes, grounded. *)
Lemma sample_cube_box :
  let box :=
    Model.setFromObject
      (groundModel (Gltf.scene (Sample.gltf Sample.cube))) in
  Box3.getCenter box = Vec3 0.5 0.5 0.5 ∧ Box3.getSize box = Vec3 1 1 1.
Proof.
  unfold Box3.getCenter, Box3.getSize. simpl.
  rewrite !bool_decide_eq_false_2 by lra. simpl.
  split; f_equal; lra.
Qed.

Lemma sample_bigCube_box :
  let box :=
    Model.setFromObject
      (groundModel (Gltf.scene (Sample.gltf Sample.bigCube))) in
  Box3.getCenter box = Vec3 50 50 50 ∧ Box3.getSize box = Vec3 100 100 100.
Proof.
  unfold Box3.getCenter, Box3.getSize. simpl.
  rewrite !bool_decide_eq_false_2 by lra. simpl.
  split; f_equal; lra.
Qed.

(** Where the camera ends when a cube of side [side] and centre [center]
    has loaded into the sample viewer. *)
Lemma sample_reach (bounds : option (Vector3 * Vector3))
    (center : Vector3) (side : R) :
  let box :=
    Model.setFromObject (groundModel (Gltf.scene (Sample.gltf bounds))) in
  Box3.getCenter box = center -> Box3.getSize box = Vec3 side side side ->
  let s := step Sample.viewer (ModelSettled (Loaded (Sample.gltf bounds))) in
  model s = Some (groundModel (Gltf.scene (Sample.gltf bounds)))
  ∧ Camera.fov (camera s) = 75
  ∧ distanceTo (Camera.position (camera s)) center
    = clamp (sqrt 1.14 * (Rabs (side / sin (75 * (PI / 180) / 2)) * 1.2))
        50 1000.
Proof.
  intros box Hcenter Hsize s. subst box s.
  destruct sample_controls as (Hmin & Hmax & Hscale & Hpan & Hfov).
  assert (H0 : 0 <= OrbitControls.minDistance (controls Sample.viewer))
    by (rewrite Hmin; lra).
  destruct (modelSettled_reach Sample.viewer (Sample.gltf bounds)
              eq_refl eq_refl H0)
    as (Hm & Htarget & Hreach & Hfov').
  cbv zeta in Hm, Htarget, Hreach, Hfov'.
  set (s' := step Sample.viewer (ModelSettled (Loaded (Sample.gltf bounds))))
    in *.
  split; [exact Hm|]. split; [rewrite Hfov'; exact Hfov|].
  assert (Htarget' : OrbitControls.target (controls s') = center).
  { rewrite Htarget, Hpan, Hcenter. destruct center. cbn [vx vy vz].
    f_equal; lra. }
  rewrite Htarget' in Hreach. rewrite Hreach.
  rewrite Hsize, Hmin, Hmax, Hscale, Hfov.
  unfold fitDistance. cbn [vx vy vz].
  replace (Rmax (Rmax side side) side) with side
    by (unfold Rmax; repeat destruct (Rle_dec _ _); lra).
  f_equal. lra.
Qed.

(** C1 fails as stated, at two models loaded into the viewer as [init]
    builds it, whose camera has field of view 75 degrees and whose
    controller keeps the camera between 50 and 1000 from its target.
    The unit cube: the box has centre [(0.5, 0.5, 0.5)] and largest
    dimension 1, the claim puts the camera less than 2.4 from the
    centre, and it ends 50 from it. The cube of side 100: the box has
    centre [(50, 50, 50)] and largest dimension 100, and the camera ends
    more than 8 farther from the centre than the claim says. *)
Lemma fit_distance_counterexample :
  let f := 75 * (PI / 180) in
  let claimed (d : R) := Rabs (d / sin (f / 2)) * 1.2 in
  (let s := Sample.loaded in
   ∃ grounded, model s = Some grounded
     ∧ Box3.getCenter (Model.setFromObject grounded) = Vec3 0.5 0.5 0.5
     ∧ Box3.getSize (Model.setFromObject grounded) = Vec3 1 1 1
     ∧ Camera.fov (camera s) = 75
     ∧ distanceTo (Camera.position (camera s)) (Vec3 0.5 0.5 0.5) = 50
     ∧ claimed 1 < 2.4)
  ∧ (let s := step Sample.viewer
                (ModelSettled (Loaded (Sample.gltf Sample.bigCube))) in
     ∃ grounded, model s = Some grounded
       ∧ Box3.getCenter (Model.setFromObject grounded) = Vec3 50 50 50
       ∧ Box3.getSize (Model.setFromObject grounded) = Vec3 100 100 100
       ∧ Camera.fov (camera s) = 75
       ∧ claimed 100 + 8
         < distanceTo (Camera.position (camera s)) (Vec3 50 50 50)).
Proof.
  intros f claimed. subst f claimed. cbv beta.
  destruct sin_fov_75 as [Hlow Hup].
  destruct sqrt_114_bounds as [Hs1 Hs2].
  set (x := sin (75 * (PI / 180) / 2)) in *.
  assert (Hinv : 1 <= 1 / x < 2).
  { split.
    - apply (Rmult_le_reg_r x); [lra|]. field_simplify; lra.
    - apply (Rmult_lt_reg_r x); [lra|]. field_simplify; lra. }
  split.
  - destruct sample_cube_box as [Hcenter Hsize].
    destruct (sample_reach Sample.cube (Vec3 0.5 0.5 0.5) 1 Hcenter Hsize)
      as (Hm & Hfov & Hreach).
    cbv zeta in Hcenter, Hsize, Hm, Hfov, Hreach. fold x in Hreach.
    unfold Sample.loaded.
    exists (groundModel (Gltf.scene (Sample.gltf Sample.cube))).
    split; [exact Hm|]. split; [exact Hcenter|]. split; [exact Hsize|].
    split; [exact Hfov|].
    rewrite Hreach. rewrite (Rabs_right (1 / x)) by lra.
    split; [|lra].
    unfold clamp. rewrite Rmin_right by nra. rewrite Rmax_left by nra.
    reflexivity.
  - destruct sample_bigCube_box as [Hcenter Hsize].
    destruct (sample_reach Sample.bigCube (Vec3 50 50 50) 100 Hcenter Hsize)
      as (Hm & Hfov & Hreach).
    cbv zeta in Hcenter, Hsize, Hm, Hfov, Hreach. fold x in Hreach.
    exists (groundModel (Gltf.scene (Sample.gltf Sample.bigCube))).
    split; [exact Hm|]. split; [exact Hcenter|]. split; [exact Hsize|].
    split; [exact Hfov|].
    rewrite Hreach.
    replace (100 / x) with (100 * (1 / x)) by (field; lra).
    rewrite (Rabs_right (100 * (1 / x))) by lra.
    unfold clamp. rewrite Rmin_right by nra. rewrite Rmax_right by nra.
    nra.
Qed.

(** C2 fails as stated. A model without geometry, a single group: its
    box is empty, the fitting step assigns the height [-Infinity] to the
    node, and the recomputed box is empty still, with minimum height
    [+Infinity]. *)
Lemma grounding_counterexample :
  let s := step Sample.viewer (ModelSettled (Loaded Sample.hollow)) in
  ∃ grounded, model s = Some grounded
    ∧ Model.position_y grounded = NegInfinity
    ∧ Model.setFromObject grounded = Box3.empty
    ∧ Box3.min_y (Model.setFromObject grounded) = PosInfinity
    ∧ Box3.min_y (Model.setFromObject grounded) <> Finite 0.
Proof.
  intros s.
  destruct (modelSettled_fits Sample.hollow Sample.viewer eq_refl eq_refl)
    as [Hm _].
  exists (groundModel (Gltf.scene Sample.hollow)).
  split; [exact Hm|]. repeat split. discriminate.
Qed.

End FramingSamples.

Section FramingWitnesses.
Local Open Scope R_scope.
#[local] Existing Instance OrbitControls.threejs.

(** The viewer with the unit cube received and not yet fitted: no pan or
    zoom is pending, the controller's target becomes the centre of the
    cube, and the camera ends at [minDistance] from it. *)
Lemma fitted_camera_distance_witness :
  let s := exec (receive (Sample.gltf Sample.cube)) Sample.viewer in
  let s' := exec initializeModel s in
  OrbitControls.target (controls s') = Vec3 0.5 0.5 0.5
  ∧ distanceTo (Camera.position (camera s')) (Vec3 0.5 0.5 0.5) = 50.
Proof.
  assert (Hone : Rmax (Rmax 1 1) 1 = 1).
  { unfold Rmax. repeat destruct (Rle_dec _ _); lra. }
  destruct sample_controls as (Hmin & Hmax & Hscale & Hpan & Hfov).
  destruct sample_cube_box as [Hcenter Hsize]. cbv zeta in Hcenter, Hsize.
  destruct sin_fov_75 as [Hlow Hup].
  destruct sqrt_114_bounds as [_ Hsqrt].
  destruct (receive_view (Sample.gltf Sample.cube) Sample.viewer)
    as [Hcontrols Hcamera].
  cbv zeta.
  pose proof (fitted_camera_distance
                (exec (receive (Sample.gltf Sample.cube)) Sample.viewer)
                (Gltf.scene (Sample.gltf Sample.cube))
                eq_refl eq_refl) as H.
  cbv zeta in H.
  rewrite Hcontrols, Hcamera, Hcenter, Hsize, Hmin, Hmax, Hscale, Hfov in H.
  cbn [vx vy vz] in H. rewrite Hone in H.
  destruct H as (_ & _ & H); [lra|].
  destruct (H Hpan eq_refl) as [Htarget Hreach]. clear H.
  split; [exact Htarget|]. rewrite Hreach.
  set (x := sin (75 * (PI / 180) / 2)) in *.
  assert (Hinv : 0 <= 1 / x < 2).
  { split.
    - apply Rlt_le. apply Rdiv_lt_0_compat; lra.
    - apply (Rmult_lt_reg_r x); [lra|]. field_simplify; lra. }
  rewrite Rabs_right by lra.
  unfold clamp. rewrite Rmin_right by nra. rewrite Rmax_left by nra.
  reflexivity.
Defined.

(** The cube that hangs two units above the ground. *)
Lemma grounding_from_origin_witness :
  let s' := step Sample.viewer
              (ModelSettled (Loaded (Sample.gltf Sample.raisedCube))) in
  ∃ grounded, model s' = Some grounded
    ∧ Model.position_y grounded = Finite (- 2)
    ∧ Box3.min_y (Model.setFromObject grounded) = Finite 0.
Proof.
  exact (grounding_from_origin Sample.viewer (Sample.gltf Sample.raisedCube)
           (Vec3 0 2 0) (Vec3 1 3 1) eq_refl eq_refl eq_refl).
Defined.

Lemma initializeModel_again_witness :
  initializeModel Sample.loaded = (Sample.loaded, Normal tt).
Proof.
  apply (initializeModel_again_is_noop Sample.loaded).
  unfold Sample.loaded.
  apply (modelSettled_initialized (Sample.gltf Sample.cube) Sample.viewer).
  reflexivity.
Defined.

End FramingWitnesses.

(** ** Picking *)

Section Picking.
Local Open Scope R_scope.
Context {orbit : OrbitControls.Update}.

Lemma hasEmissive_true (s : Viewer) (o : ObjId) :
  hasEmissive s (Some o) = true ->
  ∃ node mat m e,
    Scene.objs (scene s) !! o = Some node
    ∧ Object3D.material node = Some mat
    ∧ Scene.mats (scene s) !! mat = Some m
    ∧ Material.emissive m = Some e.
Proof.
  unfold hasEmissive. rewrite bool_decide_eq_true. simpl.
  unfold Scene.emissive, Scene.material. intros [e He].
  destruct (Scene.objs (scene s) !! o) as [node|]; [|done]. simpl in He.
  destruct (Object3D.material node) as [mat|] eqn:Hmat; [|done]. simpl in He.
  destruct (Scene.mats (scene s) !! mat) as [m|] eqn:Hm; [|done]. simpl in He.
  by exists node, mat, m, e.
Qed.

(** Under its guard, [emissive.set(c)] completes and the object then
    carries the colour [c]; the nodes themselves are not written. *)
Lemma setEmissive_guarded (s : Viewer) (o : ObjId) (c : Color) :
  hasEmissive s (Some o) = true ->
  setEmissive o c s = (exec (setEmissive o c) s, Normal tt)
  ∧ Scene.emissive (scene (exec (setEmissive o c) s)) o = Some c
  ∧ Scene.objs (scene (exec (setEmissive o c) s)) = Scene.objs (scene s).
Proof.
  intros Hg.
  destruct (hasEmissive_true s o Hg) as (node & mat & m & e & Ho & Hmat & Hm & He).
  assert (Hmaterial : Scene.material (scene s) o = Some mat).
  { unfold Scene.material. by rewrite Ho. }
  assert (Hemissive : Scene.emissive (scene s) o = Some e).
  { unfold Scene.emissive. rewrite Hmaterial. simpl. by rewrite Hm. }
  unfold exec, setEmissive, writeMaterial. rewrite Hemissive, Hmaterial.
  simpl. repeat split.
  unfold Scene.emissive, Scene.material. simpl. rewrite Ho. simpl.
  rewrite Hmat. simpl. rewrite lookup_alter_eq, Hm. done.
Qed.

Lemma hasEmissive_setEmissive (s : Viewer) (a b : ObjId) (c : Color) :
  hasEmissive s (Some a) = true ->
  hasEmissive (exec (setEmissive a c) s) (Some b) = hasEmissive s (Some b).
Proof.
  intros Hg.
  destruct (hasEmissive_true s a Hg) as (node & mat & m & e & Ho & Hmat & Hm & He).
  assert (Hmaterial : Scene.material (scene s) a = Some mat).
  { unfold Scene.material. by rewrite Ho. }
  assert (Hemissive : Scene.emissive (scene s) a = Some e).
  { unfold Scene.emissive. rewrite Hmaterial. simpl. by rewrite Hm. }
  unfold exec, setEmissive, writeMaterial. rewrite Hemissive, Hmaterial.
  unfold hasEmissive. simpl. apply bool_decide_ext.
  unfold Scene.emissive, Scene.material. simpl.
  destruct (Scene.objs (scene s) !! b) as [nb|]; [|done]. simpl.
  destruct (Object3D.material nb) as [mb|]; [|done]. simpl.
  destruct (decide (mat = mb)) as [<-|Hne].
  - rewrite lookup_alter_eq, Hm. simpl. rewrite He. split; eauto.
  - by rewrite lookup_alter_ne.
Qed.

(** The two guarded writes of [highlightObject], one after the other,
    then the assignment of the selection. *)
Lemma highlightObject_run (s : Viewer) (b : ObjId) :
  let s1 :=
    match selectedObject s with
    | Some a =>
        if hasEmissive s (Some a) then exec (setEmissive a 0x000000) s else s
    | None => s
    end in
  let s2 :=
    if hasEmissive s1 (Some b) then exec (setEmissive b 0xffd700) s1 else s1 in
  highlightObject b s = (set_selectedObject b s2, Normal tt).
Proof.
  intros s1 s2. unfold highlightObject. rewrite !bind_gets.
  assert (H1 : match selectedObject s with
               | Some selected =>
                   if hasEmissive s (selectedObject s)
                   then setEmissive selected 0x000000 else skip
               | None => skip
               end s = (s1, Normal tt)).
  { subst s1. destruct (selectedObject s) as [a|]; [|done].
    destruct (hasEmissive s (Some a)) eqn:Ha; [|done].
    by destruct (setEmissive_guarded s a 0x000000 Ha) as [-> _]. }
  rewrite (bind_normal _ _ s s1 tt H1), bind_gets.
  assert (H2 : (if hasEmissive s1 (Some b) then setEmissive b 0xffd700
                else skip) s1 = (s2, Normal tt)).
  { subst s2. destruct (hasEmissive s1 (Some b)) eqn:Hb; [|done].
    by destruct (setEmissive_guarded s1 b 0xffd700 Hb) as [-> _]. }
  by rewrite (bind_normal _ _ s1 s2 tt H2).
Qed.

(** C6. Selecting [b] while [a] is selected: [highlightObject] completes
    normally; it first brings the emissive colour of [a] to 0x000000 if
    [a] has a material with that property, and leaves everything as it is
    if not; from the state so reached it sets the emissive colour of [b]
    to 0xffd700 if [b] has the property, and records [b] as selected. *)
Theorem highlight_resets_previous (s : Viewer) (a b : ObjId) :
  selectedObject s = Some a ->
  let s1 :=
    if hasEmissive s (Some a) then exec (setEmissive a 0x000000) s else s in
  let s2 :=
    if hasEmissive s1 (Some b) then exec (setEmissive b 0xffd700) s1 else s1 in
  highlightObject b s = (set_selectedObject b s2, Normal tt)
  ∧ (hasEmissive s (Some a) = true ->
     Scene.emissive (scene s1) a = Some 0x000000%Z)
  ∧ (hasEmissive s (Some a) = false -> s1 = s)
  ∧ (hasEmissive s1 (Some b) = true ->
     Scene.emissive (scene s2) b = Some 0xffd700%Z).
Proof.
  intros Hsel s1 s2. split; [|split; [|split]].
  - pose proof (highlightObject_run s b) as Hrun.
    cbv zeta in Hrun. rewrite Hsel in Hrun. exact Hrun.
  - intros Ha. subst s1. rewrite Ha.
    by destruct (setEmissive_guarded s a 0x000000 Ha) as (_ & -> & _).
  - intros Ha. subst s1. by rewrite Ha.
  - intros Hb. subst s2. rewrite Hb.
    by destruct (setEmissive_guarded s1 b 0xffd700 Hb) as (_ & -> & _).
Qed.

(** [highlightObject] always completes normally and selects its
    argument. *)
Lemma highlightObject_selects (s : Viewer) (b : ObjId) :
  ∃ s', highlightObject b s = (s', Normal tt)
    ∧ selectedObject s' = Some b.
Proof. rewrite highlightObject_run. eauto. Qed.

(** The pointer in normalised device coordinates, as [onClick] computes
    it. *)
Lemma onClick_pointer (s : Viewer) event rect intersects :
  let ndc :=
    Vec2 (((MouseEvent.clientX event - DOMRect.left rect)
             / DOMRect.width rect) * 2 - 1)
         ((- ((MouseEvent.clientY event - DOMRect.top rect)
                / DOMRect.height rect)) * 2 + 1) in
  let aimed :=
    set_raycaster (Raycaster.setFromCamera ndc (camera s)) (set_mouse ndc s) in
  onClick event rect intersects s
  = match intersects with
    | first :: _ =>
        (showObjectInfo (Raycaster.object first);;
         highlightObject (Raycaster.object first)) aimed
    | [] => (aimed, Normal tt)
    end.
Proof. intros ndc aimed. unfold onClick. by destruct intersects. Qed.

(** C7, as the code has it. A click whose ray meets nothing completes
    normally and writes two fields only, the pointer [mouse] and the ray
    of [raycaster]; the selection, the scene with every material, and the
    page with its info panel are what they were. *)
Theorem click_without_hit (s : Viewer) event rect :
  let ndc :=
    Vec2 (((MouseEvent.clientX event - DOMRect.left rect)
             / DOMRect.width rect) * 2 - 1)
         ((- ((MouseEvent.clientY event - DOMRect.top rect)
                / DOMRect.height rect)) * 2 + 1) in
  let s' := exec (onClick event rect []) s in
  onClick event rect [] s = (s', Normal tt)
  ∧ s' = set_raycaster (Raycaster.setFromCamera ndc (camera s))
           (set_mouse ndc s)
  ∧ selectedObject s' = selectedObject s
  ∧ scene s' = scene s
  ∧ page s' = page s.
Proof. done. Qed.

(** C10. A click whose ray meets at least one object completes normally
    and leaves the object of the first intersection selected, whether or
    not that object has an emissive colour to highlight; the array being
    sorted by distance, as the raycaster returns it, no intersection is
    nearer than the first. *)
Theorem click_selects_nearest (s : Viewer) event rect
    (first : Raycaster.Intersection) (others : list Raycaster.Intersection) :
  Sorted (λ i j, Raycaster.distance i <= Raycaster.distance j)
    (first :: others) ->
  ∃ s', onClick event rect (first :: others) s = (s', Normal tt)
    ∧ selectedObject s' = Some (Raycaster.object first)
    ∧ Forall (λ i, Raycaster.distance first <= Raycaster.distance i) others.
Proof.
  intros Hsorted. rewrite onClick_pointer. cbv zeta.
  set (aimed := set_raycaster _ _).
  rewrite (bind_normal _ _ aimed
             (exec (showObjectInfo (Raycaster.object first)) aimed) tt)
    by reflexivity.
  destruct (highlightObject_selects
              (exec (showObjectInfo (Raycaster.object first)) aimed)
              (Raycaster.object first)) as (s' & Hrun & Hsel).
  exists s'. split; [exact Hrun|]. split; [exact Hsel|].
  apply Sorted_StronglySorted in Hsorted.
  - by inversion Hsorted.
  - intros i j k Hij Hjk. lra.
Qed.

End Picking.

Section PickingSamples.
Local Open Scope R_scope.
#[local] Existing Instance OrbitControls.threejs.

Lemma highlight_resets_previous_witness :
  highlightObject 2%nat Sample.picked
  = (set_selectedObject 2%nat (exec (setEmissive 1%nat 0x000000) Sample.picked),
     Normal tt)
  ∧ Scene.emissive (scene Sample.picked) 1%nat = Some 0xffd700%Z
  ∧ Scene.emissive
      (scene (exec (setEmissive 1%nat 0x000000) Sample.picked)) 1%nat
    = Some 0x000000%Z.
Proof.
  assert (Hsel : selectedObject Sample.picked = Some 1%nat)
    by (vm_compute; reflexivity).
  assert (Ha : hasEmissive Sample.picked (Some 1%nat) = true)
    by (vm_compute; reflexivity).
  assert (Hb : hasEmissive (exec (setEmissive 1%nat 0x000000) Sample.picked)
                 (Some 2%nat) = false)
    by (vm_compute; reflexivity).
  pose proof (highlight_resets_previous Sample.picked 1%nat 2%nat Hsel)
    as H.
  cbv zeta in H. rewrite Ha in H. cbv iota in H. rewrite Hb in H.
  destruct H as (Hrun & Hreset & _ & _).
  split; [exact Hrun|]. split; [vm_compute; reflexivity|].
  apply Hreset. reflexivity.
Defined.

(** C7 fails as stated. On the loaded viewer, whose pointer is at
    [(0, 0)], a click at the lower right corner of the canvas that meets
    nothing leaves the pointer at [(1, -1)]: the state has changed. *)
Lemma click_without_hit_counterexample :
  mouse Sample.loaded = Vec2 0 0
  ∧ mouse (step Sample.loaded (Click Sample.click Sample.canvas []))
    = Vec2 1 (-1)
  ∧ step Sample.loaded (Click Sample.click Sample.canvas []) <> Sample.loaded.
Proof.
  assert (H0 : mouse Sample.loaded = Vec2 0 0) by (vm_compute; reflexivity).
  assert (H1 : mouse (step Sample.loaded (Click Sample.click Sample.canvas []))
               = Vec2 1 (-1)).
  { unfold step, handle, exec. rewrite onClick_pointer.
    unfold set_raycaster, set_mouse, mouse. simpl. f_equal; lra. }
  split; [exact H0|]. split; [exact H1|].
  intros Heq. rewrite Heq, H0 in H1.
  injection H1. lra.
Qed.

Lemma click_selects_nearest_witness :
  ∃ s', onClick Sample.click Sample.canvas Sample.hits Sample.loaded
        = (s', Normal tt)
    ∧ selectedObject s' = Some 1%nat
    ∧ Forall (λ i, 3 <= Raycaster.distance i) [Raycaster.hit 7 2%nat].
Proof.
  apply (click_selects_nearest Sample.loaded Sample.click Sample.canvas
           (Raycaster.hit 3 1%nat) [Raycaster.hit 7 2%nat]).
  repeat constructor. simpl. lra.
Defined.

End PickingSamples.

(** ** Lighting presets *)

Section LightingPresets.
Local Open Scope R_scope.
Context {orbit : OrbitControls.Update}.

(** A hemisphere light has no property named [skyColor]. *)
Lemma hemisphere_skyColor (l : HemisphereLight.t) :
  HemisphereLight.colorProperty "skyColor" l = None.
Proof. reflexivity. Qed.

(** The constructor leaves the lights at the day preset. *)
Lemma construct_day (w h : R) (p : Page.t) :
  isNight (construct w h p) = false
  ∧ Lighting.current (construct w h p) = Lighting.preset false
  ∧ Scene.background (scene (construct w h p)) = Some dayColor.
Proof. done. Qed.

(** [updateLighting] writes the ambient and the directional light, and
    stops on the read of [skyColor]: the hemisphere light is never
    written. *)
Lemma updateLighting_stops (s : Viewer) :
  let target := Lighting.preset (isNight s) in
  let s' := exec updateLighting s in
  updateLighting s = (s', Throw TypeError)
  ∧ AmbientLight.intensity (ambientLight s') = Lighting.ambient target
  ∧ (DirectionalLight.intensity (directionalLight s'),
     DirectionalLight.position (directionalLight s'),
     DirectionalLight.color (directionalLight s'))
    = Lighting.directional target
  ∧ hemisphereLight s' = hemisphereLight s
  ∧ isNight s' = isNight s
  ∧ scene s' = scene s.
Proof.
  unfold exec, updateLighting. rewrite bind_gets.
  destruct (isNight s) eqn:Hnight; repeat split; exact Hnight.
Qed.

(** The handler of the checkbox, on any state: the flag and the
    background are written, then [updateLighting] runs and stops. *)
Lemma nightModeChanged_stops (checked : bool) (s : Viewer) :
  let s' := step s (NightModeChange checked) in
  handle (NightModeChange checked) s = (s', Throw TypeError)
  ∧ isNight s' = checked
  ∧ Scene.background (scene s')
    = Some (if checked then nightColor else dayColor)
  ∧ Lighting.ambient (Lighting.current s')
    = Lighting.ambient (Lighting.preset checked)
  ∧ Lighting.directional (Lighting.current s')
    = Lighting.directional (Lighting.preset checked)
  ∧ hemisphereLight s' = hemisphereLight s.
Proof.
  unfold step, handle, nightModeChanged, exec.
  rewrite !bind_modify.
  rewrite (bind_normal updateBackground _ (set_isNight checked s)
             (exec updateBackground (set_isNight checked s)) tt)
    by reflexivity.
  set (s1 := exec updateBackground (set_isNight checked s)).
  destruct (updateLighting_stops s1) as (Hrun & Ha & Hd & Hh & Hn & Hsc).
  rewrite Hrun. cbn [fst].
  split; [reflexivity|].
  split; [by rewrite Hn|].
  split; [by rewrite Hsc|].
  split; [exact Ha|]. split; [exact Hd|]. exact Hh.
Qed.

End LightingPresets.

(** ** The basemap manager *)

Section Basemap.
Local Open Scope R_scope.
Context {orbit : OrbitControls.Update}.

(** C9. As long as no ground plane exists, [setVisible] completes
    normally and leaves the whole viewer state as it is, whichever flag
    it is given. *)
Theorem setVisible_without_mesh (s : Viewer) (visible : bool) :
  BasemapManager.mapMesh (basemapManager s) = None ->
  setVisible visible s = (s, Normal tt).
Proof.
  intros Hnone. unfold setVisible. by rewrite bind_gets, Hnone.
Qed.

(** The only exception [createOrUpdateMap] can end on is the
    [TypeError] of a ground plane without material. *)
Lemma createOrUpdateMap_completion (texture : Texture.t) (s : Viewer) :
  snd (createOrUpdateMap texture s) = Normal tt
  ∨ snd (createOrUpdateMap texture s) = Throw TypeError.
Proof.
  unfold createOrUpdateMap. rewrite bind_gets.
  destruct (BasemapManager.mapMesh (basemapManager s)) as [mesh|].
  - unfold mbind, JS_bind, writeMaterial.
    destruct (Scene.material (scene s) mesh) as [mat|]; [|by right].
    cbn [scene set_scene]. unfold Scene.material, Scene.set_mats.
    cbn [Scene.objs].
    fold (Scene.material (scene s) mesh).
    destruct (Scene.material (scene s) mesh); [by left | by right].
  - by left.
Qed.

(** C8. The promise of [loadBasemap] is rejected with a load error
    exactly when the loader reports that the fetch failed, with the
    loader's reason; and then the call has changed nothing: no mesh is
    built, no texture applied. *)
Theorem loadBasemap_rejects_iff_fetch_fails
    (type : string) (report : FetchResult unit) (s : Viewer) (e : string) :
  (snd (loadBasemap type report s) = Throw (LoadError e)
   ↔ report = Failed e)
  ∧ (report = Failed e -> fst (loadBasemap type report s) = s).
Proof.
  split.
  - destruct report as [u|e']; simpl.
    + split; [|done]. intros Hthrow.
      by destruct (createOrUpdateMap_completion
                     {| Texture.source := basemapUrl type;
                        Texture.wrapS := RepeatWrapping;
                        Texture.wrapT := RepeatWrapping;
                        Texture.repeat := (20, 20) |} s)
        as [H|H]; rewrite H in Hthrow.
    + split; intros H; congruence.
  - by intros ->.
Qed.

(** The rejection reaches the handler that awaits the promise: the
    handler ends on it, and what would follow the [await] does not run. *)
Lemma textureSettled_failed (s : Viewer) (i : nat) (f : Pending.Fetch)
    (e : string) :
  Pending.textures (pending s) !! i = Some f ->
  textureSettled i (Failed e) s
  = (set_pending (Pending.settle i (pending s)) s, Throw (LoadError e)).
Proof.
  intros Hf. unfold textureSettled. by rewrite bind_gets, Hf.
Qed.

End Basemap.

Section BasemapSamples.
#[local] Existing Instance OrbitControls.threejs.

Lemma setVisible_without_mesh_witness :
  setVisible true Sample.loaded = (Sample.loaded, Normal tt).
Proof.
  apply (setVisible_without_mesh Sample.loaded true).
  vm_compute. reflexivity.
Defined.

End BasemapSamples.

(** ** Frames of the methods *)

Section Preservation.
Context (R : relation Viewer) `{!PreOrder R}.

Lemma preserves_ret {A : Type} (a : A) : preserves R (mret a).
Proof. intros s. reflexivity. Qed.

Lemma preserves_gets {A : Type} (g : Viewer -> A) : preserves R (gets g).
Proof. intros s. reflexivity. Qed.

Lemma preserves_throw {A : Type} (e : Exception) : preserves R (@throw A e).
Proof. intros s. reflexivity. Qed.

Lemma preserves_modify (f : Viewer -> Viewer) :
  (∀ s, R s (f s)) -> preserves R (modify f).
Proof. intros Hf s. apply Hf. Qed.

Lemma preserves_bind {A B : Type} (m : JS A) (f : A -> JS B) :
  preserves R m -> (∀ a, preserves R (f a)) -> preserves R (m ≫= f).
Proof.
  intros Hm Hf s. specialize (Hm s). unfold exec in *.
  unfold mbind, JS_bind. destruct (m s) as [s1 [a|e]]; simpl in *.
  - transitivity s1; [exact Hm | apply Hf].
  - exact Hm.
Qed.

Lemma preserves_try_catch (body : JS unit) (handler : Exception -> JS unit) :
  preserves R body -> (∀ e, preserves R (handler e)) ->
  preserves R (try_catch body handler).
Proof.
  intros Hb Hh s. specialize (Hb s). unfold exec in *.
  unfold try_catch. destruct (body s) as [s1 [a|e]]; simpl in *.
  - exact Hb.
  - transitivity s1; [exact Hb | apply Hh].
Qed.

Lemma preserves_await {A : Type} (report : FetchResult A) :
  preserves R (await report).
Proof. destruct report; intros s; reflexivity. Qed.

End Preservation.

(** One step through the structure of a method. *)
Ltac frame_step :=
  lazymatch goal with
  | |- preserves _ (_ ≫= _) => apply preserves_bind; [apply _| |intros ?]
  | |- preserves _ (mret _) => apply preserves_ret; apply _
  | |- preserves _ skip => apply preserves_ret; apply _
  | |- preserves _ (gets _) => apply preserves_gets; apply _
  | |- preserves _ (throw _) => apply preserves_throw; apply _
  | |- preserves _ (await _) => apply preserves_await; apply _
  | |- preserves _ (modify _) => apply preserves_modify
  | |- preserves _ (try_catch _ _) =>
      apply preserves_try_catch; [apply _| |intros ?]
  | |- preserves _ (if ?b then _ else _) => destruct b
  | |- preserves _ (match ?x with _ => _ end) => destruct x
  end.

Section BasemapFrame.
Local Open Scope R_scope.
Context {orbit : OrbitControls.Update}.

#[export] Instance sameBasemap_preorder : PreOrder sameBasemap.
Proof.
  split.
  - intros s. unfold sameBasemap. repeat split; eauto.
  - intros s1 s2 s3 (Hb1 & Hc1 & Ho1 & Hm1) (Hb2 & Hc2 & Ho2 & Hm2).
    split; [congruence|]. split; [congruence|]. split.
    + intros id node H. destruct (Ho1 id node H) as (n1 & H1 & E1).
      destruct (Ho2 id n1 H1) as (n2 & H2 & E2).
      exists n2. split; [done | congruence].
    + intros mat m H. destruct (Hm1 mat m H) as (m1 & H1 & E1).
      destruct (Hm2 mat m1 H1) as (m2 & H2 & E2).
      exists m2. split; [done | congruence].
Qed.

(** A write outside the scene and the manager. *)
Lemma sameBasemap_outside (s s' : Viewer) :
  scene s' = scene s -> basemapManager s' = basemapManager s ->
  sameBasemap s s'.
Proof.
  intros Hs Hb. unfold sameBasemap, sceneObjects. rewrite Hs, Hb.
  repeat split; eauto.
Qed.

Lemma sameBasemap_writeObject (o : ObjId) (f : Object3D.t -> Object3D.t) :
  (∀ node, Object3D.material (f node) = Object3D.material node) ->
  preserves sameBasemap (writeObject o f).
Proof.
  intros Hf s. unfold exec, writeObject, modify, sameBasemap, sceneObjects.
  simpl. repeat split; [|eauto].
  intros id node Hid. destruct (decide (o = id)) as [->|Hne].
  - rewrite lookup_alter_eq, Hid. simpl. eauto.
  - rewrite lookup_alter_ne by done. eauto.
Qed.

Lemma sameBasemap_writeMaterial (o : ObjId) (f : Material.t -> Material.t) :
  (∀ m, Material.map (f m) = Material.map m) ->
  preserves sameBasemap (writeMaterial o f).
Proof.
  intros Hf s. unfold exec, writeMaterial.
  destruct (Scene.material (scene s) o) as [mat|]; [|reflexivity].
  unfold sameBasemap, sceneObjects. simpl. repeat split; [eauto|].
  intros mat' m Hm. destruct (decide (mat = mat')) as [->|Hne].
  - rewrite lookup_alter_eq, Hm. simpl. eauto.
  - rewrite lookup_alter_ne by done. eauto.
Qed.

Lemma sameBasemap_setEmissive (o : ObjId) (c : Color) :
  preserves sameBasemap (setEmissive o c).
Proof.
  intros s. unfold exec, setEmissive.
  destruct (Scene.emissive (scene s) o); [|reflexivity].
  by apply (sameBasemap_writeMaterial o (Material.set_emissive c)).
Qed.

Lemma sameBasemap_setHemisphereColor (p : string) (c : Color) :
  preserves sameBasemap (setHemisphereColor p c).
Proof.
  intros s. unfold exec, setHemisphereColor.
  destruct (HemisphereLight.colorProperty p (hemisphereLight s));
    by apply sameBasemap_outside.
Qed.

Lemma sameBasemap_sceneAdd (c : SceneChild) :
  (∀ id, c <> ChildObject id) -> preserves sameBasemap (sceneAdd c).
Proof.
  intros Hc s. unfold exec, sceneAdd, modify, sameBasemap, sceneObjects.
  simpl. repeat split; [|eauto..].
  rewrite omap_app. simpl. destruct c; try by rewrite app_nil_r.
  by destruct (Hc id).
Qed.

Lemma sameBasemap_traverse (m : Model.t) :
  preserves sameBasemap (traverse enableShadows m).
Proof.
  intros s. unfold exec, traverse, modify, sameBasemap, sceneObjects.
  simpl. repeat split; [|eauto].
  induction (Model.parts m) as [|o parts IH]; simpl; [eauto|].
  intros id node Hid. destruct (IH id node Hid) as (n1 & H1 & E1).
  destruct (decide (o = id)) as [->|Hne].
  - rewrite lookup_alter_eq, H1. simpl. eexists. split; [done|].
    rewrite <- E1. unfold enableShadows. by destruct (Object3D.isMesh n1).
  - rewrite lookup_alter_ne by done. eauto.
Qed.

Lemma sameBasemap_receive (gltf : Gltf.t) :
  preserves sameBasemap (receive gltf).
Proof.
  intros s. unfold exec, receive, sameBasemap, sceneObjects. simpl.
  split; [done|]. split; [by rewrite omap_app, app_nil_r|].
  split; intros k x Hk; exists x; (split; [|done]);
    rewrite lookup_union_l'; eauto.
Qed.

(** A leaf that writes neither the children of the scene nor a store. *)
Ltac frame_same :=
  intros ?; unfold exec, sameBasemap, sceneObjects; simpl;
  repeat split; eauto.

Ltac frame_basemap :=
  repeat frame_step;
  try first
    [ apply sameBasemap_setEmissive
    | apply sameBasemap_setHemisphereColor
    | apply sameBasemap_traverse
    | apply sameBasemap_receive
    | apply sameBasemap_writeObject; done
    | apply sameBasemap_sceneAdd; done
    | frame_same ].

Lemma sameBasemap_updateLighting : preserves sameBasemap updateLighting.
Proof. unfold updateLighting. frame_basemap. Qed.

Lemma sameBasemap_updateBackground : preserves sameBasemap updateBackground.
Proof. frame_same. Qed.

Lemma sameBasemap_controlsUpdate : preserves sameBasemap controlsUpdate.
Proof. frame_same. Qed.

Lemma sameBasemap_initializeModel : preserves sameBasemap initializeModel.
Proof.
  unfold initializeModel. frame_basemap.
Qed.

Lemma sameBasemap_loadModel (report : FetchResult Gltf.t) :
  preserves sameBasemap (loadModel report).
Proof.
  unfold loadModel, hideLoadingScreen, showError.
  apply preserves_try_catch; [apply _| |intros e].
  - apply preserves_bind; [apply _|apply preserves_await; apply _|intros gltf].
    apply preserves_bind; [apply _|apply sameBasemap_receive|intros _].
    apply preserves_bind; [apply _|apply sameBasemap_initializeModel|intros _].
    frame_same.
  - frame_basemap.
Qed.

Lemma sameBasemap_showObjectInfo (object : ObjId) :
  preserves sameBasemap (showObjectInfo object).
Proof. frame_same. Qed.

Lemma sameBasemap_highlightObject (object : ObjId) :
  preserves sameBasemap (highlightObject object).
Proof. unfold highlightObject. frame_basemap. Qed.

Lemma sameBasemap_onClick event rect intersects :
  preserves sameBasemap (onClick event rect intersects).
Proof.
  intros s. unfold exec. rewrite onClick_pointer. cbv zeta.
  set (aimed := set_raycaster _ _).
  assert (Haimed : sameBasemap s aimed) by by apply sameBasemap_outside.
  destruct intersects as [|first others]; [exact Haimed|].
  transitivity aimed; [exact Haimed|].
  apply (preserves_bind sameBasemap
           (showObjectInfo (Raycaster.object first))
           (λ _, highlightObject (Raycaster.object first))).
  - apply sameBasemap_showObjectInfo.
  - intros _. apply sameBasemap_highlightObject.
Qed.

Lemma sameBasemap_setVisible (visible : bool) :
  preserves sameBasemap (setVisible visible).
Proof. unfold setVisible. frame_basemap. Qed.


(** ** One ground plane *)


Lemma basemapTexture_Some (s : Viewer) (texture : Texture.t) :
  basemapTexture s = Some texture ->
  ∃ mesh node mat m,
    BasemapManager.mapMesh (basemapManager s) = Some mesh
    ∧ Scene.objs (scene s) !! mesh = Some node
    ∧ Object3D.material node = Some mat
    ∧ Scene.mats (scene s) !! mat = Some m
    ∧ Material.map m = Some texture.
Proof.
  unfold basemapTexture, Scene.material. intros H.
  destruct (BasemapManager.mapMesh (basemapManager s)) as [mesh|] eqn:Hmesh;
    [|done].
  simpl in H.
  destruct (Scene.objs (scene s) !! mesh) as [node|] eqn:Hnode; [|done].
  simpl in H.
  destruct (Object3D.material node) as [mat|] eqn:Hmat; [|done]. simpl in H.
  destruct (Scene.mats (scene s) !! mat) as [m|] eqn:Hm; [|done]. simpl in H.
  by exists mesh, node, mat, m.
Qed.

Lemma basemapTexture_intro (s : Viewer) mesh node mat m :
  BasemapManager.mapMesh (basemapManager s) = Some mesh ->
  Scene.objs (scene s) !! mesh = Some node ->
  Object3D.material node = Some mat ->
  Scene.mats (scene s) !! mat = Some m ->
  basemapTexture s = Material.map m.
Proof.
  intros Hmesh Hnode Hmat Hm. unfold basemapTexture, Scene.material.
  rewrite Hmesh. simpl. rewrite Hnode. simpl. rewrite Hmat. simpl.
  by rewrite Hm.
Qed.

Lemma sameBasemap_texture (s s' : Viewer) (texture : Texture.t) :
  sameBasemap s s' -> basemapTexture s = Some texture ->
  basemapTexture s' = Some texture.
Proof.
  intros (Hb & _ & Ho & Hm) Htex.
  destruct (basemapTexture_Some s texture Htex)
    as (mesh & node & mat & m & Hmesh & Hnode & Hmat & Hmm & Hmap).
  destruct (Ho mesh node Hnode) as (node' & Hnode' & Enode).
  destruct (Hm mat m Hmm) as (m' & Hm' & Emap).
  rewrite (basemapTexture_intro s' mesh node' mat m'); try done; congruence.
Qed.

(** The state of the ground plane survives every method that leaves the
    basemap alone. *)
Lemma groundPlane_frame (s s' : Viewer) (last : option string) :
  sameBasemap s s' -> groundPlane s last -> groundPlane s' last.
Proof.
  intros Hsame. pose proof Hsame as (Hb & Hc & _ & _).
  unfold groundPlane. rewrite Hb, Hc.
  destruct (BasemapManager.mapMesh (basemapManager s)) as [mesh|]; [|done].
  intros (Hone & texture & Htex & Hlast). split; [done|].
  exists texture. split; [|done]. by eapply sameBasemap_texture.
Qed.

Lemma writeMaterial_run (o : ObjId) (f : Material.t -> Material.t)
    (mat : MatId) (s : Viewer) :
  Scene.material (scene s) o = Some mat ->
  writeMaterial o f s
  = (set_scene
       (Scene.set_mats (alter f mat (Scene.mats (scene s))) (scene s)) s,
     Normal tt).
Proof. intros H. unfold writeMaterial. by rewrite H. Qed.

(** What [createOrUpdateMap] does to the ground plane: the first call
    builds the mesh and adds it to the scene; every later call writes the
    texture of that mesh, and neither the store of nodes nor the children
    of the scene change. *)
Lemma createOrUpdateMap_groundPlane (texture : Texture.t) (s : Viewer)
    (last : option string) :
  groundPlane s last ->
  let s' := exec (createOrUpdateMap texture) s in
  createOrUpdateMap texture s = (s', Normal tt)
  ∧ groundPlane s' (Some (Texture.source texture))
  ∧ basemapTexture s' = Some texture
  ∧ ∀ mesh, BasemapManager.mapMesh (basemapManager s) = Some mesh ->
      BasemapManager.mapMesh (basemapManager s') = Some mesh
      ∧ Scene.objs (scene s') = Scene.objs (scene s)
      ∧ Scene.children (scene s') = Scene.children (scene s).
Proof.
  unfold groundPlane, exec, createOrUpdateMap. rewrite bind_gets.
  destruct (BasemapManager.mapMesh (basemapManager s)) as [mesh|] eqn:Hmesh.
  - intros (Hone & old & Hold & _).
    destruct (basemapTexture_Some s old Hold)
      as (mesh' & node & mat & m & Hmesh' & Hnode & Hmat & Hm & _).
    assert (mesh' = mesh) as -> by congruence.
    assert (Hmaterial : Scene.material (scene s) mesh = Some mat).
    { unfold Scene.material. by rewrite Hnode. }
    rewrite (bind_normal _ _ s _ tt
               (writeMaterial_run mesh _ mat s Hmaterial)).
    cbv beta. set (s1 := set_scene _ s).
    assert (Hmaterial1 : Scene.material (scene s1) mesh = Some mat)
      by exact Hmaterial.
    rewrite (writeMaterial_run mesh _ mat s1 Hmaterial1).
    cbn [fst]. set (s2 := set_scene _ s1).
    assert (Htex : basemapTexture s2 = Some texture).
    { rewrite (basemapTexture_intro s2 mesh node mat
                 (Material.set_needsUpdate true (Material.set_map texture m)));
        try done.
      subst s2 s1. simpl. by rewrite !lookup_alter_eq, Hm. }
    split; [done|].
    change (BasemapManager.mapMesh (basemapManager s2))
      with (BasemapManager.mapMesh (basemapManager s)).
    rewrite Hmesh. split; [|split; [exact Htex|]].
    + split; [exact Hone|]. exists texture. by split.
    + intros ? [= <-]. done.
  - intros [Hnone _].
    unfold mbind, JS_bind, newMaterial, newObject, writeObject, sceneAdd,
      modify.
    cbn [scene set_scene basemapManager set_basemapManager Scene.mats
         Scene.objs Scene.set_mats Scene.set_objs fst snd
         BasemapManager.mapMesh BasemapManager.set_mapMesh].
    set (mat := fresh (dom (Scene.mats (scene s)))).
    set (mesh := fresh (dom (Scene.objs (scene s)))).
    set (s2 := set_scene _ _).
    assert (Htex : basemapTexture s2 = Some texture).
    { rewrite (basemapTexture_intro s2 mesh
                 (Object3D.set_position_y (- 0.01)
                    (Object3D.set_rotation_x (- PI / 2)
                       (Object3D.Mesh (PlaneGeometry 10000 10000) mat)))
                 mat
                 {| Material.emissive := None; Material.map := Some texture;
                    Material.side := DoubleSide;
                    Material.needsUpdate := false |});
        try done.
      - subst s2. simpl. by rewrite !lookup_alter_eq, lookup_insert_eq.
      - subst s2. simpl. apply lookup_insert_eq. }
    split; [done|]. split; [|split; [exact Htex|done]].
    change (BasemapManager.mapMesh (basemapManager s2)) with (Some mesh).
    split.
    + unfold sceneObjects in *. subst s2. simpl.
      rewrite omap_app, Hnone. done.
    + exists texture. by split.
Qed.

Lemma sameBasemap_resume (k : Continuation) :
  preserves sameBasemap (resume k).
Proof.
  destruct k; [apply sameBasemap_setVisible | apply preserves_ret; apply _].
Qed.

(** [resume] builds nothing and adds nothing to the scene. *)
Lemma resume_builds_nothing (k : Continuation) (s : Viewer) :
  dom (Scene.objs (scene (exec (resume k) s))) = dom (Scene.objs (scene s))
  ∧ Scene.children (scene (exec (resume k) s)) = Scene.children (scene s).
Proof.
  destruct k; [|done]. unfold exec, resume, setVisible.
  rewrite bind_gets.
  destruct (BasemapManager.mapMesh (basemapManager s)); [|done].
  simpl. by rewrite dom_alter_L.
Qed.

(** The loader's report on a texture request, and the ground plane. *)
Lemma textureSettled_groundPlane (i : nat) (report : FetchResult unit)
    (s : Viewer) (last : option string) :
  groundPlane s last ->
  let s' := exec (textureSettled i report) s in
  groundPlane s' (resolvedBy s (TextureSettled i report) last)
  ∧ ∀ mesh, BasemapManager.mapMesh (basemapManager s) = Some mesh ->
      BasemapManager.mapMesh (basemapManager s') = Some mesh
      ∧ dom (Scene.objs (scene s')) = dom (Scene.objs (scene s))
      ∧ Scene.children (scene s') = Scene.children (scene s).
Proof.
  intros Hgp. unfold exec, textureSettled, resolvedBy. rewrite bind_gets.
  destruct (Pending.textures (pending s) !! i) as [f|] eqn:Hf.
  - rewrite bind_modify.
    set (s1 := set_pending (Pending.settle i (pending s)) s).
    assert (Hgp1 : groundPlane s1 last).
    { eapply groundPlane_frame; [|exact Hgp]. by apply sameBasemap_outside. }
    destruct report as [u|e].
    + simpl loadBasemap.
      set (texture := Texture.mk (basemapUrl (Pending.type f))
                        RepeatWrapping RepeatWrapping (20, 20)).
      destruct (createOrUpdateMap_groundPlane texture s1 last Hgp1)
        as (Hrun & Hgp2 & _ & Hstable).
      rewrite (bind_normal _ _ s1 _ tt Hrun).
      set (s2 := exec (createOrUpdateMap texture) s1) in *.
      fold (exec (resume (Pending.andThen f)) s2).
      split.
      * eapply groundPlane_frame; [apply sameBasemap_resume|exact Hgp2].
      * intros mesh Hmesh.
        destruct (Hstable mesh Hmesh) as (Hm2 & Ho2 & Hc2).
        destruct (resume_builds_nothing (Pending.andThen f) s2) as [Ho3 Hc3].
        destruct (sameBasemap_resume (Pending.andThen f) s2) as (Hb3 & _).
        rewrite Hb3, Ho3, Hc3, Ho2, Hc2. done.
    + split; [exact Hgp1|done].
  - split; [|done]. by destruct report.
Qed.

(** The manager on its own: calls of [loadBasemap] settling one after the
    other, whatever their types and reports, in the order they settle. *)
Lemma loadBasemap_sequence (calls : list (string * FetchResult unit))
    (s : Viewer) (last : option string) :
  groundPlane s last ->
  groundPlane
    (foldl (λ s call, exec (loadBasemap call.1 call.2) s) s calls)
    (foldl (λ last call,
              match call.2 with
              | Loaded _ => Some (basemapUrl call.1)
              | Failed _ => last
              end) last calls).
Proof.
  revert s last.
  induction calls as [|[type report] calls IH]; intros s last Hgp; [done|].
  simpl. apply IH. destruct report as [u|e]; [|exact Hgp].
  simpl loadBasemap.
  by destruct (createOrUpdateMap_groundPlane
                 (Texture.mk (basemapUrl type) RepeatWrapping
                    RepeatWrapping (20, 20)) s last Hgp) as (_ & ? & _).
Qed.

(** Every handler but the texture callback leaves the basemap alone. *)
Lemma sameBasemap_handle (e : Event) :
  (∀ i report, e <> TextureSettled i report) ->
  preserves sameBasemap (handle e).
Proof.
  intros Hne. destruct e; simpl handle.
  - unfold nightModeChanged.
    apply preserves_bind; [apply _|frame_same|intros _].
    apply preserves_bind; [apply _|apply sameBasemap_updateBackground|intros _].
    apply sameBasemap_updateLighting.
  - unfold basemapToggled.
    apply preserves_bind; [apply _|frame_same|intros _].
    apply preserves_bind; [apply _|apply preserves_gets; apply _|intros show].
    destruct show; [frame_basemap|apply sameBasemap_setVisible].
  - unfold basemapTypeChanged. frame_basemap.
  - by destruct (Hne request report).
  - unfold modelSettled.
    apply preserves_bind; [apply _|apply preserves_gets; apply _|intros l].
    destruct l; [|apply preserves_ret; apply _].
    apply preserves_bind; [apply _|frame_same|intros _].
    apply sameBasemap_loadModel.
  - apply sameBasemap_onClick.
  - unfold onWindowResize. frame_basemap.
  - apply sameBasemap_controlsUpdate.
Qed.

Lemma step_groundPlane (s : Viewer) (e : Event) (last : option string) :
  groundPlane s last ->
  groundPlane (step s e) (resolvedBy s e last)
  ∧ ∀ mesh, BasemapManager.mapMesh (basemapManager s) = Some mesh ->
      BasemapManager.mapMesh (basemapManager (step s e)) = Some mesh.
Proof.
  intros Hgp.
  assert (Hother : (∀ i report, e <> TextureSettled i report) ->
            groundPlane (step s e) last
            ∧ ∀ mesh, BasemapManager.mapMesh (basemapManager s) = Some mesh ->
                BasemapManager.mapMesh (basemapManager (step s e))
                = Some mesh).
  { intros Hne. pose proof (sameBasemap_handle e Hne s) as Hsame.
    split; [by eapply groundPlane_frame|].
    intros mesh Hmesh. destruct Hsame as (Hb & _).
    unfold step. by rewrite Hb. }
  destruct e as [| | |i report| | | |];
    try (apply Hother; intros; discriminate).
  destruct (textureSettled_groundPlane i report s last Hgp) as [H1 H2].
  split; [exact H1|]. intros mesh Hmesh. by destruct (H2 mesh Hmesh).
Qed.

Lemma run_groundPlane (es : list Event) (s : Viewer) (last : option string) :
  groundPlane s last ->
  groundPlane (run s es) (lastResolved s es last)
  ∧ ∀ mesh, BasemapManager.mapMesh (basemapManager s) = Some mesh ->
      BasemapManager.mapMesh (basemapManager (run s es)) = Some mesh.
Proof.
  revert s last. induction es as [|e es IH]; intros s last Hgp; [done|].
  destruct (step_groundPlane s e last Hgp) as [Hgp1 Hm1].
  destruct (IH (step s e) _ Hgp1) as [Hgp2 Hm2].
  split; [exact Hgp2|]. intros mesh Hmesh. apply Hm2, Hm1, Hmesh.
Qed.

Lemma construct_groundPlane (w h : R) (p : Page.t) :
  groundPlane (construct w h p) None.
Proof.
  assert (Hmesh : BasemapManager.mapMesh (basemapManager (construct w h p))
                  = None) by reflexivity.
  assert (Hnone : sceneObjects (construct w h p) = []) by reflexivity.
  unfold groundPlane. rewrite Hmesh. by split.
Qed.

(** C4. In every state the viewer reaches from its construction, through
    any events in any order: the store objects among the children of the
    scene are exactly the manager's mesh, once, if it has one; it has one
    exactly when some basemap request has resolved; the texture of the
    mesh is the one fetched for the request that resolved last; and once
    the mesh exists it stays the manager's mesh and the only one in the
    scene through every further event, a further texture report building
    no object and adding no child. *)
Theorem one_ground_plane (w h : R) (p : Page.t) (es : list Event) :
  let s := run (construct w h p) es in
  let last := lastResolved (construct w h p) es None in
  let mapMesh := λ s, BasemapManager.mapMesh (basemapManager s) in
  sceneObjects s = option_list (mapMesh s)
  ∧ (is_Some (mapMesh s) ↔ is_Some last)
  ∧ Texture.source <$> basemapTexture s = last
  ∧ (∀ mesh es', mapMesh s = Some mesh ->
       mapMesh (run s es') = Some mesh ∧ sceneObjects (run s es') = [mesh])
  ∧ (∀ mesh i report, mapMesh s = Some mesh ->
       let s' := step s (TextureSettled i report) in
       dom (Scene.objs (scene s')) = dom (Scene.objs (scene s))
       ∧ Scene.children (scene s') = Scene.children (scene s)).
Proof.
  intros s last mapMesh.
  destruct (run_groundPlane es (construct w h p) None
              (construct_groundPlane w h p)) as [Hgp _].
  fold s last in Hgp. clearbody s last.
  assert (Hlater : ∀ mesh es', mapMesh s = Some mesh ->
            mapMesh (run s es') = Some mesh
            ∧ sceneObjects (run s es') = [mesh]).
  { intros mesh es' Hmesh.
    destruct (run_groundPlane es' s last Hgp) as [Hgp' Hm'].
    specialize (Hm' mesh Hmesh). split; [exact Hm'|].
    unfold groundPlane in Hgp'. rewrite Hm' in Hgp'. by destruct Hgp'. }
  assert (Hload : ∀ mesh i report, mapMesh s = Some mesh ->
            let s' := step s (TextureSettled i report) in
            dom (Scene.objs (scene s')) = dom (Scene.objs (scene s))
            ∧ Scene.children (scene s') = Scene.children (scene s)).
  { intros mesh i report Hmesh.
    destruct (textureSettled_groundPlane i report s last Hgp) as [_ H].
    by destruct (H mesh Hmesh) as (_ & ? & ?). }
  unfold groundPlane in Hgp. subst mapMesh. cbv beta in *.
  destruct (BasemapManager.mapMesh (basemapManager s)) as [mesh|] eqn:Hmesh.
  - destruct Hgp as (Hone & texture & Htex & ->).
    rewrite Htex.
    split; [exact Hone|]. split; [split; eauto|]. split; [done|].
    split; [exact Hlater|exact Hload].
  - destruct Hgp as [Hnone ->].
    assert (Htex : basemapTexture s = None).
    { unfold basemapTexture. by rewrite Hmesh. }
    rewrite Htex.
    split; [exact Hnone|]. split; [split; by intros [? ?]|]. split; [done|].
    split; [exact Hlater|exact Hload].
Qed.

End BasemapFrame.

(** ** The hemisphere light along a run *)

Section HemisphereFrame.
Local Open Scope R_scope.
Context {orbit : OrbitControls.Update}.

#[export] Instance sameHemisphere_preorder : PreOrder sameHemisphere.
Proof.
  split.
  - intros s. reflexivity.
  - intros s1 s2 s3 H1 H2. unfold sameHemisphere in *. congruence.
Qed.

(** A leaf that does not write the hemisphere light. *)
Ltac hemisphere_leaf :=
  try intros ?;
  unfold exec, sameHemisphere, setEmissive, writeMaterial, writeObject,
    newMaterial, newObject, sceneAdd, traverse, controlsUpdate, modify;
  simpl; repeat (case_match; simpl); reflexivity.

Ltac frame_hemisphere := repeat frame_step; try hemisphere_leaf.

Lemma sameHemisphere_updateLighting : preserves sameHemisphere updateLighting.
Proof.
  intros s. by destruct (updateLighting_stops s) as (_ & _ & _ & H & _).
Qed.

Lemma sameHemisphere_initializeModel :
  preserves sameHemisphere initializeModel.
Proof. unfold initializeModel. frame_hemisphere. Qed.

Lemma sameHemisphere_highlightObject (object : ObjId) :
  preserves sameHemisphere (highlightObject object).
Proof. unfold highlightObject. frame_hemisphere. Qed.

Lemma sameHemisphere_setVisible (visible : bool) :
  preserves sameHemisphere (setVisible visible).
Proof. unfold setVisible. frame_hemisphere. Qed.

Lemma sameHemisphere_createOrUpdateMap (texture : Texture.t) :
  preserves sameHemisphere (createOrUpdateMap texture).
Proof. unfold createOrUpdateMap. frame_hemisphere. Qed.

(** No handler writes the hemisphere light. *)
Lemma sameHemisphere_handle (e : Event) : preserves sameHemisphere (handle e).
Proof.
  destruct e; simpl handle.
  - unfold nightModeChanged.
    apply preserves_bind; [apply _|hemisphere_leaf|intros _].
    apply preserves_bind; [apply _|hemisphere_leaf|intros _].
    apply sameHemisphere_updateLighting.
  - unfold basemapToggled.
    apply preserves_bind; [apply _|hemisphere_leaf|intros _].
    apply preserves_bind; [apply _|apply preserves_gets; apply _|intros show].
    destruct show; [frame_hemisphere|apply sameHemisphere_setVisible].
  - unfold basemapTypeChanged. frame_hemisphere.
  - unfold textureSettled.
    apply preserves_bind; [apply _|apply preserves_gets; apply _|intros rq].
    destruct rq as [f|]; [|apply preserves_ret; apply _].
    apply preserves_bind; [apply _|hemisphere_leaf|intros _].
    apply preserves_bind; [apply _| |intros _].
    + destruct report; simpl loadBasemap;
        [apply sameHemisphere_createOrUpdateMap
        |apply preserves_throw; apply _].
    + destruct (Pending.andThen f);
        [apply sameHemisphere_setVisible|apply preserves_ret; apply _].
  - unfold modelSettled.
    apply preserves_bind; [apply _|apply preserves_gets; apply _|intros l].
    destruct l; [|apply preserves_ret; apply _].
    apply preserves_bind; [apply _|hemisphere_leaf|intros _].
    unfold loadModel, receive, hideLoadingScreen, showError.
    apply preserves_try_catch; [apply _| |intros err].
    + apply preserves_bind;
        [apply _|apply preserves_await; apply _|intros gltf].
      apply preserves_bind; [apply _|frame_hemisphere|intros _].
      apply preserves_bind;
        [apply _|apply sameHemisphere_initializeModel|intros _].
      hemisphere_leaf.
    + frame_hemisphere.
  - unfold onClick, showObjectInfo.
    apply preserves_bind; [apply _|hemisphere_leaf|intros _].
    apply preserves_bind; [apply _|hemisphere_leaf|intros _].
    apply preserves_bind; [apply _|hemisphere_leaf|intros _].
    destruct intersects as [|first others]; [apply preserves_ret; apply _|].
    apply preserves_bind; [apply _|frame_hemisphere|intros _].
    apply sameHemisphere_highlightObject.
  - unfold onWindowResize. frame_hemisphere.
  - hemisphere_leaf.
Qed.

(** In every state the viewer reaches, the hemisphere light is the one
    [setupLighting] built. *)
Lemma hemisphere_never_written (w h : R) (p : Page.t) (es : list Event) :
  hemisphereLight (run (construct w h p) es)
  = {| HemisphereLight.color := 0x87CEEB;
       HemisphereLight.groundColor := 0x6b5d47;
       HemisphereLight.intensity := 0.5 |}.
Proof.
  transitivity (hemisphereLight (construct w h p)); [|reflexivity].
  generalize (construct w h p). induction es as [|e es IH]; intros s; [done|].
  simpl. rewrite IH. apply sameHemisphere_handle.
Qed.

(** C5 at its failing input. The night-mode checkbox is checked, in any
    state the viewer has reached: the handler sets the background to the
    night colour and the ambient and directional lights to their night
    values, then ends on a [TypeError]; the hemisphere light keeps its
    day values, so the lights the next frame shows match neither
    preset. *)
Theorem night_toggle_mixes_presets (w h : R) (p : Page.t) (es : list Event) :
  let s := run (construct w h p) es in
  let s' := step s (NightModeChange true) in
  handle (NightModeChange true) s = (s', Throw TypeError)
  ∧ isNight s' = true
  ∧ Scene.background (scene s') = Some nightColor
  ∧ Lighting.ambient (Lighting.current s')
    = Lighting.ambient (Lighting.preset true)
  ∧ Lighting.directional (Lighting.current s')
    = Lighting.directional (Lighting.preset true)
  ∧ Lighting.hemisphere (Lighting.current s')
    = Lighting.hemisphere (Lighting.preset false)
  ∧ Lighting.current s' <> Lighting.preset true
  ∧ Lighting.current s' <> Lighting.preset false.
Proof.
  intros s s'.
  pose proof (hemisphere_never_written w h p es) as Hday. fold s in Hday.
  destruct (nightModeChanged_stops true s)
    as (Hrun & Hnight & Hbg & Ha & Hd & Hh).
  fold s' in Hrun, Hnight, Hbg, Ha, Hd, Hh.
  clearbody s s'.
  assert (Hhemi : Lighting.hemisphere (Lighting.current s')
                  = Lighting.hemisphere (Lighting.preset false)).
  { unfold Lighting.current, Lighting.hemisphere. by rewrite Hh, Hday. }
  repeat split; try assumption.
  - intros Heq. rewrite Heq in Hhemi. simpl in Hhemi.
    injection Hhemi. lra.
  - intros Heq. rewrite Heq in Ha. simpl in Ha. lra.
Qed.

End HemisphereFrame.

(** ** Two overlapping basemap requests *)

Section BasemapRace.
#[local] Existing Instance OrbitControls.threejs.

(** The basemap is switched on with type "osm", the type is changed to
    "satellite" while the first texture is still loading, and the second
    request resolves before the first: one mesh, carrying the texture of
    the request that resolved last, the earlier one. *)
Example overlapping_requests :
  let s := run Sample.viewer
             [BasemapToggleChange true; BasemapTypeChange "satellite";
              TextureSettled 1 (Loaded tt); TextureSettled 0 (Loaded tt)] in
  sceneObjects s = [0%nat]
  ∧ BasemapManager.mapMesh (basemapManager s) = Some 0%nat
  ∧ Texture.source <$> basemapTexture s
    = Some "https://a.tile.openstreetmap.org/0/0/0.png"
  ∧ Object3D.visible <$> Scene.objs (scene s) !! 0%nat = Some true
  ∧ basemapType s = "satellite".
Proof. vm_compute. done. Qed.

End BasemapRace.

(** * Further properties of the code *)

(** ** Where the camera ends *)

Section FittingMore.
Local Open Scope R_scope.

Lemma maxDim_bounds (size : Vector3) :
  let d := Rmax (Rmax (vx size) (vy size)) (vz size) in
  vx size <= d ∧ vy size <= d ∧ vz size <= d.
Proof.
  simpl. pose proof (Rmax_l (Rmax (vx size) (vy size)) (vz size)).
  pose proof (Rmax_r (Rmax (vx size) (vy size)) (vz size)).
  pose proof (Rmax_l (vx size) (vy size)).
  pose proof (Rmax_r (vx size) (vy size)).
  repeat split; lra.
Qed.

(** The distance is at least 1.2 times the largest dimension. *)
Lemma fitDistance_lower (fov : R) (size : Vector3) :
  let d := Rmax (Rmax (vx size) (vy size)) (vz size) in
  0 < d -> sin (fov * (PI / 180) / 2) <> 0 ->
  1.2 * d <= fitDistance fov size.
Proof.
  intros d Hd Hsin. unfold fitDistance. fold d.
  set (x := sin (fov * (PI / 180) / 2)) in *.
  assert (Hx : 0 < Rabs x <= 1).
  { split; [by apply Rabs_pos_lt|].
    apply Rabs_le. pose proof (SIN_bound (fov * (PI / 180) / 2)). done. }
  unfold Rdiv. rewrite Rabs_mult, Rabs_inv, (Rabs_right d) by lra.
  assert (Hinv : 1 <= / Rabs x).
  { rewrite <- Rinv_1. apply Rinv_le_contravar; lra. }
  nra.
Qed.

(** A box of positive size is not empty: its centre is the midpoint of
    its corners, its size their difference, and no coordinate of [max]
    lies below that of [min]. *)
Lemma box_of_positive_size (min max : Vector3) :
  let size := Box3.getSize (Box3.box min max) in
  0 < Rmax (Rmax (vx size) (vy size)) (vz size) ->
  Box3.getCenter (Box3.box min max)
  = Vec3 ((vx min + vx max) * 0.5) ((vy min + vy max) * 0.5)
         ((vz min + vz max) * 0.5)
  ∧ size = Vec3 (vx max - vx min) (vy max - vy min) (vz max - vz min)
  ∧ vx min <= vx max ∧ vy min <= vy max ∧ vz min <= vz max.
Proof.
  intros size Hd. subst size. unfold Box3.getCenter, Box3.getSize in *.
  destruct (Box3.isEmpty (Box3.box min max)) eqn:Hempty.
  - exfalso. simpl in Hd. revert Hd. unfold Rmax.
    repeat destruct (Rle_dec _ _); lra.
  - split; [done|]. split; [done|].
    unfold Box3.isEmpty in Hempty.
    apply orb_false_iff in Hempty as [Hxy Hz].
    apply orb_false_iff in Hxy as [Hx Hy].
    apply bool_decide_eq_false in Hx, Hy, Hz. lra.
Qed.

(** A point of a box lies within [sqrt 0.75] times the largest dimension
    of the box from its centre. *)
Lemma box_within_sphere (min max p : Vector3) (d : R) :
  vx min <= vx p <= vx max -> vy min <= vy p <= vy max ->
  vz min <= vz p <= vz max ->
  vx max - vx min <= d -> vy max - vy min <= d -> vz max - vz min <= d ->
  distanceTo p
    (Vec3 ((vx min + vx max) * 0.5) ((vy min + vy max) * 0.5)
          ((vz min + vz max) * 0.5))
  <= sqrt 0.75 * d.
Proof.
  intros Hx Hy Hz Hdx Hdy Hdz.
  assert (Hd : 0 <= d) by lra.
  rewrite <- (sqrt_Rsqr d) at 1 by exact Hd.
  rewrite <- sqrt_mult_alt by lra.
  unfold distanceTo. apply sqrt_le_1_alt. cbn [vx vy vz]. unfold Rsqr.
  nra.
Qed.

Lemma sqrt_075_upper : sqrt 0.75 < 0.9.
Proof.
  rewrite <- (sqrt_Rsqr 0.9) by lra.
  apply sqrt_lt_1_alt. unfold Rsqr. lra.
Qed.

(** On the first fitting of a model of positive size, with a field of
    view whose half angle has a sine other than zero, when no pan or zoom
    is pending and the fitted distance is within the controller's
    [maxDistance]: the camera ends farther from the centre of the model's
    box than any point of the box is, outside the sphere around the
    model. *)
Theorem fitted_camera_outside (s : Viewer) (m : Model.t)
    (min max : Vector3) :
  model s = Some m -> initialized s = false ->
  0 <= OrbitControls.minDistance (controls s) ->
  OrbitControls.panOffset (controls s) = Vec3 0 0 0 ->
  OrbitControls.scale (controls s) = 1 ->
  let box := Model.setFromObject (groundModel m) in
  let center := Box3.getCenter box in
  let size := Box3.getSize box in
  box = Box3.box min max ->
  0 < Rmax (Rmax (vx size) (vy size)) (vz size) ->
  sin (Camera.fov (camera s) * (PI / 180) / 2) <> 0 ->
  sqrt 1.14 * fitDistance (Camera.fov (camera s)) size
  <= OrbitControls.maxDistance (controls s) ->
  let s' := exec (initializeModel (orbit := OrbitControls.threejs)) s in
  ∀ p, vx min <= vx p <= vx max -> vy min <= vy p <= vy max ->
       vz min <= vz p <= vz max ->
       distanceTo p center < distanceTo (Camera.position (camera s')) center.
Proof.
  intros Hm Hdone Hmin Hpan Hscale box center size Hbox Hd Hsin Hmax s' p
    Hx Hy Hz.
  destruct (initializeModel_reach s m Hm Hdone Hmin)
    as (Htarget & Hreach & _).
  cbv zeta in Htarget, Hreach. fold box s' in Htarget, Hreach.
  subst center size. clearbody box s'. subst box.
  destruct (box_of_positive_size min max Hd) as (Hmid & Hsize & _).
  cbv zeta in Hsize. rewrite Hmid, Hsize in *.
  assert (Hcenter : OrbitControls.target (controls s')
            = Vec3 ((vx min + vx max) * 0.5) ((vy min + vy max) * 0.5)
                   ((vz min + vz max) * 0.5)).
  { rewrite Htarget, Hpan. cbn [vx vy vz]. f_equal; lra. }
  rewrite Hcenter, Hscale in Hreach. rewrite Hreach.
  pose proof (fitDistance_lower _ _ Hd Hsin) as Hlow. cbv zeta in Hlow.
  destruct (maxDim_bounds
              (Vec3 (vx max - vx min) (vy max - vy min) (vz max - vz min)))
    as (Hsx & Hsy & Hsz).
  cbn [vx vy vz] in Hsx, Hsy, Hsz, Hlow, Hd.
  set (d := Rmax (Rmax (vx max - vx min) (vy max - vy min))
              (vz max - vz min)) in *.
  set (D := fitDistance _ _) in *.
  pose proof (box_within_sphere min max p d Hx Hy Hz Hsx Hsy Hsz) as Hin.
  destruct sqrt_114_bounds as [Hs1 _]. pose proof sqrt_075_upper as Hs2.
  assert (Hfar : sqrt 1.14 * D * 1
                 <= clamp (sqrt 1.14 * D * 1)
                      (OrbitControls.minDistance (controls s))
                      (OrbitControls.maxDistance (controls s))).
  { unfold clamp. rewrite Rmin_right by lra. apply Rmax_r. }
  clearbody d D. nra.
Qed.

End FittingMore.

(** ** The pointer, the panel and the highlight *)

Section PickingMore.
Local Open Scope R_scope.
Context {orbit : OrbitControls.Update}.

Lemma emissiveOnly_refl (mats : gmap nat Material.t) : emissiveOnly mats mats.
Proof. intros mat m Hm. exists m. repeat split; eauto. Qed.

Lemma emissiveOnly_trans (m1 m2 m3 : gmap nat Material.t) :
  emissiveOnly m1 m2 -> emissiveOnly m2 m3 -> emissiveOnly m1 m3.
Proof.
  intros H12 H23 mat m Hm.
  destruct (H12 mat m Hm) as (m' & Hm' & E1 & E2 & E3 & E4 & E5).
  destruct (H23 mat m' Hm') as (m'' & Hm'' & F1 & F2 & F3 & F4 & F5).
  exists m''. repeat split; try congruence.
  - intros Hnone. rewrite <- (E4 Hnone). apply F4.
    by rewrite (E4 Hnone).
  - intros Hsome. by apply F5, E5.
Qed.

Lemma set_scene_mats_same (s : Viewer) :
  set_scene (Scene.set_mats (Scene.mats (scene s)) (scene s)) s = s.
Proof. by destruct s as [? ? ? ? ? []]. Qed.

(** What [setEmissive] writes is a material of the store, nothing else. *)
Lemma setEmissive_writes (o : ObjId) (c : Color) (s : Viewer) :
  ∃ mats', exec (setEmissive o c) s
           = set_scene (Scene.set_mats mats' (scene s)) s
    ∧ emissiveOnly (Scene.mats (scene s)) mats'.
Proof.
  unfold exec, setEmissive, writeMaterial.
  destruct (Scene.emissive (scene s) o) as [e|] eqn:He.
  - unfold Scene.emissive in He.
    destruct (Scene.material (scene s) o) as [mat0|]; [|done].
    simpl in He.
    destruct (Scene.mats (scene s) !! mat0) as [m0|] eqn:Hm0; [|done].
    simpl in He. simpl. eexists. split; [reflexivity|].
    intros mat m Hm. destruct (decide (mat0 = mat)) as [<-|Hne].
    + rewrite lookup_alter_eq, Hm0. simpl. eexists. split; [done|].
      assert (m = m0) as -> by congruence.
      repeat split; try done. rewrite He. done.
    + rewrite lookup_alter_ne by done. exists m. repeat split; eauto.
  - exists (Scene.mats (scene s)). split.
    + simpl. by rewrite set_scene_mats_same.
    + apply emissiveOnly_refl.
Qed.

(** [highlightObject] writes the selection and the emissive colour of
    materials that have one, and nothing else: every other field of the
    viewer, the nodes, and the texture, side and update flag of every
    material are what they were, and a material without emissive colour
    is untouched. *)
Lemma highlightObject_frame (s : Viewer) (object : ObjId) :
  ∃ mats',
    exec (highlightObject object) s
    = set_selectedObject object
        (set_scene (Scene.set_mats mats' (scene s)) s)
    ∧ emissiveOnly (Scene.mats (scene s)) mats'.
Proof.
  unfold exec. rewrite highlightObject_run. cbv zeta. cbn [fst].
  set (s1 := match selectedObject s with Some a => _ | None => s end).
  assert (H1 : ∃ mats1, s1 = set_scene (Scene.set_mats mats1 (scene s)) s
                 ∧ emissiveOnly (Scene.mats (scene s)) mats1).
  { subst s1. destruct (selectedObject s) as [a|];
      [destruct (hasEmissive s (Some a))|].
    - apply setEmissive_writes.
    - exists (Scene.mats (scene s)).
      split; [by rewrite set_scene_mats_same|apply emissiveOnly_refl].
    - exists (Scene.mats (scene s)).
      split; [by rewrite set_scene_mats_same|apply emissiveOnly_refl]. }
  destruct H1 as (mats1 & Hs1 & He1).
  destruct (hasEmissive s1 (Some object)).
  - destruct (setEmissive_writes object 0xffd700 s1) as (mats2 & -> & He2).
    exists mats2. rewrite Hs1 in *. simpl in *. split; [done|].
    by eapply emissiveOnly_trans.
  - exists mats1. by rewrite Hs1.
Qed.

(** [highlightObject] never throws, whatever the object and the
    selection are made of, and it writes the selection and emissive
    colours only: the nodes, the children of the scene, the page, the
    camera, the basemap manager and the pending fetches are what they
    were; every material is still there with its texture, side and
    update flag; and a material without emissive colour is untouched. *)
Theorem highlightObject_writes (s : Viewer) (object : ObjId) :
  let s' := exec (highlightObject object) s in
  highlightObject object s = (s', Normal tt)
  ∧ selectedObject s' = Some object
  ∧ Scene.objs (scene s') = Scene.objs (scene s)
  ∧ Scene.children (scene s') = Scene.children (scene s)
  ∧ Scene.background (scene s') = Scene.background (scene s)
  ∧ page s' = page s ∧ camera s' = camera s
  ∧ basemapManager s' = basemapManager s ∧ pending s' = pending s
  ∧ ∀ mat m, Scene.mats (scene s) !! mat = Some m ->
      ∃ m', Scene.mats (scene s') !! mat = Some m'
        ∧ Material.map m' = Material.map m
        ∧ Material.side m' = Material.side m
        ∧ Material.needsUpdate m' = Material.needsUpdate m
        ∧ (Material.emissive m = None -> m' = m)
        ∧ (is_Some (Material.emissive m) -> is_Some (Material.emissive m')).
Proof.
  intros s'. subst s'.
  destruct (highlightObject_frame s object) as (mats' & Hw & Honly).
  pose proof (highlightObject_run s object) as Hrun. cbv zeta in Hrun.
  unfold exec in *. rewrite Hrun in Hw |- *. cbn [fst] in Hw |- *.
  rewrite Hw. repeat split; try reflexivity. exact Honly.
Qed.

(** A write of the emissive colour of [b] leaves the colour of an object
    with another material alone. *)
Lemma setEmissive_other (s : Viewer) (a b : ObjId) (c : Color) :
  Scene.material (scene s) b <> Scene.material (scene s) a ->
  Scene.emissive (scene (exec (setEmissive b c) s)) a
  = Scene.emissive (scene s) a.
Proof.
  intros Hne. unfold exec, setEmissive, writeMaterial.
  destruct (Scene.emissive (scene s) b); [|done].
  destruct (Scene.material (scene s) b) as [mb|] eqn:Hb; [|done].
  unfold Scene.emissive, Scene.material in *. simpl.
  destruct (Scene.objs (scene s) !! a ≫= Object3D.material) as [ma|];
    [|done].
  simpl. rewrite lookup_alter_ne; [done|congruence].
Qed.

(** Selecting an object with another material than the selected one:
    the object that was selected ends with the emissive colour 0x000000,
    whatever colour its material had before it was first highlighted. *)
Theorem deselected_turns_black (s : Viewer) (a b : ObjId) :
  selectedObject s = Some a ->
  hasEmissive s (Some a) = true ->
  Scene.material (scene s) b <> Scene.material (scene s) a ->
  Scene.emissive (scene (exec (highlightObject b) s)) a = Some 0x000000%Z.
Proof.
  intros Hsel Ha Hne. unfold exec.
  pose proof (highlightObject_run s b) as Hrun. cbv zeta in Hrun.
  rewrite Hsel, Ha in Hrun. rewrite Hrun. cbn [fst].
  destruct (setEmissive_guarded s a 0x000000 Ha) as (_ & Hblack & Hobjs).
  set (s1 := exec (setEmissive a 0x000000) s) in *.
  assert (Hne1 : Scene.material (scene s1) b <> Scene.material (scene s1) a).
  { unfold Scene.material. by rewrite Hobjs. }
  destruct (hasEmissive s1 (Some b)); [|exact Hblack].
  change (Scene.emissive (scene (exec (setEmissive b 0xffd700) s1)) a
          = Some 0%Z).
  by rewrite setEmissive_other.
Qed.

(** Selecting an object that shares its material with the selected one,
    the selected object itself included: the reset is overwritten, and
    both end with the accent colour 0xffd700. *)
Theorem shared_material_stays_highlighted (s : Viewer) (a b : ObjId) :
  selectedObject s = Some a ->
  hasEmissive s (Some a) = true ->
  Scene.material (scene s) b = Scene.material (scene s) a ->
  let s' := exec (highlightObject b) s in
  Scene.emissive (scene s') a = Some 0xffd700%Z
  ∧ Scene.emissive (scene s') b = Some 0xffd700%Z.
Proof.
  intros Hsel Ha Heq s'. subst s'. unfold exec.
  pose proof (highlightObject_run s b) as Hrun. cbv zeta in Hrun.
  rewrite Hsel, Ha in Hrun. rewrite Hrun. cbn [fst].
  destruct (setEmissive_guarded s a 0x000000 Ha) as (_ & Hblack & Hobjs).
  set (s1 := exec (setEmissive a 0x000000) s) in *.
  assert (Heq1 : Scene.material (scene s1) b = Scene.material (scene s1) a).
  { unfold Scene.material. by rewrite Hobjs. }
  assert (Hsame : ∀ sc, Scene.material sc b = Scene.material sc a ->
            Scene.emissive sc b = Scene.emissive sc a).
  { intros sc E. unfold Scene.emissive. by rewrite E. }
  assert (Hb : hasEmissive s1 (Some b) = true).
  { unfold hasEmissive. apply bool_decide_eq_true. simpl.
    rewrite (Hsame _ Heq1), Hblack. eauto. }
  rewrite Hb.
  destruct (setEmissive_guarded s1 b 0xffd700 Hb) as (_ & Hgold & Hobjs2).
  set (s2 := exec (setEmissive b 0xffd700) s1) in *.
  assert (Ha2 : Scene.emissive (scene s2) a = Some 0xffd700%Z).
  { rewrite <- (Hsame (scene s2)); [exact Hgold|].
    unfold Scene.material. rewrite Hobjs2. exact Heq1. }
  split; [exact Ha2|exact Hgold].
Qed.

(** The lines the panel shows for a list of attributes are empty only
    for the empty list. *)
Lemma details_nonempty (data : list (string * string)) :
  data <> [] -> String.concat "" (detailsLine <$> data) <> "".
Proof.
  destruct data as [|[k v] data]; [done|]. intros _. simpl.
  destruct data; simpl; discriminate.
Qed.

Lemma showObjectInfo_shown (s : Viewer) (object : ObjId) :
  let p := page (exec (showObjectInfo object) s) in
  showObjectInfo object s = (exec (showObjectInfo object) s, Normal tt)
  ∧ Page.panelDisplay p = "block"
  ∧ Page.objectName p <> ""
  ∧ Page.objectDetails p <> "".
Proof.
  unfold exec, showObjectInfo. rewrite bind_gets. simpl.
  set (name := from_option Object3D.name "" _).
  set (data := from_option Object3D.userData [] _).
  split; [done|]. split; [done|].
  split; [by destruct (decide (name = ""))|].
  destruct data as [|entry data]; [done|].
  by apply details_nonempty.
Qed.

(** Whatever object is shown, and be it none of the store, the info
    panel is displayed with a name and with details, neither of them
    empty: an object without name is shown as "Unnamed Object" and one
    with a name under that name; one without attributes is shown with
    the placeholder "<i>No attributes</i>", and one with attributes with
    one line for each, in their order. Nothing but the page is
    written. *)
Theorem showObjectInfo_never_blank (s : Viewer) (object : ObjId) :
  let s' := exec (showObjectInfo object) s in
  let node := Scene.objs (scene s) !! object in
  let name := from_option Object3D.name "" node in
  let data := from_option Object3D.userData [] node in
  Page.panelDisplay (page s') = "block"
  ∧ Page.objectName (page s') <> ""
  ∧ Page.objectDetails (page s') <> ""
  ∧ Page.objectName (page s')
    = (if decide (name = "") then "Unnamed Object" else name)
  ∧ Page.objectDetails (page s')
    = match data with
      | [] => "<i>No attributes</i>"
      | _ => String.concat "" (detailsLine <$> data)
      end
  ∧ scene s' = scene s ∧ selectedObject s' = selectedObject s
  ∧ Page.overlayHidden (page s') = Page.overlayHidden (page s)
  ∧ Page.overlayHTML (page s') = Page.overlayHTML (page s).
Proof.
  intros s' node name data.
  destruct (showObjectInfo_shown s object) as (_ & Hp & Hn & Hd).
  fold s' in Hp, Hn, Hd.
  split; [exact Hp|]. split; [exact Hn|]. split; [exact Hd|].
  subst s'. unfold exec, showObjectInfo. rewrite bind_gets. simpl.
  fold node. fold name. fold data.
  split; [done|]. split; [by destruct data|done].
Qed.

(** Showing and highlighting an object leave the pointer and the ray of
    the click alone. *)
Lemma highlight_after_info_pointer (s : Viewer) (object : ObjId) :
  let s' := exec (showObjectInfo object ≫= λ _, highlightObject object) s in
  mouse s' = mouse s ∧ raycaster s' = raycaster s.
Proof.
  unfold exec. rewrite (bind_normal _ _ s (exec (showObjectInfo object) s) tt)
    by reflexivity.
  destruct (highlightObject_frame (exec (showObjectInfo object) s) object)
    as (mats' & Hw & _).
  unfold exec in Hw at 1. rewrite Hw. done.
Qed.

End PickingMore.

(** ** The pointer of a click *)

Section PointerMore.
Local Open Scope R_scope.
Context {orbit : OrbitControls.Update}.

Lemma onClick_mouse (s : Viewer) event rect intersects :
  let s' := exec (onClick event rect intersects) s in
  mouse s'
  = Vec2 (((MouseEvent.clientX event - DOMRect.left rect)
             / DOMRect.width rect) * 2 - 1)
         ((- ((MouseEvent.clientY event - DOMRect.top rect)
                / DOMRect.height rect)) * 2 + 1)
  ∧ Raycaster.coords (raycaster s') = mouse s'.
Proof.
  cbv zeta. unfold exec. rewrite onClick_pointer. cbv zeta.
  destruct intersects as [|first others]; [done|].
  set (aimed := set_raycaster _ _).
  destruct (highlight_after_info_pointer aimed (Raycaster.object first))
    as [Hm Hr].
  unfold exec in Hm, Hr. rewrite Hm, Hr. done.
Qed.

(** A click inside the canvas, whatever it hits: the pointer handed to
    the raycaster lies in the square from -1 to 1 in both coordinates,
    with the left edge of the canvas at -1 and, the vertical axis being
    turned over, its top edge at 1 and its bottom edge at -1. *)
Theorem click_pointer_in_range (s : Viewer) event rect intersects :
  0 < DOMRect.width rect -> 0 < DOMRect.height rect ->
  DOMRect.left rect <= MouseEvent.clientX event
    <= DOMRect.left rect + DOMRect.width rect ->
  DOMRect.top rect <= MouseEvent.clientY event
    <= DOMRect.top rect + DOMRect.height rect ->
  let s' := exec (onClick event rect intersects) s in
  -1 <= v2x (mouse s') <= 1
  ∧ -1 <= v2y (mouse s') <= 1
  ∧ Raycaster.coords (raycaster s') = mouse s'
  ∧ (MouseEvent.clientX event = DOMRect.left rect -> v2x (mouse s') = -1)
  ∧ (MouseEvent.clientY event = DOMRect.top rect -> v2y (mouse s') = 1)
  ∧ (MouseEvent.clientY event = DOMRect.top rect + DOMRect.height rect ->
     v2y (mouse s') = -1).
Proof.
  intros Hw Hh Hx Hy s'.
  destruct (onClick_mouse s event rect intersects) as [Hm Hr].
  fold s' in Hm, Hr. rewrite Hm. cbn [v2x v2y].
  set (qx := (MouseEvent.clientX event - DOMRect.left rect)
             / DOMRect.width rect).
  set (qy := (MouseEvent.clientY event - DOMRect.top rect)
             / DOMRect.height rect).
  assert (Hqx : qx * DOMRect.width rect
                = MouseEvent.clientX event - DOMRect.left rect).
  { subst qx. field. lra. }
  assert (Hqy : qy * DOMRect.height rect
                = MouseEvent.clientY event - DOMRect.top rect).
  { subst qy. field. lra. }
  assert (0 <= qx <= 1) by (split; nra).
  assert (0 <= qy <= 1) by (split; nra).
  split; [lra|]. split; [lra|]. split; [by rewrite Hr, Hm|].
  split; [intros E; nra|]. split; intros E; nra.
Qed.

End PointerMore.

(** ** Shadows, and a model that fails to load *)

Section LoadingMore.
Local Open Scope R_scope.
Context {orbit : OrbitControls.Update}.

(** A traversal writes the nodes it visits, each as if visited once when
    the callback does nothing to a node it has already written. *)
Lemma traverse_lookup (f : Object3D.t -> Object3D.t) (parts : list ObjId)
    (objs : gmap ObjId Object3D.t) (id : ObjId) :
  (∀ o, f (f o) = f o) ->
  foldr (alter f) objs parts !! id
  = (if decide (id ∈ parts) then f else λ o, o) <$> objs !! id.
Proof.
  intros Hf. induction parts as [|o parts IH].
  - destruct (decide (id ∈ [])) as [Hin|_];
      [by apply elem_of_nil in Hin|].
    simpl. by destruct (objs !! id).
  - cbn [foldr]. destruct (decide (o = id)) as [->|Hne].
    + rewrite lookup_alter_eq, IH.
      destruct (decide (id ∈ id :: parts)) as [_|Hout];
        [|by destruct Hout; apply elem_of_cons; left].
      destruct (decide (id ∈ parts)); destruct (objs !! id); simpl;
        by rewrite ?Hf.
    + rewrite lookup_alter_ne by done. rewrite IH.
      destruct (decide (id ∈ parts)) as [Hin|Hout];
        destruct (decide (id ∈ o :: parts)) as [Hin'|Hout']; try done.
      * destruct Hout'. apply elem_of_cons. by right.
      * apply elem_of_cons in Hin' as [->|?]; done.
Qed.

(** The whole of the first fitting, as one state. *)
Lemma initializeModel_first (s : Viewer) (m : Model.t) :
  model s = Some m -> initialized s = false ->
  let grounded := groundModel m in
  let center := Box3.getCenter (Model.setFromObject grounded) in
  let distance :=
    fitDistance (Camera.fov (camera s))
      (Box3.getSize (Model.setFromObject grounded)) in
  let updated :=
    OrbitControls.update (OrbitControls.set_target center (controls s))
      (Camera.set_lookAt center
         (Camera.set_position (fitPosition center distance) (camera s))) in
  exec initializeModel s
  = set_initialized true
      (set_scene
         (Scene.set_objs
            (foldr (alter enableShadows) (Scene.objs (scene s))
               (Model.parts m))
            (scene s))
         (set_camera updated.2
            (set_controls updated.1 (set_model grounded s)))).
Proof.
  intros Hm Hdone. unfold exec, initializeModel.
  rewrite !bind_gets, Hm, Hdone. by destruct m.
Qed.

(** The first fitting switches shadows on for the meshes under the model
    and for nothing else: a node among the parts of the model that is a
    mesh casts and receives shadows afterwards; a part that is no mesh,
    and every node outside the model, is what it was; no node appears or
    disappears, and no material and no child of the scene changes. *)
Theorem initializeModel_shadows (s : Viewer) (m : Model.t) :
  model s = Some m -> initialized s = false ->
  let s' := exec initializeModel s in
  (∀ id, Scene.objs (scene s') !! id
         = (if decide (id ∈ Model.parts m) then enableShadows else λ o, o)
           <$> Scene.objs (scene s) !! id)
  ∧ (∀ id node, id ∈ Model.parts m ->
       Scene.objs (scene s) !! id = Some node ->
       Object3D.isMesh node = true ->
       ∃ node', Scene.objs (scene s') !! id = Some node'
         ∧ Object3D.castShadow node' = true
         ∧ Object3D.receiveShadow node' = true
         ∧ Object3D.visible node' = Object3D.visible node
         ∧ Object3D.material node' = Object3D.material node)
  ∧ (∀ id node, Scene.objs (scene s) !! id = Some node ->
       Object3D.isMesh node = false ->
       Scene.objs (scene s') !! id = Some node)
  ∧ Scene.mats (scene s') = Scene.mats (scene s)
  ∧ Scene.children (scene s') = Scene.children (scene s).
Proof.
  intros Hm Hdone s'. subst s'.
  rewrite (initializeModel_first s m Hm Hdone). cbv zeta.
  cbn [scene set_initialized set_scene Scene.objs Scene.set_objs
       Scene.mats Scene.children].
  assert (Hidem : ∀ o, enableShadows (enableShadows o) = enableShadows o).
  { intros o. unfold enableShadows.
    destruct (Object3D.isMesh o) eqn:E; simpl; by rewrite ?E. }
  assert (Hall : ∀ id,
            foldr (alter enableShadows) (Scene.objs (scene s))
              (Model.parts m) !! id
            = (if decide (id ∈ Model.parts m) then enableShadows
               else λ o, o) <$> Scene.objs (scene s) !! id).
  { intros id. by apply traverse_lookup. }
  split; [exact Hall|]. split; [|split; [|done]].
  - intros id node Hin Hnode Hmesh. rewrite Hall, Hnode.
    rewrite decide_True by done. simpl. eexists. split; [done|].
    unfold enableShadows. rewrite Hmesh. done.
  - intros id node Hnode Hmesh. rewrite Hall, Hnode. simpl.
    destruct (decide (id ∈ Model.parts m)); [|done].
    unfold enableShadows. by rewrite Hmesh.
Qed.

(** A model that fails to load: the handler catches the error and
    completes normally; it writes one line to the console and the error
    block with the fixed message to the overlay, which it does not hide;
    the model, the scene, the camera and the fitting flag are what they
    were, and no later report of the loader is acted on. *)
Theorem model_failure_is_caught (s : Viewer) (error : string) :
  Pending.modelLoading (pending s) = true ->
  let s' := step s (ModelSettled (Failed error)) in
  handle (ModelSettled (Failed error)) s = (s', Normal tt)
  ∧ model s' = model s ∧ initialized s' = initialized s
  ∧ scene s' = scene s ∧ camera s' = camera s
  ∧ Page.overlayHidden (page s') = Page.overlayHidden (page s)
  ∧ Page.overlayHTML (page s') = Page.ErrorBlock "Failed to load 3D model"
  ∧ Page.console (page s') = Page.console (page s) ++ ["Error loading model:"]
  ∧ ∀ report, handle (ModelSettled report) s' = (s', Normal tt).
Proof.
  intros Hl s'. subst s'. unfold step, exec, handle, modelSettled.
  rewrite bind_gets, Hl, bind_modify. cbn [fst].
  repeat split; try reflexivity.
Qed.

End LoadingMore.

(** ** Along a run: lights, model and selection *)

(** Every method the handlers call, unfolded to its reads and writes. *)
Ltac unfold_methods :=
  unfold nightModeChanged, basemapToggled, basemapTypeChanged,
    textureSettled, modelSettled, loadModel, receive, initializeModel,
    hideLoadingScreen, showError, onClick, showObjectInfo, highlightObject,
    onWindowResize, animate, controlsUpdate, updateBackground,
    updateLighting, loadBasemap, createOrUpdateMap, setVisible, resume,
    sceneAdd, traverse, writeObject.

(** A leaf of a method: one write, or one of the primitives on a store. *)
Ltac leaf_with tac :=
  try intros ?;
  unfold preserves, exec, setEmissive, writeMaterial, newMaterial,
    newObject, setHemisphereColor, modify;
  try intros ?; simpl; repeat (case_match; simpl); tac.

Ltac frame_with tac :=
  unfold_methods; repeat (frame_step; unfold_methods); leaf_with tac.

Section AlongRun.
Local Open Scope R_scope.
Context {orbit : OrbitControls.Update}.

#[export] Instance agree_preorder {A : Type} (observe : Viewer -> A) :
  PreOrder (agree observe).
Proof.
  split.
  - intros s. reflexivity.
  - intros s1 s2 s3 H1 H2. unfold agree in *. congruence.
Qed.

(** A property every step keeps holds after any run. *)
Lemma run_invariant (I : Viewer -> Prop) (s : Viewer) (es : list Event) :
  (∀ s e, I s -> I (step s e)) -> I s -> I (run s es).
Proof.
  intros Hstep. revert s. induction es as [|e es IH]; intros s Hs; [done|].
  simpl. apply IH, Hstep, Hs.
Qed.

(** A relation every step keeps holds across any run. *)
Lemma run_preserves (R : relation Viewer) `{!PreOrder R} (es : list Event) :
  (∀ e, preserves R (handle e)) -> ∀ s, R s (run s es).
Proof.
  intros Hstep. induction es as [|e es IH]; intros s; [reflexivity|].
  simpl. transitivity (step s e); [apply Hstep|apply IH].
Qed.

Ltac agree_lighting := unfold agree, lightingState; simpl; reflexivity.

(** No handler but that of the night-mode checkbox writes the flag, the
    background, the ambient or the directional light. *)
Lemma agree_lighting_handle (e : Event) :
  (∀ checked, e <> NightModeChange checked) ->
  preserves (agree lightingState) (handle e).
Proof.
  intros Hne. destruct e; simpl handle.
  - by destruct (Hne checked).
  - frame_with agree_lighting.
  - frame_with agree_lighting.
  - frame_with agree_lighting.
  - frame_with agree_lighting.
  - frame_with agree_lighting.
  - frame_with agree_lighting.
  - frame_with agree_lighting.
Qed.

(** In every state the viewer reaches, the background, the ambient light
    and the directional light are those of the preset the flag [isNight]
    names, although the handler that writes them ends on an exception;
    and whenever the flag is off, the hemisphere light included, the whole
    lighting is the day preset. *)
Theorem lights_follow_flag (w h : R) (p : Page.t) (es : list Event) :
  let s := run (construct w h p) es in
  Scene.background (scene s)
  = Some (if isNight s then nightColor else dayColor)
  ∧ Lighting.ambient (Lighting.current s)
    = Lighting.ambient (Lighting.preset (isNight s))
  ∧ Lighting.directional (Lighting.current s)
    = Lighting.directional (Lighting.preset (isNight s))
  ∧ (isNight s = false -> Lighting.current s = Lighting.preset false).
Proof.
  intros s.
  pose proof (hemisphere_never_written w h p es) as Hhemi. fold s in Hhemi.
  assert (Hinv : Scene.background (scene s)
                 = Some (if isNight s then nightColor else dayColor)
               ∧ Lighting.ambient (Lighting.current s)
                 = Lighting.ambient (Lighting.preset (isNight s))
               ∧ Lighting.directional (Lighting.current s)
                 = Lighting.directional (Lighting.preset (isNight s))).
  { subst s. apply run_invariant;
      [|destruct (construct_day w h p) as (Hn & Hc & Hb);
        by rewrite Hn, Hc, Hb].
    clear. intros s e (Hb & Ha & Hd).
    assert (Hother : (∀ checked, e <> NightModeChange checked) ->
              Scene.background (scene (step s e))
              = Some (if isNight (step s e) then nightColor else dayColor)
              ∧ Lighting.ambient (Lighting.current (step s e))
                = Lighting.ambient (Lighting.preset (isNight (step s e)))
              ∧ Lighting.directional (Lighting.current (step s e))
                = Lighting.directional
                    (Lighting.preset (isNight (step s e)))).
    { intros Hne.
      pose proof (agree_lighting_handle e Hne s) as Hsame.
      fold (step s e) in Hsame.
      unfold agree, lightingState in Hsame.
      injection Hsame as Hn Hbg Hal Hdl.
      unfold Lighting.current, Lighting.ambient, Lighting.directional in *.
      by rewrite Hn, Hbg, Hal, Hdl. }
    destruct e as [checked| | | | | | |];
      try (apply Hother; intros; discriminate).
    destruct (nightModeChanged_stops checked s)
      as (_ & Hn & Hb' & Ha' & Hd' & _).
    by rewrite Hn. }
  destruct Hinv as (Hb & Ha & Hd). repeat split; try assumption.
  intros Hday. rewrite Hday in Ha, Hd.
  unfold Lighting.current in *. simpl in Ha, Hd. rewrite Ha, Hhemi.
  injection Hd as -> -> ->. reflexivity.
Qed.

Ltac agree_loader :=
  unfold agree, loaderState, sceneFixtures; simpl;
  rewrite ?List.filter_app; simpl; rewrite ?app_nil_r; reflexivity.

(** No handler but the one of the model loader writes the model, the
    fitting flag, the lights and model among the scene's children, the
    loading flag or the overlay's [hidden] class. *)
Lemma agree_loader_handle (e : Event) :
  (∀ report, e <> ModelSettled report) ->
  preserves (agree loaderState) (handle e).
Proof.
  intros Hne. destruct e; simpl handle.
  - frame_with agree_loader.
  - frame_with agree_loader.
  - frame_with agree_loader.
  - frame_with agree_loader.
  - by destruct (Hne report).
  - frame_with agree_loader.
  - frame_with agree_loader.
  - frame_with agree_loader.
Qed.

Lemma modelOnce_agree (s s' : Viewer) :
  agree loaderState s s' -> modelOnce s -> modelOnce s'.
Proof.
  unfold agree, loaderState, modelOnce. intros Hsame.
  injection Hsame as -> -> -> -> ->. done.
Qed.

(** The report of the model loader on a viewer that awaits none. *)
Lemma modelSettled_ignored (s : Viewer) (report : FetchResult Gltf.t) :
  Pending.modelLoading (pending s) = false ->
  step s (ModelSettled report) = s.
Proof.
  intros Hl. unfold step, exec, handle, modelSettled.
  by rewrite bind_gets, Hl.
Qed.

Lemma step_modelOnce (s : Viewer) (e : Event) :
  modelOnce s ->
  modelOnce (step s e)
  ∧ ∀ m, model s = Some m -> model (step s e) = Some m.
Proof.
  intros Hinv.
  assert (Hother : (∀ report, e <> ModelSettled report) ->
            modelOnce (step s e)
            ∧ ∀ m, model s = Some m -> model (step s e) = Some m).
  { intros Hne. pose proof (agree_loader_handle e Hne s) as Hsame.
    fold (step s e) in Hsame. split; [by eapply modelOnce_agree|].
    unfold agree, loaderState in Hsame. injection Hsame as _ Hmodel _ _ _.
    by rewrite Hmodel. }
  destruct e as [| | | |report| | |];
    try (apply Hother; intros; discriminate).
  destruct (Pending.modelLoading (pending s)) eqn:Hl;
    [|by rewrite modelSettled_ignored].
  destruct Hinv as (Hfix & Hflag & Hloaded).
  destruct (model s) as [m|] eqn:Hm.
  { destruct Hloaded as [Hl' _]; [by eauto|congruence]. }
  assert (Hdone : initialized s = false).
  { destruct (initialized s); [|done].
    destruct Hflag as [Hflag _]. by destruct Hflag. }
  split; [|done].
  destruct report as [gltf|error].
  - rewrite modelSettled_loaded by exact Hl.
    set (s1 := exec (receive gltf) _).
    rewrite (initializeModel_first s1 (Gltf.scene gltf));
      [|reflexivity|exact Hdone].
    unfold modelOnce, sceneFixtures. subst s1. simpl.
    rewrite List.filter_app. unfold sceneFixtures in Hfix. rewrite Hfix.
    simpl. split; [done|]. split; [split; eauto|done].
  - unfold step, exec, handle, modelSettled.
    rewrite bind_gets, Hl, bind_modify. cbn [fst].
    unfold modelOnce, sceneFixtures. simpl. rewrite Hm, Hdone.
    unfold sceneFixtures in Hfix. rewrite Hfix.
    split; [done|]. split; [split; [done|by intros [? ?]]|by intros [? ?]].
Qed.

Lemma construct_modelOnce (w h : R) (p : Page.t) :
  modelOnce (construct w h p).
Proof.
  assert (Hm : model (construct w h p) = None) by reflexivity.
  assert (Hi : initialized (construct w h p) = false) by reflexivity.
  assert (Hf : sceneFixtures (construct w h p)
               = [ChildAmbientLight; ChildDirectionalLight;
                  ChildHemisphereLight]) by reflexivity.
  unfold modelOnce. rewrite Hm, Hi, Hf.
  split; [done|]. split; [split; [done|by intros [? ?]]|by intros [? ?]].
Qed.

(** In every state the viewer reaches: the scene holds the three lights,
    in the order they were added, and after them the model exactly when
    one has loaded, never twice; the fitting has run exactly when there
    is a model; a loaded model has had the loading overlay hidden and is
    awaited no longer; and a model that has loaded is the viewer's model
    through every further event, a second report of the loader
    included. *)
Theorem model_loads_once (w h : R) (p : Page.t) (es : list Event) :
  let s := run (construct w h p) es in
  sceneFixtures s
  = [ChildAmbientLight; ChildDirectionalLight; ChildHemisphereLight]
    ++ match model s with Some _ => [ChildModel] | None => [] end
  ∧ (initialized s = true ↔ is_Some (model s))
  ∧ (is_Some (model s) ->
     Pending.modelLoading (pending s) = false
     ∧ Page.overlayHidden (page s) = true)
  ∧ (∀ m es', model s = Some m -> model (run s es') = Some m).
Proof.
  intros s.
  assert (Hinv : modelOnce s).
  { subst s. apply run_invariant; [|apply construct_modelOnce].
    intros s e Hs. by apply step_modelOnce. }
  clearbody s.
  destruct Hinv as (H1 & H2 & H3).
  split; [exact H1|]. split; [exact H2|]. split; [exact H3|].
  intros m es' Hm.
  assert (Hrun : modelOnce (run s es') ∧ model (run s es') = Some m).
  { apply (run_invariant (λ s, modelOnce s ∧ model s = Some m));
      [|by split].
    intros s0 e [Hs0 Hm0]. destruct (step_modelOnce s0 e Hs0) as [? Hkeep].
    split; [done|by apply Hkeep]. }
  by destruct Hrun.
Qed.

Ltac agree_selection := unfold agree, selectionState; simpl; reflexivity.

(** No handler but that of a click writes the selection or the panel. *)
Lemma agree_selection_handle (e : Event) :
  (∀ event rect intersects, e <> Click event rect intersects) ->
  preserves (agree selectionState) (handle e).
Proof.
  intros Hne. destruct e; simpl handle.
  - frame_with agree_selection.
  - frame_with agree_selection.
  - frame_with agree_selection.
  - frame_with agree_selection.
  - frame_with agree_selection.
  - by destruct (Hne event rect intersects).
  - frame_with agree_selection.
  - frame_with agree_selection.
Qed.

(** A click either leaves the selection and the panel alone, or selects
    the first object hit and shows it. *)
Lemma click_selection (s : Viewer) event rect intersects :
  let s' := step s (Click event rect intersects) in
  match intersects with
  | [] => selectionState s' = selectionState s
  | first :: _ =>
      selectedObject s' = Some (Raycaster.object first)
      ∧ Page.panelDisplay (page s') = "block"
      ∧ Page.objectName (page s') <> ""
      ∧ Page.objectDetails (page s') <> ""
  end.
Proof.
  cbv zeta. unfold step, exec, handle. rewrite onClick_pointer. cbv zeta.
  destruct intersects as [|first others]; [done|].
  set (aimed := set_raycaster _ _).
  rewrite (bind_normal _ _ aimed
             (exec (showObjectInfo (Raycaster.object first)) aimed) tt)
    by reflexivity.
  destruct (showObjectInfo_shown aimed (Raycaster.object first))
    as (_ & Hp & Hn & Hd).
  set (shown := exec (showObjectInfo (Raycaster.object first)) aimed) in *.
  destruct (highlightObject_frame shown (Raycaster.object first))
    as (mats' & Hw & _).
  unfold exec in Hw. rewrite Hw. done.
Qed.

(** In every state the viewer reaches, an object that is selected is
    shown: the info panel is displayed, with a name and details that are
    not empty. And no event takes a selection away: once an object is
    selected, some object is selected and the panel is displayed in every
    later state, a click into the void included. *)
Theorem selection_is_shown (w h : R) (p : Page.t) (es : list Event) :
  let s := run (construct w h p) es in
  (is_Some (selectedObject s) ->
   Page.panelDisplay (page s) = "block"
   ∧ Page.objectName (page s) <> ""
   ∧ Page.objectDetails (page s) <> "")
  ∧ ∀ es', is_Some (selectedObject s) ->
      is_Some (selectedObject (run s es'))
      ∧ Page.panelDisplay (page (run s es')) = "block".
Proof.
  intros s.
  set (I := λ s : Viewer, is_Some (selectedObject s) ->
              Page.panelDisplay (page s) = "block"
              ∧ Page.objectName (page s) <> ""
              ∧ Page.objectDetails (page s) <> "").
  assert (Hstep : ∀ s e, I s ->
            I (step s e)
            ∧ (is_Some (selectedObject s) ->
               is_Some (selectedObject (step s e)))).
  { clear. intros s e Hs.
    assert (Hsame : selectionState (step s e) = selectionState s ->
              I (step s e)
              ∧ (is_Some (selectedObject s) ->
                 is_Some (selectedObject (step s e)))).
    { unfold selectionState, I in *. intros [= -> -> -> ->]. done. }
    destruct e as [| | | | |event rect intersects| |];
      try (apply Hsame;
           match goal with
           | |- selectionState (step ?s ?e) = _ =>
               apply (agree_selection_handle e); intros; discriminate
           end).
    pose proof (click_selection s event rect intersects) as Hclick.
    cbv zeta in Hclick. destruct intersects as [|first others];
      [by apply Hsame|].
    destruct Hclick as (Hsel & Hrest). unfold I. rewrite Hsel.
    split; [done|eauto]. }
  assert (Hinv : I s).
  { subst s. apply run_invariant; [intros s e Hs; by apply Hstep|].
    unfold I. intros [o Ho]. discriminate Ho. }
  clearbody s. split; [exact Hinv|].
  intros es' Hsel.
  assert (Hrun : I (run s es') ∧ is_Some (selectedObject (run s es'))).
  { apply (run_invariant (λ s, I s ∧ is_Some (selectedObject s)));
      [|by split].
    intros s0 e [Hs0 Hsel0]. destruct (Hstep s0 e Hs0) as [? Hkeep].
    split; [done|by apply Hkeep]. }
  destruct Hrun as [HI Hs]. split; [exact Hs|]. by destruct (HI Hs).
Qed.

End AlongRun.

(** ** The shape of the ground plane *)

Section PlaneShape.
Local Open Scope R_scope.
Context {orbit : OrbitControls.Update}.

#[export] Instance keepsShape_preorder : PreOrder keepsShape.
Proof.
  split.
  - intros s. split; [done|]. split; [eauto|apply emissiveOnly_refl].
  - intros s1 s2 s3 (Hb1 & Ho1 & Hm1) (Hb2 & Ho2 & Hm2).
    split; [congruence|]. split; [|by eapply emissiveOnly_trans].
    intros id node H. destruct (Ho1 id node H) as (n1 & H1 & E1).
    destruct (Ho2 id n1 H1) as (n2 & H2 & E2).
    exists n2. split; [done|congruence].
Qed.

Lemma keepsShape_outside (s s' : Viewer) :
  Scene.objs (scene s') = Scene.objs (scene s) ->
  Scene.mats (scene s') = Scene.mats (scene s) ->
  basemapManager s' = basemapManager s ->
  keepsShape s s'.
Proof.
  intros Ho Hm Hb. unfold keepsShape. rewrite Ho, Hm, Hb.
  split; [done|]. split; [eauto|apply emissiveOnly_refl].
Qed.

Lemma keepsShape_writeObject (o : ObjId) (f : Object3D.t -> Object3D.t) :
  (∀ node, nodeShape (f node) = nodeShape node) ->
  preserves keepsShape (writeObject o f).
Proof.
  intros Hf s. unfold exec, writeObject, modify, keepsShape. simpl.
  split; [done|]. split; [|apply emissiveOnly_refl].
  intros id node Hid. destruct (decide (o = id)) as [->|Hne].
  - rewrite lookup_alter_eq, Hid. simpl. eauto.
  - rewrite lookup_alter_ne by done. eauto.
Qed.

Lemma keepsShape_traverse (m : Model.t) :
  preserves keepsShape (traverse enableShadows m).
Proof.
  intros s. unfold exec, traverse, modify, keepsShape. simpl.
  split; [done|]. split; [|apply emissiveOnly_refl].
  induction (Model.parts m) as [|o parts IH]; simpl; [eauto|].
  intros id node Hid. destruct (IH id node Hid) as (n1 & H1 & E1).
  destruct (decide (o = id)) as [->|Hne].
  - rewrite lookup_alter_eq, H1. simpl. eexists. split; [done|].
    rewrite <- E1. unfold enableShadows. by destruct (Object3D.isMesh n1).
  - rewrite lookup_alter_ne by done. eauto.
Qed.

Lemma keepsShape_receive (gltf : Gltf.t) :
  preserves keepsShape (receive gltf).
Proof.
  intros s. unfold exec, receive, keepsShape. simpl.
  split; [done|]. split.
  - intros k x Hk. exists x. split; [|done].
    rewrite lookup_union_l'; eauto.
  - intros k x Hk. exists x. rewrite lookup_union_l' by eauto.
    repeat split; eauto.
Qed.

Lemma keepsShape_setEmissive (o : ObjId) (c : Color) :
  preserves keepsShape (setEmissive o c).
Proof.
  intros s. destruct (setEmissive_writes o c s) as (mats' & -> & Hm).
  unfold keepsShape. simpl. split; [done|]. split; [eauto|exact Hm].
Qed.

Ltac shape_outside :=
  try intros ?; unfold exec, setHemisphereColor, modify; simpl;
  repeat (case_match; simpl); by apply keepsShape_outside.

Ltac frame_shape :=
  unfold_methods; repeat (frame_step; unfold_methods);
  first
    [ apply keepsShape_setEmissive
    | apply keepsShape_receive
    | apply (keepsShape_traverse _)
    | apply keepsShape_writeObject; done
    | shape_outside ].

(** Every handler but the texture callback keeps the shapes. *)
Lemma keepsShape_handle (e : Event) :
  (∀ i report, e <> TextureSettled i report) ->
  preserves keepsShape (handle e).
Proof.
  intros Hne. destruct e; simpl handle.
  - frame_shape.
  - frame_shape.
  - frame_shape.
  - by destruct (Hne request report).
  - unfold modelSettled, loadModel.
    apply preserves_bind; [apply _|apply preserves_gets; apply _|intros l].
    destruct l; [|apply preserves_ret; apply _].
    apply preserves_bind; [apply _|shape_outside|intros _].
    apply preserves_try_catch; [apply _| |intros err; frame_shape].
    apply preserves_bind;
      [apply _|apply preserves_await; apply _|intros gltf].
    apply preserves_bind; [apply _|apply keepsShape_receive|intros _].
    frame_shape.
  - frame_shape.
  - frame_shape.
  - frame_shape.
Qed.

Lemma planeShape_frame (s s' : Viewer) :
  keepsShape s s' -> planeShape s -> planeShape s'.
Proof.
  intros (Hb & Ho & Hm) [Htype Hplane]. unfold planeShape. rewrite Hb.
  split; [exact Htype|]. intros mesh Hmesh.
  destruct (Hplane mesh Hmesh)
    as (node & mat & m & type & Hnode & Hshape & Hmat & He & Hside & Hmap).
  destruct (Ho mesh node Hnode) as (node' & Hnode' & Hshape').
  destruct (Hm mat m Hmat) as (m' & Hmat' & _ & _ & _ & Hsame & _).
  rewrite (Hsame He) in Hmat'.
  exists node', mat, m, type. rewrite Hshape'. done.
Qed.

End PlaneShape.

(** ** The texture callback and the ground plane *)

Section PlaneCallback.
Local Open Scope R_scope.
Context {orbit : OrbitControls.Update}.

(** [createOrUpdateMap] on a viewer whose ground plane, if it has one,
    has its shape. *)
Lemma createOrUpdateMap_shape (type : string) (s : Viewer) :
  planeShape s ->
  let texture := tiled (basemapUrl type) in
  let s' := exec (createOrUpdateMap texture) s in
  createOrUpdateMap texture s = (s', Normal tt)
  ∧ planeShape s'
  ∧ (∃ mesh node,
       BasemapManager.mapMesh (basemapManager s') = Some mesh
       ∧ Scene.objs (scene s') !! mesh = Some node
       ∧ basemapTexture s' = Some texture
       ∧ match BasemapManager.mapMesh (basemapManager s) with
         | Some mesh0 => mesh0 = mesh ∧ Scene.objs (scene s) !! mesh = Some node
         | None => Object3D.visible node = true
         end)
  ∧ showOSM s' = showOSM s ∧ pending s' = pending s
  ∧ basemapType s' = basemapType s.
Proof.
  intros [Htype Hplane] texture. unfold exec, createOrUpdateMap.
  rewrite bind_gets.
  destruct (BasemapManager.mapMesh (basemapManager s)) as [mesh|] eqn:Hmesh.
  - destruct (Hplane mesh eq_refl)
      as (node & mat & m & type0 & Hnode & Hshape & Hm & He & Hside & Hmap).
    assert (Hmat : Object3D.material node = Some mat).
    { unfold nodeShape in Hshape. by injection Hshape. }
    assert (Hmaterial : Scene.material (scene s) mesh = Some mat).
    { unfold Scene.material. by rewrite Hnode. }
    rewrite (bind_normal _ _ s _ tt
               (writeMaterial_run mesh _ mat s Hmaterial)).
    cbv beta. set (s1 := set_scene _ s).
    assert (Hmaterial1 : Scene.material (scene s1) mesh = Some mat)
      by exact Hmaterial.
    rewrite (writeMaterial_run mesh _ mat s1 Hmaterial1).
    cbn [fst]. set (s2 := set_scene _ s1).
    assert (Hm2 : Scene.mats (scene s2) !! mat
                  = Some (Material.set_needsUpdate true
                            (Material.set_map texture m))).
    { subst s2 s1. simpl. by rewrite !lookup_alter_eq, Hm. }
    split; [done|]. split; [|split; [|done]].
    + split; [exact Htype|]. intros mesh' Hmesh'.
      assert (mesh' = mesh) as ->.
      { change (BasemapManager.mapMesh (basemapManager s2))
          with (BasemapManager.mapMesh (basemapManager s)) in Hmesh'.
        congruence. }
      exists node, mat, (Material.set_needsUpdate true
                           (Material.set_map texture m)), type.
      split; [exact Hnode|]. split; [exact Hshape|]. split; [exact Hm2|].
      simpl. rewrite He, Hside. done.
    + exists mesh, node. split; [exact Hmesh|]. split; [exact Hnode|].
      split; [|done].
      by rewrite (basemapTexture_intro s2 mesh node mat _ Hmesh Hnode Hmat
                    Hm2).
  - unfold mbind, JS_bind, newMaterial, newObject, writeObject, sceneAdd,
      modify.
    cbn [scene set_scene basemapManager set_basemapManager Scene.mats
         Scene.objs Scene.set_mats Scene.set_objs fst snd
         BasemapManager.mapMesh BasemapManager.set_mapMesh].
    set (mat := fresh (dom (Scene.mats (scene s)))).
    set (mesh := fresh (dom (Scene.objs (scene s)))).
    set (s2 := set_scene _ _).
    set (node := Object3D.set_position_y (- 0.01)
                   (Object3D.set_rotation_x (- PI / 2)
                      (Object3D.Mesh (PlaneGeometry 10000 10000) mat))).
    set (m := {| Material.emissive := None; Material.map := Some texture;
                 Material.side := DoubleSide;
                 Material.needsUpdate := false |}).
    assert (Hmesh2 : BasemapManager.mapMesh (basemapManager s2) = Some mesh)
      by reflexivity.
    assert (Hnode2 : Scene.objs (scene s2) !! mesh = Some node).
    { subst s2. simpl. by rewrite !lookup_alter_eq, lookup_insert_eq. }
    assert (Hm2 : Scene.mats (scene s2) !! mat = Some m).
    { subst s2. simpl. apply lookup_insert_eq. }
    split; [done|]. split; [|split; [|done]].
    + split; [exact Htype|]. intros mesh' Hmesh'.
      assert (mesh' = mesh) as -> by congruence.
      exists node, mat, m, type. done.
    + exists mesh, node. split; [exact Hmesh2|]. split; [exact Hnode2|].
      split; [|done].
      by rewrite (basemapTexture_intro s2 mesh node mat m Hmesh2 Hnode2
                    eq_refl Hm2).
Qed.

(** [setVisible] writes the flag of the ground plane and nothing else. *)
Lemma setVisible_run (visible : bool) (s : Viewer) :
  let s' := exec (setVisible visible) s in
  setVisible visible s = (s', Normal tt)
  ∧ keepsShape s s'
  ∧ (∀ mesh node,
       BasemapManager.mapMesh (basemapManager s) = Some mesh ->
       Scene.objs (scene s) !! mesh = Some node ->
       Scene.objs (scene s') !! mesh
       = Some (Object3D.set_visible visible node))
  ∧ Scene.mats (scene s') = Scene.mats (scene s)
  ∧ Scene.children (scene s') = Scene.children (scene s)
  ∧ showOSM s' = showOSM s ∧ pending s' = pending s
  ∧ basemapType s' = basemapType s.
Proof.
  unfold exec, setVisible. rewrite bind_gets.
  destruct (BasemapManager.mapMesh (basemapManager s)) as [mesh|] eqn:Hmesh.
  - split; [done|]. split; [|split; [|done]].
    + by apply (keepsShape_writeObject mesh (Object3D.set_visible visible)).
    + intros mesh' node [= <-] Hnode. simpl.
      by rewrite lookup_alter_eq, Hnode.
  - split; [done|]. split; [reflexivity|]. split; [|done].
    intros ? ? [=].
Qed.

(** The loader reports a texture, on a viewer whose ground plane, if it
    has one, has its shape: the handler completes normally, the plane
    exists with the tiled texture of the type requested, and is made
    visible if the request came from the checkbox. *)
Lemma textureSettled_loaded (s : Viewer) (i : nat) (f : Pending.Fetch) :
  planeShape s ->
  Pending.textures (pending s) !! i = Some f ->
  let s' := step s (TextureSettled i (Loaded tt)) in
  handle (TextureSettled i (Loaded tt)) s = (s', Normal tt)
  ∧ planeShape s'
  ∧ (∃ mesh node,
       BasemapManager.mapMesh (basemapManager s') = Some mesh
       ∧ Scene.objs (scene s') !! mesh = Some node
       ∧ basemapTexture s' = Some (tiled (basemapUrl (Pending.type f)))
       ∧ (Pending.andThen f = ThenSetVisible ->
          Object3D.visible node = true))
  ∧ showOSM s' = showOSM s
  ∧ pending s' = Pending.settle i (pending s)
  ∧ basemapType s' = basemapType s.
Proof.
  intros Hshape Hf. unfold step, exec, handle, textureSettled.
  rewrite bind_gets, Hf, bind_modify.
  set (s1 := set_pending (Pending.settle i (pending s)) s).
  assert (Hshape1 : planeShape s1).
  { eapply planeShape_frame; [|exact Hshape]. by apply keepsShape_outside. }
  change (loadBasemap (Pending.type f) (Loaded tt))
    with (createOrUpdateMap (tiled (basemapUrl (Pending.type f)))).
  destruct (createOrUpdateMap_shape (Pending.type f) s1 Hshape1)
    as (Hrun & Hshape2 & (mesh & node & Hmesh & Hnode & Htex & _)
        & Hshow & Hpend & Hbt).
  rewrite (bind_normal _ _ s1 _ tt Hrun).
  set (s2 := exec (createOrUpdateMap _) s1) in *.
  destruct (Pending.andThen f) eqn:Hk; unfold resume.
  - destruct (setVisible_run true s2)
      as (Hrun3 & Hkeep & Hvis & Hmats & _ & Hshow3 & Hpend3 & Hbt3).
    rewrite Hrun3. cbn [fst].
    set (s3 := exec (setVisible true) s2) in *.
    split; [done|]. split; [by eapply planeShape_frame|].
    split; [|by rewrite Hshow3, Hpend3, Hbt3].
    exists mesh, (Object3D.set_visible true node).
    destruct Hkeep as (Hb & _ & _).
    destruct (basemapTexture_Some s2 _ Htex)
      as (mesh' & node' & mat & m & Hmesh' & Hnode' & Hmat & Hm & Hmap).
    assert (mesh' = mesh) as -> by congruence.
    assert (node' = node) as -> by congruence.
    split; [by rewrite Hb|]. split; [by apply Hvis|]. split; [|done].
    rewrite (basemapTexture_intro s3 mesh (Object3D.set_visible true node)
               mat m); try done.
    + by rewrite Hb.
    + by apply Hvis.
    + by rewrite Hmats.
  - cbn [fst]. split; [done|]. split; [exact Hshape2|].
    split; [|done]. exists mesh, node. done.
Qed.

Lemma step_planeShape (s : Viewer) (e : Event) :
  planeShape s -> planeShape (step s e).
Proof.
  intros Hshape.
  assert (Hother : (∀ i report, e <> TextureSettled i report) ->
            planeShape (step s e)).
  { intros Hne. eapply planeShape_frame; [|exact Hshape].
    apply (keepsShape_handle e Hne). }
  destruct e as [| | |i report| | | |];
    try (apply Hother; intros; discriminate).
  destruct (Pending.textures (pending s) !! i) as [f|] eqn:Hf.
  - destruct report as [[]|error].
    + by destruct (textureSettled_loaded s i f Hshape Hf) as (_ & ? & _).
    + unfold step, exec, handle.
      rewrite (textureSettled_failed s i f error Hf).
      eapply planeShape_frame; [|exact Hshape]. by apply keepsShape_outside.
  - unfold step, exec, handle, textureSettled. by rewrite bind_gets, Hf.
Qed.

Lemma construct_planeShape (w h : R) (p : Page.t) :
  planeShape (construct w h p).
Proof.
  assert (Hb : basemapManager (construct w h p)
               = {| BasemapManager.mapMesh := None;
                    BasemapManager.currentType := None |}) by reflexivity.
  unfold planeShape. rewrite Hb. split; [done|]. intros ? [=].
Qed.

Lemma run_planeShape (w h : R) (p : Page.t) (es : list Event) :
  planeShape (run (construct w h p) es).
Proof.
  apply run_invariant; [|apply construct_planeShape].
  intros s e. apply step_planeShape.
Qed.

End PlaneCallback.

(** ** The basemap checkbox and selector *)

Section BasemapHandlers.
Local Open Scope R_scope.
Context {orbit : OrbitControls.Update}.

(** The checkbox is checked: the flag is set and one fetch for the
    current type is issued, under a request number not in use. *)
Lemma basemapToggled_on (s : Viewer) :
  let i := fresh (dom (Pending.textures (pending s))) in
  let f := Pending.fetch (basemapType s) ThenSetVisible in
  handle (BasemapToggleChange true) s
  = (set_pending (Pending.issue f (pending s)) (set_showOSM true s),
     Normal tt)
  ∧ Pending.textures (pending s) !! i = None
  ∧ Pending.textures (Pending.issue f (pending s)) !! i = Some f
  ∧ Pending.settle i (Pending.issue f (pending s)) = pending s.
Proof.
  intros i f.
  assert (Hfresh : Pending.textures (pending s) !! i = None).
  { apply not_elem_of_dom_1, is_fresh. }
  split; [reflexivity|]. split; [exact Hfresh|].
  split; [apply lookup_insert_eq|].
  unfold Pending.settle, Pending.issue. simpl. fold i.
  rewrite delete_insert_id by exact Hfresh. by destruct (pending s).
Qed.

(** The checkbox is unchecked: the flag is cleared and the plane, if
    there is one, hidden; nothing is fetched. *)
Lemma basemapToggled_off (s : Viewer) :
  handle (BasemapToggleChange false) s
  = (exec (setVisible false) (set_showOSM false s), Normal tt).
Proof.
  unfold handle, basemapToggled. rewrite bind_modify, bind_gets.
  cbn [showOSM set_showOSM].
  by destruct (setVisible_run false (set_showOSM false s)) as [-> _].
Qed.

Lemma set_pending_same (s : Viewer) : set_pending (pending s) s = s.
Proof. by destruct s. Qed.

Lemma run_snoc (s : Viewer) (es : list Event) (e : Event) :
  run s (es ++ [e]) = step (run s es) e.
Proof. unfold run. by rewrite foldl_app. Qed.

Lemma reachable_run (w h : R) (p : Page.t) (es : list Event) :
  reachable (run (construct w h p) es).
Proof. by exists w, h, p, es. Qed.

Lemma reachable_step (s : Viewer) (e : Event) :
  reachable s -> reachable (step s e).
Proof.
  intros (w & h & p & es & ->). exists w, h, p, (es ++ [e]).
  by rewrite run_snoc.
Qed.

(** Every state the viewer reaches has its ground plane, if any, once in
    the scene and in shape. *)
Lemma reachable_plane (s : Viewer) :
  reachable s ->
  planeShape s
  ∧ ∀ mesh, BasemapManager.mapMesh (basemapManager s) = Some mesh ->
      sceneObjects s = [mesh].
Proof.
  intros (w & h & p & es & ->). split; [apply run_planeShape|].
  intros mesh Hmesh.
  destruct (run_groundPlane es (construct w h p) None
              (construct_groundPlane w h p)) as [Hgp _].
  unfold groundPlane in Hgp. rewrite Hmesh in Hgp. by destruct Hgp.
Qed.

(** In every state the viewer reaches, the ground plane if there is one
    is as [createOrUpdateMap] built it: a mesh without name or
    attributes over a plane of 10000 by 10000, turned flat and a
    hundredth below the ground; its material is two-sided, has no
    emissive colour, and carries the texture of one of the three tile
    addresses, repeated twenty times each way. Shadows, visibility and
    the texture are all that is ever written on it, and the manager's
    field [currentType] is never assigned. *)
Theorem ground_plane_shape (w h : R) (p : Page.t) (es : list Event) :
  let s := run (construct w h p) es in
  BasemapManager.currentType (basemapManager s) = None
  ∧ ∀ mesh, BasemapManager.mapMesh (basemapManager s) = Some mesh ->
      ∃ node mat m texture type,
        Scene.objs (scene s) !! mesh = Some node
        ∧ Object3D.name node = "" ∧ Object3D.userData node = []
        ∧ Object3D.geometry node = PlaneGeometry 10000 10000
        ∧ Object3D.isMesh node = true
        ∧ Object3D.rotation_x node = - PI / 2
        ∧ Object3D.position_y node = - 0.01
        ∧ Object3D.material node = Some mat
        ∧ Scene.mats (scene s) !! mat = Some m
        ∧ Material.emissive m = None
        ∧ Material.side m = DoubleSide
        ∧ Material.map m = Some texture
        ∧ Texture.source texture = basemapUrl type
        ∧ Texture.wrapS texture = RepeatWrapping
        ∧ Texture.wrapT texture = RepeatWrapping
        ∧ Texture.repeat texture = (20, 20).
Proof.
  intros s. destruct (run_planeShape w h p es) as [Htype Hplane].
  fold s in Htype, Hplane. split; [exact Htype|]. intros mesh Hmesh.
  destruct (Hplane mesh Hmesh)
    as (node & mat & m & type & Hnode & Hshape & Hm & He & Hside & Hmap).
  exists node, mat, m, (tiled (basemapUrl type)), type.
  unfold nodeShape in Hshape. injection Hshape as -> -> -> -> -> -> ->.
  done.
Qed.

(** A click whose nearest hit is the ground plane, in any state the
    viewer reaches: the plane becomes the selection and the panel shows
    it as "Unnamed Object" with "<i>No attributes</i>"; the plane itself
    is not highlighted, its material having no emissive colour, and
    keeps its texture. *)
Theorem click_on_ground_plane (w h : R) (p : Page.t) (es : list Event)
    (mesh : ObjId) event rect (distance : R)
    (others : list Raycaster.Intersection) :
  let s := run (construct w h p) es in
  BasemapManager.mapMesh (basemapManager s) = Some mesh ->
  let click := Click event rect (Raycaster.hit distance mesh :: others) in
  let s' := step s click in
  handle click s = (s', Normal tt)
  ∧ selectedObject s' = Some mesh
  ∧ Page.panelDisplay (page s') = "block"
  ∧ Page.objectName (page s') = "Unnamed Object"
  ∧ Page.objectDetails (page s') = "<i>No attributes</i>"
  ∧ Scene.emissive (scene s') mesh = None
  ∧ basemapTexture s' = basemapTexture s.
Proof.
  intros s Hmesh click s'.
  destruct (run_planeShape w h p es) as [_ Hplane]. fold s in Hplane.
  destruct (Hplane mesh Hmesh)
    as (node & mat & m & type & Hnode & Hshape & Hm & He & Hside & Hmap).
  clearbody s. subst s' click. unfold step, exec, handle.
  rewrite onClick_pointer. cbv zeta. cbn [Raycaster.object].
  set (aimed := set_raycaster _ _).
  assert (Hshown : showObjectInfo mesh aimed
            = (set_page (Page.showPanel "Unnamed Object"
                           "<i>No attributes</i>" (page s)) aimed,
               Normal tt)).
  { unfold showObjectInfo. rewrite bind_gets.
    change (Scene.objs (scene aimed) !! mesh)
      with (Scene.objs (scene s) !! mesh).
    rewrite Hnode. unfold nodeShape in Hshape.
    injection Hshape as Hname Hdata _ _ _ _ _.
    cbn [from_option]. rewrite Hname, Hdata. reflexivity. }
  rewrite (bind_normal _ _ aimed _ tt Hshown).
  set (shown := set_page _ aimed).
  destruct (highlightObject_frame shown mesh) as (mats' & Hw & Honly).
  unfold exec in Hw.
  pose proof (highlightObject_run shown mesh) as Hrun. cbv zeta in Hrun.
  rewrite Hrun in Hw |- *. cbn [fst] in Hw |- *. rewrite Hw.
  change (Scene.mats (scene shown)) with (Scene.mats (scene s)) in Honly.
  destruct (Honly mat m Hm) as (m' & Hm' & Hmap' & _ & _ & Hsame & _).
  rewrite (Hsame He) in Hm'.
  assert (Hmat : Object3D.material node = Some mat).
  { unfold nodeShape in Hshape. by injection Hshape. }
  split; [done|]. split; [done|]. split; [done|]. split; [done|].
  split; [done|]. split.
  - unfold Scene.emissive, Scene.material.
    change (Scene.objs (scene (set_selectedObject mesh
              (set_scene (Scene.set_mats mats' (scene shown)) shown))))
      with (Scene.objs (scene s)).
    rewrite Hnode. simpl. rewrite Hmat. simpl. rewrite Hm'. simpl. exact He.
  - rewrite (basemapTexture_intro s mesh node mat m Hmesh Hnode Hmat Hm).
    by apply (basemapTexture_intro _ mesh node mat m).
Qed.

(** The basemap is switched on and its texture arrives, from any state
    the viewer has reached: both handlers complete normally, and the
    ground plane is there, once, visible, carrying the tiled texture of
    the type selected when the box was checked; no request is left
    pending that was not pending before. *)
Theorem basemap_on_shows (w h : R) (p : Page.t) (es : list Event) :
  let s := run (construct w h p) es in
  let i := fresh (dom (Pending.textures (pending s))) in
  let s1 := step s (BasemapToggleChange true) in
  let s2 := step s1 (TextureSettled i (Loaded tt)) in
  handle (BasemapToggleChange true) s = (s1, Normal tt)
  ∧ handle (TextureSettled i (Loaded tt)) s1 = (s2, Normal tt)
  ∧ showOSM s2 = true
  ∧ pending s2 = pending s
  ∧ ∃ mesh node,
      BasemapManager.mapMesh (basemapManager s2) = Some mesh
      ∧ sceneObjects s2 = [mesh]
      ∧ Scene.objs (scene s2) !! mesh = Some node
      ∧ Object3D.visible node = true
      ∧ basemapTexture s2 = Some (tiled (basemapUrl (basemapType s))).
Proof.
  intros s i s1 s2.
  pose proof (reachable_run w h p es) as Hreach. fold s in Hreach.
  clearbody s.
  destruct (reachable_plane s1) as [Hshape1 _];
    [by apply reachable_step|].
  destruct (reachable_plane s2) as [_ Hone];
    [by do 2 apply reachable_step|].
  destruct (basemapToggled_on s) as (Hon & _ & Hf & Hback).
  fold i in Hf, Hback.
  assert (Hs1 : s1 = set_pending
                       (Pending.issue
                          (Pending.fetch (basemapType s) ThenSetVisible)
                          (pending s)) (set_showOSM true s)).
  { subst s1. unfold step, exec. by rewrite Hon. }
  assert (Hf1 : Pending.textures (pending s1) !! i
                = Some (Pending.fetch (basemapType s) ThenSetVisible)).
  { by rewrite Hs1. }
  destruct (textureSettled_loaded s1 i _ Hshape1 Hf1)
    as (Hrun & _ & (mesh & node & Hmesh & Hnode & Htex & Hvis)
        & Hshow & Hpend & _).
  fold s2 in Hrun, Hmesh, Hnode, Htex, Hshow, Hpend.
  split; [by rewrite Hon, Hs1|]. split; [exact Hrun|].
  split; [by rewrite Hshow, Hs1|].
  split; [by rewrite Hpend, Hs1|].
  exists mesh, node. split; [exact Hmesh|]. split; [by apply Hone|].
  split; [exact Hnode|]. split; [by apply Hvis|exact Htex].
Qed.

(** The box is checked and unchecked again before the texture arrives:
    when it arrives the plane is built or retextured and made visible
    all the same, so that the basemap is on screen while the flag
    [showOSM] says it is off. *)
Theorem late_texture_shows_basemap (w h : R) (p : Page.t)
    (es : list Event) :
  let s := run (construct w h p) es in
  let i := fresh (dom (Pending.textures (pending s))) in
  let s' := run s [BasemapToggleChange true; BasemapToggleChange false;
                   TextureSettled i (Loaded tt)] in
  showOSM s' = false
  ∧ ∃ mesh node,
      BasemapManager.mapMesh (basemapManager s') = Some mesh
      ∧ sceneObjects s' = [mesh]
      ∧ Scene.objs (scene s') !! mesh = Some node
      ∧ Object3D.visible node = true
      ∧ basemapTexture s' = Some (tiled (basemapUrl (basemapType s))).
Proof.
  intros s i s'.
  set (s1 := step s (BasemapToggleChange true)).
  set (s2 := step s1 (BasemapToggleChange false)).
  assert (Hs' : s' = step s2 (TextureSettled i (Loaded tt))) by reflexivity.
  pose proof (reachable_run w h p es) as Hreach. fold s in Hreach.
  clearbody s.
  destruct (reachable_plane s2) as [Hshape2 _];
    [by do 2 apply reachable_step|].
  destruct (reachable_plane s') as [_ Hone];
    [rewrite Hs'; by do 3 apply reachable_step|].
  clearbody s'.
  destruct (basemapToggled_on s) as (Hon & _ & Hf & _). fold i in Hf.
  assert (Hs1 : s1 = set_pending
                       (Pending.issue
                          (Pending.fetch (basemapType s) ThenSetVisible)
                          (pending s)) (set_showOSM true s)).
  { subst s1. unfold step, exec. by rewrite Hon. }
  assert (Hs2 : s2 = exec (setVisible false) (set_showOSM false s1)).
  { subst s2. unfold step, exec at 1. by rewrite basemapToggled_off. }
  destruct (setVisible_run false (set_showOSM false s1))
    as (_ & _ & _ & _ & _ & Hshow2 & Hpend2 & _).
  rewrite <- Hs2 in Hshow2, Hpend2.
  assert (Hf2 : Pending.textures (pending s2) !! i
                = Some (Pending.fetch (basemapType s) ThenSetVisible)).
  { rewrite Hpend2, Hs1. exact Hf. }
  destruct (textureSettled_loaded s2 i _ Hshape2 Hf2)
    as (_ & _ & (mesh & node & Hmesh & Hnode & Htex & Hvis) & Hshow & _).
  rewrite <- Hs' in Hmesh, Hnode, Htex, Hshow.
  split; [by rewrite Hshow, Hshow2|].
  exists mesh, node. split; [exact Hmesh|]. split; [by apply Hone|].
  split; [exact Hnode|]. split; [by apply Hvis|exact Htex].
Qed.

(** The box is checked and the fetch fails, in any state whatever: the
    handler ends on the loader's error, which nothing catches, and the
    viewer is left as it was before the box was checked but for the
    flag, which stays set with no basemap to show for it. *)
Theorem failed_basemap_keeps_flag (s : Viewer) (error : string) :
  let i := fresh (dom (Pending.textures (pending s))) in
  let s1 := step s (BasemapToggleChange true) in
  handle (TextureSettled i (Failed error)) s1
  = (set_showOSM true s, Throw (LoadError error)).
Proof.
  intros i s1.
  destruct (basemapToggled_on s) as (Hon & _ & Hf & Hback).
  fold i in Hf, Hback.
  assert (Hs1 : s1 = set_pending
                       (Pending.issue
                          (Pending.fetch (basemapType s) ThenSetVisible)
                          (pending s)) (set_showOSM true s)).
  { subst s1. unfold step, exec. by rewrite Hon. }
  unfold handle.
  rewrite (textureSettled_failed s1 i
             (Pending.fetch (basemapType s) ThenSetVisible) error)
    by (by rewrite Hs1).
  f_equal. rewrite Hs1. cbn [pending set_pending]. rewrite Hback.
  by destruct s.
Qed.

(** The box is unchecked, in any state the viewer has reached: nothing
    is fetched; a ground plane that exists is hidden, not removed: it is
    still the one store object in the scene and keeps its texture. *)
Theorem basemap_off_hides (w h : R) (p : Page.t) (es : list Event) :
  let s := run (construct w h p) es in
  let s' := step s (BasemapToggleChange false) in
  handle (BasemapToggleChange false) s = (s', Normal tt)
  ∧ showOSM s' = false
  ∧ pending s' = pending s
  ∧ basemapTexture s' = basemapTexture s
  ∧ ∀ mesh, BasemapManager.mapMesh (basemapManager s) = Some mesh ->
      BasemapManager.mapMesh (basemapManager s') = Some mesh
      ∧ sceneObjects s' = [mesh]
      ∧ is_Some (basemapTexture s')
      ∧ ∃ node, Scene.objs (scene s') !! mesh = Some node
          ∧ Object3D.visible node = false.
Proof.
  intros s s'.
  pose proof (reachable_run w h p es) as Hreach. fold s in Hreach.
  clearbody s.
  destruct (reachable_plane s Hreach) as [[_ Hplane] _].
  destruct (reachable_plane s') as [_ Hone]; [by apply reachable_step|].
  assert (Hs' : s' = exec (setVisible false) (set_showOSM false s)).
  { subst s'. unfold step, exec at 1. by rewrite basemapToggled_off. }
  destruct (setVisible_run false (set_showOSM false s))
    as (_ & (Hb & Ho & Hm) & Hvis & Hmats & _ & Hshow & Hpend & _).
  rewrite <- Hs' in Hb, Ho, Hm, Hvis, Hmats, Hshow, Hpend.
  cbn [basemapManager scene showOSM pending set_showOSM]
    in Hb, Ho, Hm, Hvis, Hmats, Hshow, Hpend.
  assert (Htex : ∀ mesh,
            BasemapManager.mapMesh (basemapManager s) = Some mesh ->
            basemapTexture s' = basemapTexture s
            ∧ is_Some (basemapTexture s')
            ∧ ∃ node, Scene.objs (scene s') !! mesh = Some node
                ∧ Object3D.visible node = false).
  { intros mesh Hmesh.
    destruct (Hplane mesh Hmesh)
      as (node & mat & m & type & Hnode & Hshape & Hmat & _ & _ & Hmap).
    assert (Hmaterial : Object3D.material node = Some mat).
    { unfold nodeShape in Hshape. by injection Hshape. }
    assert (Hmesh' : BasemapManager.mapMesh (basemapManager s') = Some mesh)
      by (by rewrite Hb).
    assert (Hnode' : Scene.objs (scene s') !! mesh
                     = Some (Object3D.set_visible false node))
      by (by apply Hvis).
    assert (Hmat' : Scene.mats (scene s') !! mat = Some m)
      by (by rewrite Hmats).
    rewrite (basemapTexture_intro s mesh node mat m Hmesh Hnode Hmaterial
               Hmat).
    rewrite (basemapTexture_intro s' mesh _ mat m Hmesh' Hnode' Hmaterial
               Hmat').
    split; [done|]. split; [by rewrite Hmap|]. by eexists. }
  split; [by rewrite basemapToggled_off, Hs'|].
  split; [by rewrite Hshow|]. split; [by rewrite Hpend|].
  split.
  - destruct (BasemapManager.mapMesh (basemapManager s)) as [mesh|] eqn:Hmesh.
    + by destruct (Htex mesh eq_refl).
    + unfold basemapTexture. by rewrite Hb, Hmesh.
  - intros mesh Hmesh. destruct (Htex mesh Hmesh) as (_ & Hsome & Hnode).
    split; [by rewrite Hb|]. split; [|done]. apply Hone. by rewrite Hb.
Qed.

(** While the basemap is off, changing the type fetches nothing: after
    any number of changes the viewer differs from before in the field
    [basemapType] alone, which holds the type chosen last; that type is
    the one fetched when the box is checked next. *)
Theorem type_changes_while_off (s : Viewer) (types : list string) :
  showOSM s = false ->
  let s' := run s (BasemapTypeChange <$> types) in
  s' = set_basemapType (default (basemapType s) (last types)) s
  ∧ pending (step s' (BasemapToggleChange true))
    = Pending.issue
        (Pending.fetch (default (basemapType s) (last types)) ThenSetVisible)
        (pending s).
Proof.
  intros Hoff s'.
  assert (Hs' : s' = set_basemapType
                       (default (basemapType s) (last types)) s).
  { subst s'. revert s Hoff.
    induction types as [|type types IH]; intros s Hoff.
    - simpl. by destruct s.
    - cbn [fmap list_fmap run foldl].
      assert (Hstep : step s (BasemapTypeChange type)
                      = set_basemapType type s).
      { unfold step, exec, handle, basemapTypeChanged.
        rewrite bind_modify, bind_gets. cbn [showOSM set_basemapType].
        by rewrite Hoff. }
      rewrite Hstep. fold (run (set_basemapType type s)
                             (BasemapTypeChange <$> types)).
      rewrite IH by exact Hoff.
      destruct types as [|type' types]; [done|].
      rewrite last_cons_cons.
      destruct (last (type' :: types)) as [chosen|] eqn:Hlast; [done|].
      rewrite last_cons in Hlast. by destruct (last types). }
  split; [exact Hs'|]. by rewrite Hs'.
Qed.

End BasemapHandlers.

(** ** Frames, resizes and clicks into the void *)

Section QuietEvents.
Local Open Scope R_scope.
Context {orbit : OrbitControls.Update}.

(** Animation frames and window resizes, however many and in whatever
    order, write the camera, the controller and the size of the renderer
    and nothing else: the scene with its stores, the lights, the flags,
    the model, the selection, the page and the pending fetches are what
    they were. *)
Theorem frames_and_resizes_keep_scene (s : Viewer) (es : list Event) :
  Forall (λ e, e = AnimationFrame ∨ ∃ w h, e = WindowResize w h) es ->
  ∃ camera' controls' size',
    run s es
    = set_rendererSize size' (set_camera camera' (set_controls controls' s)).
Proof.
  intros Hes. revert s. induction Hes as [|e es He _ IH]; intros s.
  - exists (camera s), (controls s), (rendererSize s). by destruct s.
  - cbn [run foldl]. fold (run (step s e) es).
    destruct (IH (step s e)) as (c & o & r & ->).
    destruct He as [->|(w & h & ->)]; by exists c, o, r.
Qed.

(** Until a click hits something nothing is selected, and the info panel
    is as the page had it: events of every other kind, and clicks whose
    ray meets nothing, leave the selection empty. *)
Theorem nothing_selected_before_hit (s : Viewer) (es : list Event) :
  selectedObject s = None ->
  Forall (λ e, ∀ event rect intersects,
            e = Click event rect intersects -> intersects = []) es ->
  selectedObject (run s es) = None
  ∧ Page.panelDisplay (page (run s es)) = Page.panelDisplay (page s)
  ∧ Page.objectName (page (run s es)) = Page.objectName (page s)
  ∧ Page.objectDetails (page (run s es)) = Page.objectDetails (page s).
Proof.
  intros Hnone Hes.
  assert (Hsame : selectionState (run s es) = selectionState s).
  { clear Hnone. revert s. induction Hes as [|e es He _ IH]; intros s;
      [done|].
    cbn [run foldl]. fold (run (step s e) es). rewrite IH.
    destruct e as [| | | | |event rect intersects| |];
      try (apply (agree_selection_handle _); intros; discriminate).
    rewrite (He event rect intersects eq_refl).
    apply (click_selection s event rect []). }
  unfold selectionState in Hsame. injection Hsame as -> -> -> ->.
  by rewrite Hnone.
Qed.

End QuietEvents.

(** ** How the handlers complete *)

Section Completions.
Local Open Scope R_scope.
Context {orbit : OrbitControls.Update}.

(** [loadModel] catches whatever goes wrong. *)
Lemma loadModel_completes (report : FetchResult Gltf.t) (s : Viewer) :
  snd (loadModel report s) = Normal tt.
Proof.
  unfold loadModel, try_catch. destruct report as [gltf|error].
  - simpl await.
    rewrite (bind_normal _ _ s s gltf) by reflexivity.
    rewrite (bind_normal _ _ _ (exec (receive gltf) s) tt) by reflexivity.
    by rewrite (bind_normal _ _ _ _ tt (initializeModel_run _)).
  - reflexivity.
Qed.

Lemma onClick_completes (s : Viewer) event rect intersects :
  snd (onClick event rect intersects s) = Normal tt.
Proof.
  rewrite onClick_pointer. cbv zeta.
  destruct intersects as [|first others]; [done|].
  set (aimed := set_raycaster _ _).
  destruct (showObjectInfo_shown aimed (Raycaster.object first))
    as (Hshown & _).
  rewrite (bind_normal _ _ aimed _ tt Hshown).
  pose proof (highlightObject_run
                (exec (showObjectInfo (Raycaster.object first)) aimed)
                (Raycaster.object first)) as Hrun.
  cbv zeta in Hrun. by rewrite Hrun.
Qed.

(** In every state the viewer reaches, two handlers and no other end on
    an exception: the handler of the night-mode checkbox, always, on the
    [TypeError] of [updateLighting]; and the handler that awaits a
    basemap texture, on the loader's error when the fetch fails. A model
    that fails to load, a click on anything or on nothing, a texture
    that arrives, a resize and a frame all complete normally. *)
Theorem uncaught_exceptions (w h : R) (p : Page.t) (es : list Event)
    (e : Event) :
  let s := run (construct w h p) es in
  snd (handle e s)
  = match e with
    | NightModeChange _ => Throw TypeError
    | TextureSettled i (Failed error) =>
        match Pending.textures (pending s) !! i with
        | Some _ => Throw (LoadError error)
        | None => Normal tt
        end
    | _ => Normal tt
    end.
Proof.
  intros s.
  pose proof (reachable_run w h p es) as Hreach. fold s in Hreach.
  destruct (reachable_plane s Hreach) as [Hshape _]. clearbody s.
  destruct e as [checked|checked|value|i report|report|event rect hits|? ?|].
  - destruct (nightModeChanged_stops checked s) as [Hrun _].
    by rewrite Hrun.
  - destruct checked.
    + by destruct (basemapToggled_on s) as [-> _].
    + by rewrite basemapToggled_off.
  - unfold handle, basemapTypeChanged. rewrite bind_modify, bind_gets.
    cbn [showOSM set_basemapType]. by destruct (showOSM s).
  - destruct (Pending.textures (pending s) !! i) as [f|] eqn:Hf.
    + destruct report as [[]|error].
      * by destruct (textureSettled_loaded s i f Hshape Hf) as [-> _].
      * unfold handle. by rewrite (textureSettled_failed s i f error Hf).
    + unfold handle, textureSettled. rewrite bind_gets, Hf.
      by destruct report.
  - unfold handle, modelSettled. rewrite bind_gets.
    destruct (Pending.modelLoading (pending s)); [|done].
    rewrite bind_modify. apply loadModel_completes.
  - apply onClick_completes.
  - reflexivity.
  - reflexivity.
Qed.

End Completions.

(** ** The further properties on the sample viewer *)

Section MoreWitnesses.
Local Open Scope R_scope.
#[local] Existing Instance OrbitControls.threejs.

Lemma fitted_camera_outside_witness :
  let s := exec (receive (Sample.gltf Sample.cube)) Sample.viewer in
  let s' := exec initializeModel s in
  distanceTo (Vec3 1 1 1) (Vec3 0.5 0.5 0.5)
  < distanceTo (Camera.position (camera s')) (Vec3 0.5 0.5 0.5).
Proof.
  assert (Hone : Rmax (Rmax 1 1) 1 = 1).
  { unfold Rmax. repeat destruct (Rle_dec _ _); lra. }
  destruct sample_controls as (Hmin & Hmax & Hscale & Hpan & Hfov).
  destruct sample_cube_box as [Hcenter Hsize]. cbv zeta in Hcenter, Hsize.
  destruct sin_fov_75 as [Hlow Hup].
  destruct sqrt_114_bounds as [_ Hsqrt].
  destruct (receive_view (Sample.gltf Sample.cube) Sample.viewer)
    as [Hcontrols Hcamera].
  cbv zeta.
  pose proof (fitted_camera_outside
                (exec (receive (Sample.gltf Sample.cube)) Sample.viewer)
                (Gltf.scene (Sample.gltf Sample.cube))
                (Vec3 0 (- (0 + 0) + 0) 0) (Vec3 1 (- (0 + 0) + 1) 1)
                eq_refl eq_refl) as H.
  cbv zeta in H.
  rewrite Hcontrols, Hcamera, Hcenter, Hsize, Hmin, Hmax, Hscale, Hfov in H.
  apply H; clear H; cbn [vx vy vz]; try lra.
  - exact Hpan.
  - reflexivity.
  - unfold fitDistance. cbn [vx vy vz]. rewrite Hone.
    set (x := sin (75 * (PI / 180) / 2)) in *.
    assert (Hinv : 0 <= 1 / x < 2).
    { split.
      - apply Rlt_le. apply Rdiv_lt_0_compat; lra.
      - apply (Rmult_lt_reg_r x); [lra|]. field_simplify; lra. }
    rewrite Rabs_right by lra. nra.
Defined.

Lemma initializeModel_shadows_witness :
  let s := exec (receive (Sample.gltf Sample.cube)) Sample.viewer in
  let s' := exec initializeModel s in
  ∃ tower, Scene.objs (scene s') !! 1%nat = Some tower
    ∧ Object3D.castShadow tower = true
    ∧ Object3D.receiveShadow tower = true.
Proof.
  intros s.
  destruct (initializeModel_shadows s
              (Gltf.scene (Sample.gltf Sample.cube)) eq_refl eq_refl)
    as (_ & Hmesh & _).
  destruct (Hmesh 1%nat (Sample.node "Tower" (Some 1%nat) true))
    as (tower & Htower & Hcast & Hreceive & _).
  - apply elem_of_cons. by left.
  - vm_compute. reflexivity.
  - reflexivity.
  - by exists tower.
Defined.

Lemma model_failure_is_caught_witness :
  let s' := step Sample.viewer (ModelSettled (Failed "404")) in
  handle (ModelSettled (Failed "404")) Sample.viewer = (s', Normal tt)
  ∧ model s' = None
  ∧ Page.overlayHTML (page s') = Page.ErrorBlock "Failed to load 3D model".
Proof.
  destruct (model_failure_is_caught (orbit := OrbitControls.threejs) Sample.viewer
              "404" eq_refl) as (Hrun & Hm & _ & _ & _ & _ & Hhtml & _).
  split; [exact Hrun|]. split; [by rewrite Hm|exact Hhtml].
Defined.

Lemma click_pointer_in_range_witness :
  let s' := exec (onClick Sample.click Sample.canvas Sample.hits)
              Sample.loaded in
  -1 <= v2x (mouse s') <= 1
  ∧ -1 <= v2y (mouse s') <= 1
  ∧ Raycaster.coords (raycaster s') = mouse s'
  ∧ (MouseEvent.clientX Sample.click = DOMRect.left Sample.canvas ->
     v2x (mouse s') = -1)
  ∧ (MouseEvent.clientY Sample.click = DOMRect.top Sample.canvas ->
     v2y (mouse s') = 1)
  ∧ (MouseEvent.clientY Sample.click
     = DOMRect.top Sample.canvas + DOMRect.height Sample.canvas ->
     v2y (mouse s') = -1).
Proof.
  apply (click_pointer_in_range Sample.loaded Sample.click Sample.canvas
           Sample.hits);
    unfold Sample.canvas, Sample.click; simpl; lra.
Defined.

Lemma deselected_turns_black_witness :
  Scene.emissive
    (scene (exec (highlightObject 2%nat) Sample.picked)) 1%nat
  = Some 0x000000%Z.
Proof.
  apply (deselected_turns_black Sample.picked 1%nat 2%nat).
  - vm_compute. reflexivity.
  - vm_compute. reflexivity.
  - vm_compute. discriminate.
Defined.

Lemma shared_material_stays_highlighted_witness :
  Scene.emissive
    (scene (exec (highlightObject 1%nat) Sample.picked)) 1%nat
  = Some 0xffd700%Z.
Proof.
  destruct (shared_material_stays_highlighted Sample.picked 1%nat 1%nat)
    as [Ha _].
  - vm_compute. reflexivity.
  - vm_compute. reflexivity.
  - reflexivity.
  - exact Ha.
Defined.

Lemma click_on_ground_plane_witness :
  let s := run (construct 800 600 Sample.page)
             [BasemapToggleChange true; TextureSettled 0 (Loaded tt)] in
  let s' := step s (Click Sample.click Sample.canvas
                      [Raycaster.hit 3 0%nat]) in
  selectedObject s' = Some 0%nat
  ∧ Page.objectName (page s') = "Unnamed Object"
  ∧ Scene.emissive (scene s') 0%nat = None.
Proof.
  intros s.
  destruct (click_on_ground_plane (orbit := OrbitControls.threejs) 800 600
              Sample.page
              [BasemapToggleChange true; TextureSettled 0 (Loaded tt)]
              0%nat Sample.click Sample.canvas 3 [])
    as (_ & Hsel & _ & Hname & _ & Hem & _).
  - vm_compute. reflexivity.
  - by split.
Defined.

Lemma type_changes_while_off_witness :
  run Sample.viewer (BasemapTypeChange <$> ["dark"; "satellite"])
  = set_basemapType "satellite" Sample.viewer.
Proof.
  by destruct (type_changes_while_off (orbit := OrbitControls.threejs) Sample.viewer
                 ["dark"; "satellite"] eq_refl) as [H _].
Defined.

Lemma frames_and_resizes_witness :
  ∃ camera' controls' size',
    run Sample.viewer [WindowResize 1024 768; AnimationFrame]
    = set_rendererSize size'
        (set_camera camera' (set_controls controls' Sample.viewer)).
Proof.
  apply (frames_and_resizes_keep_scene (orbit := OrbitControls.threejs)
           Sample.viewer [WindowResize 1024 768; AnimationFrame]).
  constructor; [right; by exists 1024, 768|].
  constructor; [by left|]. constructor.
Defined.

Lemma nothing_selected_before_hit_witness :
  selectedObject
    (run Sample.loaded
       [Click Sample.click Sample.canvas []; AnimationFrame])
  = None.
Proof.
  destruct (nothing_selected_before_hit (orbit := OrbitControls.threejs)
              Sample.loaded
              [Click Sample.click Sample.canvas []; AnimationFrame])
    as [H _].
  - vm_compute. reflexivity.
  - constructor; [by intros ? ? ? [= _ _ <-]|].
    constructor; [by intros ? ? ? [=]|]. constructor.
  - exact H.
Defined.

End MoreWitnesses.
